(** * BasicVAE: the ELBO step and the epoch aggregation

    A shallow embedding of the two [BasicVAE] Lightning modules

      - pl_bolts/models/autoencoders/basic_vae/basic_vae_module.py
      - pl_bolts/models/vaes/basic/template.py

    The methods are embedded twice.

    In [Torch], [BasicVaeModule] and [Template] tensor elements are
    real numbers: this is the arithmetic the methods are written in,
    without rounding, overflow or underflow.  Tensors live in a store
    of contiguous storages and are handled through (storage, sizes)
    pairs, as in the tensor library, so that views alias their base
    tensor.  What is proved there is about the structure of the
    computation, the mathematical value of its results, their signs,
    and what a run leaves unchanged.

    In [F32] and [BasicVaeF32] tensor elements are binary32 numbers,
    the elements the methods compute with, and every operation is
    rounded.  What relates the numbers a run returns to one another
    exactly, or depends on underflow, is decided there.

    The random generator is part of the program state.  The encoder
    and the decoder are parameters: functions from their input to
    their output, which may raise.

    Methods are computations in a state-and-outcome monad; a run of
    the real-valued embedding is specified by [wp], which says that
    the run returns and what holds of its result and final state. *)

From Stdlib Require Import Reals Lra Lia ZArith SpecFloat.
From stdpp Require Import base list strings gmap.

(** ** Python outcomes *)

Module Py.

Inductive exn : Set :=
| AttributeError | KeyError | IndexError | TypeError | ValueError
| RuntimeError.

(** [Unmodelled] marks behaviour the real-valued, equal-shape model
    does not describe: a [nan] or [inf] result, and broadcasting of
    operands of different sizes. *)
Inductive outcome (A : Type) : Type :=
| Ok (a : A)
| Raise (e : exn)
| Unmodelled.
Arguments Ok {A} a.
Arguments Raise {A} e.
Arguments Unmodelled {A}.

#[global] Instance outcome_ret : MRet outcome := @Ok.
#[global] Instance outcome_bind : MBind outcome := fun A B f o =>
  match o with
  | Ok a => f a
  | Raise e => Raise e
  | Unmodelled => Unmodelled
  end.

(** An object with integer attributes ([argparse.Namespace]);
    [None] is an object without any of them. *)
Definition object : Type := option (gmap string Z).

Definition hasattr (o : object) (name : string) : bool :=
  match o with
  | Some ns => bool_decide (is_Some (ns !! name))
  | None => false
  end.

(** [o.name] *)
Definition getattr (o : object) (name : string) : outcome Z :=
  match o ≫= (.!! name) with
  | Some v => Ok v
  | None => Raise AttributeError
  end.

End Py.
Export Py.

(** ** The tensor library, as far as the modules use it *)

Module Torch.

Local Open Scope R_scope.

#[global] Instance Rle_decision (x y : R) : Decision (x <= y) := Rle_dec x y.
#[global] Instance Rlt_decision (x y : R) : Decision (x < y) := Rlt_dec x y.

(** *** Program state *)

(** A deterministic generator: its state fixes every future draw. *)
Record Generator := MkGenerator { stream : nat -> R; offset : nat }.

(** The state of a run: the generator, the store of tensor
    storages, and a record of the distributions constructed so far,
    each with the elements of its [loc] and [scale] at construction
    (kept only to state what distributions were built from). *)
Record World := MkWorld {
  rng : Generator;
  heap : list (list R);
  built : list (list R * list R) }.

(** A tensor object: a contiguous row-major view on a storage. *)
Record tensor := Tensor { storage : nat; sizes : list nat }.

(** Sizes and elements of a tensor, read out of the store. *)
Definition tdata : Type := list nat * list R.

Definition M (A : Type) : Type := World -> outcome A * World.

Definition ret {A} (a : A) : M A := fun w => (Ok a, w).

Definition bind {A B} (m : M A) (f : A -> M B) : M B :=
  fun w =>
    match m w with
    | (Ok a, w') => f a w'
    | (Raise e, w') => (Raise e, w')
    | (Unmodelled, w') => (Unmodelled, w')
    end.

Definition raise {A} (e : exn) : M A := fun w => (Raise e, w).
Definition unmodelled {A} : M A := fun w => (Unmodelled, w).

Definition lift {A} (o : outcome A) : M A := fun w => (o, w).

#[global] Instance M_ret : MRet M := @ret.
#[global] Instance M_bind : MBind M := fun A B f m => bind m f.

(** *** Store access *)

(** The elements of a tensor; tensors of a program always have a
    storage. *)
Definition load (t : tensor) : M (list R) :=
  fun w =>
    match heap w !! storage t with
    | Some e => (Ok e, w)
    | None => (Unmodelled, w)
    end.

(** A new tensor on a new storage. *)
Definition alloc (s : list nat) (e : list R) : M tensor :=
  fun w => (Ok (Tensor (length (heap w)) s),
            MkWorld (rng w) (heap w ++ [e]) (built w)).

(** The next [n] draws of generator [g], and [g] after them. *)
Definition noise (n : nat) (g : Generator) : list R :=
  map (fun i => stream g (offset g + i)%nat) (seq 0 n).

Definition advance (n : nat) (g : Generator) : Generator :=
  MkGenerator (stream g) (offset g + n).

(** [n] draws of standard-normal noise. *)
Definition standard_normal (n : nat) : M (list R) :=
  fun w => (Ok (noise n (rng w)),
            MkWorld (advance n (rng w)) (heap w) (built w)).

(** *** Elementwise arithmetic on storages *)

Definition numel (s : list nat) : nat := foldr Nat.mul 1%nat s.

Definition Rsum (l : list R) : R := foldr Rplus 0 l.

(** The logarithm of the binary cross-entropy, clamped below at -100. *)
Definition clamp_log (v : R) : R :=
  if decide (0 < v) then Rmax (ln v) (-100) else -100.

Definition bce (p y : R) : R :=
  - (y * clamp_log p + (1 - y) * clamp_log (1 - p)).

(** [Normal.log_prob] at one element. *)
Definition normal_log_prob (m s v : R) : R :=
  - ((v - m) ^ 2) / (2 * s ^ 2) - ln s - ln (sqrt (2 * PI)).

(** [Normal.rsample] at one element. *)
Definition reparam (m s eps : R) : R := m + eps * s.

(** *** Operations *)

Definition map1 (f : R -> R) (t : tensor) : M tensor :=
  e ← load t;
  alloc (sizes t) (map f e).

(** Elementwise binary operations, on operands of equal sizes; other
    sizes broadcast or raise in the library and are left unmodelled. *)
Definition map2 (f : R -> R -> R) (a b : tensor) : M tensor :=
  ea ← load a;
  eb ← load b;
  if decide (sizes a = sizes b)
  then alloc (sizes a) (zip_with f ea eb)
  else unmodelled.

Definition div_scalar (t : tensor) (c : R) : M tensor :=
  map1 (fun v => v / c) t.

(** [torch.exp(t)], the real exponential: it neither rounds nor
    underflows ([F32.exp] does). *)
Definition exp (t : tensor) : M tensor := map1 Rtrigo_def.exp t.

Definition zeros_like (t : tensor) : M tensor := map1 (fun _ => 0) t.

Definition ones_like (t : tensor) : M tensor := map1 (fun _ => 1) t.

Definition add (a b : tensor) : M tensor := map2 Rplus a b.

Definition sub (a b : tensor) : M tensor := map2 Rminus a b.

(** [t.size(d)] *)
Definition size (t : tensor) (d : nat) : M nat :=
  match sizes t !! d with
  | Some n => ret n
  | None => raise IndexError
  end.

(** The sizes a [view] request denotes on [n] elements; one entry
    may be -1 and is then inferred. *)
Definition infer_size (shape : list Z) (n : nat) : option (list nat) :=
  if decide (Forall (fun d => (-1 <= d)%Z) shape) then
    let known := numel (map Z.to_nat (filter (fun d => d ≠ (-1)%Z) shape)) in
    match length (filter (fun d => d = (-1)%Z) shape) with
    | O => if decide (known = n) then Some (map Z.to_nat shape) else None
    | S O =>
        if decide (known = 0%nat) then None
        else if decide (n `mod` known = 0)%nat
             then Some (map (fun d => if decide (d = (-1)%Z)
                                      then (n `div` known)%nat
                                      else Z.to_nat d) shape)
             else None
    | _ => None
    end
  else None.

(** [t.view(shape)]: a new tensor object on the same storage. *)
Definition view (t : tensor) (shape : list Z) : M tensor :=
  match infer_size shape (numel (sizes t)) with
  | Some s => ret (Tensor (storage t) s)
  | None => raise RuntimeError
  end.

(** The dimension a possibly negative [dim] denotes. *)
Definition normalize_dim (ndim : nat) (dim : Z) : outcome nat :=
  let r := Z.of_nat (Nat.max ndim 1) in
  if decide (- r <= dim < r)%Z
  then Ok (Z.to_nat (if decide (dim < 0)%Z then dim + r else dim))
  else Raise IndexError.

(** Sum over dimension [d] of row-major elements [e] of sizes [s]. *)
Definition sum_elems (s : list nat) (d : nat) (e : list R) : list R :=
  let outer := numel (take d s) in
  let k := nth d s 1%nat in
  let inner := numel (drop (S d) s) in
  o ← seq 0 outer;
  i ← seq 0 inner;
  [Rsum (map (fun j => nth ((o * k + j) * inner + i) e 0) (seq 0 k))].

(** [t.sum(dim=dim)] *)
Definition sum (t : tensor) (dim : Z) : M tensor :=
  e ← load t;
  d ← lift (normalize_dim (length (sizes t)) dim);
  alloc (take d (sizes t) ++ drop (S d) (sizes t)) (sum_elems (sizes t) d e).

(** [t.mean()]: a 0-dimensional tensor; [nan] on no elements.  The
    exact sum over the exact count ([F32.mean] rounds both). *)
Definition mean (t : tensor) : M tensor :=
  e ← load t;
  if decide (numel (sizes t) = 0%nat) then unmodelled
  else alloc [] [Rsum e / INR (numel (sizes t))].

(** [F.binary_cross_entropy(input, target, reduction='none')]: the
    sizes must agree and the input must lie in [0,1]. *)
Definition binary_cross_entropy (input target : tensor) : M tensor :=
  p ← load input;
  y ← load target;
  if decide (sizes target = sizes input) then
    if decide (Forall (fun v => 0 <= v <= 1) p)
    then alloc (sizes input) (zip_with bce p y)
    else raise RuntimeError
  else raise ValueError.

(** *** torch.distributions.normal.Normal *)

Record Distribution := MkNormal { loc : tensor; scale : tensor }.

(** Record a construction in the [built] list of the world. *)
Definition note_built (m s : list R) : M unit :=
  fun w => (Ok (), MkWorld (rng w) (heap w) (built w ++ [(m, s)])).

Definition construct (d : Distribution) : M Distribution :=
  m ← load (loc d);
  s ← load (scale d);
  _ ← note_built m s;
  ret d.

(** [Normal(loc, scale)], on parameters of equal sizes (other sizes
    broadcast). *)
Definition Normal (loc scale : tensor) : M Distribution :=
  if decide (sizes loc = sizes scale)
  then construct (MkNormal loc scale)
  else unmodelled.

(** [d.rsample()]: [loc + eps * scale] with fresh noise [eps]. *)
Definition rsample (d : Distribution) : M tensor :=
  m ← load (loc d);
  s ← load (scale d);
  eps ← standard_normal (numel (sizes (loc d)));
  alloc (sizes (loc d)) (zip_with (fun ms e => reparam ms.1 ms.2 e) (zip m s) eps).

(** [d.log_prob(value)]; a scale that is not positive gives [nan] or
    [inf]. *)
Definition log_prob (d : Distribution) (value : tensor) : M tensor :=
  m ← load (loc d);
  s ← load (scale d);
  v ← load value;
  if decide (sizes value = sizes (loc d)) then
    if decide (Forall (fun x => 0 < x) s)
    then alloc (sizes value)
               (zip_with (fun ms x => normal_log_prob ms.1 ms.2 x) (zip m s) v)
    else unmodelled
  else unmodelled.

(** *** Calls of network modules

    A network is a function from the data of its input to the data
    of its outputs; it may raise. *)

Definition call1 (f : tdata -> outcome tdata) (t : tensor) : M tensor :=
  e ← load t;
  r ← lift (f (sizes t, e));
  alloc r.1 r.2.

Definition call2 (f : tdata -> outcome (tdata * tdata)) (t : tensor)
  : M (tensor * tensor) :=
  e ← load t;
  r ← lift (f (sizes t, e));
  a ← alloc r.1.1 r.1.2;
  b ← alloc r.2.1 r.2.2;
  ret (a, b).

(** *** Result dictionaries *)

(** A value of a result dictionary: a tensor or a dictionary of
    tensors (the log record). *)
Inductive value :=
| VTensor (t : tensor)
| VDict (d : gmap string tensor).

(** [d[key]] *)
Definition getitem (d : gmap string value) (key : string) : M value :=
  match d !! key with
  | Some v => ret v
  | None => raise KeyError
  end.

Definition as_tensor (v : value) : option tensor :=
  match v with
  | VTensor t => Some t
  | VDict _ => None
  end.

(** [torch.stack(vs)] along a new first dimension: the items must be
    tensors, at least one, of the same sizes. *)
Definition stack (vs : list value) : M tensor :=
  match mapM as_tensor vs with
  | None => raise TypeError
  | Some [] => raise RuntimeError
  | Some (t0 :: ts) =>
      if decide (Forall (fun t => sizes t = sizes t0) (t0 :: ts)) then
        es ← mapM load (t0 :: ts);
        alloc (length (t0 :: ts) :: sizes t0) (concat es)
      else raise RuntimeError
  end.

(** *** Assertions on runs *)

(** Tensor [t] holds the elements [e] in world [w]. *)
Definition stored (w : World) (t : tensor) (e : list R) : Prop :=
  heap w !! storage t = Some e.

(** [w'] keeps every storage of [w] as it is. *)
Definition grows (w w' : World) : Prop := heap w `prefix_of` heap w'.

(** The run of [m] from [w] either returns a result and ends in a
    world, which satisfy [Φ], or fails in a world that satisfies [E]. *)
Definition wpx {A} (m : M A) (w : World) (Φ : A -> World -> Prop)
    (E : World -> Prop) : Prop :=
  match m w with
  | (Ok a, w') => Φ a w'
  | (_, w') => E w'
  end.

(** The run of [m] from [w] returns a result and ends in a world,
    which satisfy [Φ]. *)
Abbreviation wp m w Φ := (wpx m w Φ (fun _ => False)).

(** The outcome and the final world of the run of [m] from [w]
    satisfy [Ψ]. *)
Definition post {A} (m : M A) (w : World)
    (Ψ : outcome A -> World -> Prop) : Prop :=
  Ψ (m w).1 (m w).2.

(** What a run sees of a freshly allocated tensor. *)
Definition fresh w (s : list nat) e (g : Generator)
    (Φ : tensor -> World -> Prop) : Prop :=
  forall t w', grows w w' -> rng w' = g -> built w' = built w ->
               sizes t = s -> stored w' t e -> Φ t w'.

End Torch.

(** ** pl_bolts/models/autoencoders/basic_vae/basic_vae_module.py *)

Module BasicVaeModule.
Import Torch.

(** The attributes [__check_hparams] sets on the module. *)
Record Attrs := MkAttrs {
  hidden_dim : Z; latent_dim : Z; input_width : Z; input_height : Z;
  batch_size : Z }.

Definition __check_hparams (hparams : object) : outcome Attrs :=
  hidden_dim ← (if hasattr hparams "hidden_dim"
                then getattr hparams "hidden_dim" else Ok 128%Z);
  latent_dim ← (if hasattr hparams "latent_dim"
                then getattr hparams "latent_dim" else Ok 32%Z);
  input_width ← (if hasattr hparams "input_width"
                 then getattr hparams "input_width" else Ok 28%Z);
  input_height ← (if hasattr hparams "input_height"
                  then getattr hparams "input_height" else Ok 28%Z);
  batch_size ← (if hasattr hparams "batch_size"
                then getattr hparams "input_height" else Ok 32%Z);
  Ok (MkAttrs hidden_dim latent_dim input_width input_height batch_size).

Section BasicVAE.
(** The encoder and decoder networks of the module. *)
Variable encoder : tdata -> outcome (tdata * tdata).
Variable decoder : tdata -> outcome tdata.

Definition get_prior (z_mu z_std : tensor) : M Distribution :=
  zeros ← zeros_like z_mu;
  ones ← ones_like z_std;
  P ← Normal zeros ones;
  mret P.

Definition get_approx_posterior (z_mu z_std : tensor) : M Distribution :=
  Q ← Normal z_mu z_std;
  mret Q.

Definition forward (z : tensor) : M tensor := call1 decoder z.

Definition elbo_loss (x : tensor) (P Q : Distribution)
  : M (tensor * tensor * tensor * tensor) :=
  z ← rsample Q;
  pxz ← forward z;
  recon_loss ← binary_cross_entropy pxz x;
  recon_loss ← sum recon_loss (-1);
  log_qz ← log_prob Q z;
  log_pz ← log_prob P z;
  diff ← sub log_qz log_pz;
  kl_div ← sum diff 1;
  loss ← add recon_loss kl_div;
  loss ← mean loss;
  recon_loss ← mean recon_loss;
  kl_div ← mean kl_div;
  mret (loss, recon_loss, kl_div, pxz).

Definition _run_step (batch : tensor * tensor)
  : M (tensor * tensor * tensor * tensor) :=
  let '(x, _) := batch in
  '(z_mu, z_log_var) ← call2 encoder x;
  half ← div_scalar z_log_var 2;
  z_std ← exp half;
  P ← get_prior z_mu z_std;
  Q ← get_approx_posterior z_mu z_std;
  n ← size x 0;
  x ← view x [Z.of_nat n; (-1)%Z];
  '(loss, recon_loss, kl_div, pxz) ← elbo_loss x P Q;
  mret (loss, recon_loss, kl_div, pxz).

Definition training_step (batch : tensor * tensor) (batch_idx : nat)
  : M (gmap string value) :=
  '(loss, recon_loss, kl_div, pxz) ← _run_step batch;
  let tensorboard_logs : gmap string tensor :=
    <["train_kl_loss" := kl_div]>
      (<["train_recon_loss" := recon_loss]>
         (<["train_elbo_loss" := loss]> ∅)) in
  mret (<["log" := VDict tensorboard_logs]> (<["loss" := VTensor loss]> ∅)).

Definition validation_step (batch : tensor * tensor) (batch_idx : nat)
  : M (gmap string value) :=
  '(loss, recon_loss, kl_div, pxz) ← _run_step batch;
  mret (<["pxz" := VTensor pxz]>
          (<["val_kl_div" := VTensor kl_div]>
             (<["val_recon_loss" := VTensor recon_loss]>
                (<["val_loss" := VTensor loss]> ∅)))).

Definition validation_epoch_end (outputs : list (gmap string value))
  : M (gmap string value) :=
  ts ← mapM (fun x => getitem x "val_loss") outputs;
  st ← stack ts;
  avg_loss ← mean st;
  ts ← mapM (fun x => getitem x "val_recon_loss") outputs;
  st ← stack ts;
  recon_loss ← mean st;
  ts ← mapM (fun x => getitem x "val_kl_div") outputs;
  st ← stack ts;
  kl_loss ← mean st;
  let tensorboard_logs : gmap string tensor :=
    <["val_kl_loss" := kl_loss]>
      (<["val_recon_loss" := recon_loss]>
         (<["val_elbo_loss" := avg_loss]> ∅)) in
  mret (<["log" := VDict tensorboard_logs]>
          (<["avg_val_loss" := VTensor avg_loss]> ∅)).

Definition test_step (batch : tensor * tensor) (batch_idx : nat)
  : M (gmap string value) :=
  '(loss, recon_loss, kl_div, pxz) ← _run_step batch;
  mret (<["pxz" := VTensor pxz]>
          (<["test_kl_div" := VTensor kl_div]>
             (<["test_recon_loss" := VTensor recon_loss]>
                (<["test_loss" := VTensor loss]> ∅)))).

Definition test_epoch_end (outputs : list (gmap string value))
  : M (gmap string value) :=
  ts ← mapM (fun x => getitem x "test_loss") outputs;
  st ← stack ts;
  avg_loss ← mean st;
  ts ← mapM (fun x => getitem x "test_recon_loss") outputs;
  st ← stack ts;
  recon_loss ← mean st;
  ts ← mapM (fun x => getitem x "test_kl_div") outputs;
  st ← stack ts;
  kl_loss ← mean st;
  let tensorboard_logs : gmap string tensor :=
    <["test_kl_loss" := kl_loss]>
      (<["test_recon_loss" := recon_loss]>
         (<["test_elbo_loss" := avg_loss]> ∅)) in
  mret (<["log" := VDict tensorboard_logs]>
          (<["avg_test_loss" := VTensor avg_loss]> ∅)).

End BasicVAE.

End BasicVaeModule.

(** ** pl_bolts/models/vaes/basic/template.py *)

Module Template.
Import Torch.

(** What lines 23-27 of [__init__] compute from [hparams]: the
    four arguments of the encoder and decoder constructors and the
    [batch_size] attribute. *)
Record Attrs := MkAttrs {
  hidden_dim : Z; latent_dim : Z; input_width : Z; input_height : Z;
  batch_size : Z }.

(** Lines 23-27 of [__init__], the resolution of the
    hyperparameters.  The calls around them, [super().__init__()]
    before and the constructors of [Encoder] and [Decoder] after, are
    code of other modules and are not part of this definition. *)
Definition __init__ (hparams : object) : outcome Attrs :=
  hidden_dim ← (if hasattr hparams "hidden_dim"
                then getattr hparams "hidden_dim" else Ok 128%Z);
  latent_dim ← (if hasattr hparams "latent_dim"
                then getattr hparams "latent_dim" else Ok 32%Z);
  input_width ← (if hasattr hparams "input_width"
                 then getattr hparams "input_width" else Ok 28%Z);
  input_height ← (if hasattr hparams "input_height"
                  then getattr hparams "input_height" else Ok 28%Z);
  batch_size ← (if hasattr hparams "batch_size"
                then getattr hparams "input_height" else Ok 32%Z);
  Ok (MkAttrs hidden_dim latent_dim input_width input_height batch_size).

Section BasicVAE.
(** The encoder and decoder networks of the module. *)
Variable encoder : tdata -> outcome (tdata * tdata).
Variable decoder : tdata -> outcome tdata.

Definition get_prior (z_mu z_std : tensor) : M Distribution :=
  zeros ← zeros_like z_mu;
  ones ← ones_like z_std;
  P ← Normal zeros ones;
  mret P.

Definition get_approx_posterior (z_mu z_std : tensor) : M Distribution :=
  Q ← Normal z_mu z_std;
  mret Q.

Definition forward (z : tensor) : M tensor := call1 decoder z.

Definition elbo_loss (x : tensor) (P Q : Distribution)
  : M (tensor * tensor * tensor * tensor) :=
  z ← rsample Q;
  pxz ← forward z;
  recon_loss ← binary_cross_entropy pxz x;
  recon_loss ← sum recon_loss (-1);
  log_qz ← log_prob Q z;
  log_pz ← log_prob P z;
  diff ← sub log_qz log_pz;
  kl_div ← sum diff 1;
  loss ← add recon_loss kl_div;
  loss ← mean loss;
  recon_loss ← mean recon_loss;
  kl_div ← mean kl_div;
  mret (loss, recon_loss, kl_div, pxz).

Definition _run_step (batch : tensor * tensor)
  : M (tensor * tensor * tensor * tensor) :=
  let '(x, _) := batch in
  '(z_mu, z_log_var) ← call2 encoder x;
  half ← div_scalar z_log_var 2;
  z_std ← exp half;
  P ← get_prior z_mu z_std;
  Q ← get_approx_posterior z_mu z_std;
  n ← size x 0;
  x ← view x [Z.of_nat n; (-1)%Z];
  '(loss, recon_loss, kl_div, pxz) ← elbo_loss x P Q;
  mret (loss, recon_loss, kl_div, pxz).

Definition training_step (batch : tensor * tensor) (batch_idx : nat)
  : M (gmap string value) :=
  '(loss, recon_loss, kl_div, pxz) ← _run_step batch;
  let tensorboard_logs : gmap string tensor :=
    <["train_kl_loss" := kl_div]>
      (<["train_recon_loss" := recon_loss]>
         (<["train_elbo_loss" := loss]> ∅)) in
  mret (<["log" := VDict tensorboard_logs]> (<["loss" := VTensor loss]> ∅)).

Definition validation_step (batch : tensor * tensor) (batch_idx : nat)
  : M (gmap string value) :=
  '(loss, recon_loss, kl_div, pxz) ← _run_step batch;
  mret (<["pxz" := VTensor pxz]>
          (<["val_kl_div" := VTensor kl_div]>
             (<["val_recon_loss" := VTensor recon_loss]>
                (<["val_loss" := VTensor loss]> ∅)))).

Definition validation_epoch_end (outputs : list (gmap string value))
  : M (gmap string value) :=
  ts ← mapM (fun x => getitem x "val_loss") outputs;
  st ← stack ts;
  avg_loss ← mean st;
  ts ← mapM (fun x => getitem x "val_recon_loss") outputs;
  st ← stack ts;
  recon_loss ← mean st;
  ts ← mapM (fun x => getitem x "val_kl_div") outputs;
  st ← stack ts;
  kl_loss ← mean st;
  let tensorboard_logs : gmap string tensor :=
    <["val_kl_loss" := kl_loss]>
      (<["val_recon_loss" := recon_loss]>
         (<["val_elbo_loss" := avg_loss]> ∅)) in
  mret (<["log" := VDict tensorboard_logs]>
          (<["avg_val_loss" := VTensor avg_loss]> ∅)).

Definition test_step (batch : tensor * tensor) (batch_idx : nat)
  : M (gmap string value) :=
  '(loss, recon_loss, kl_div, pxz) ← _run_step batch;
  mret (<["pxz" := VTensor pxz]>
          (<["test_kl_div" := VTensor kl_div]>
             (<["test_recon_loss" := VTensor recon_loss]>
                (<["test_loss" := VTensor loss]> ∅)))).

Definition test_epoch_end (outputs : list (gmap string value))
  : M (gmap string value) :=
  ts ← mapM (fun x => getitem x "test_loss") outputs;
  st ← stack ts;
  avg_loss ← mean st;
  ts ← mapM (fun x => getitem x "test_recon_loss") outputs;
  st ← stack ts;
  recon_loss ← mean st;
  ts ← mapM (fun x => getitem x "test_kl_div") outputs;
  st ← stack ts;
  kl_loss ← mean st;
  let tensorboard_logs : gmap string tensor :=
    <["test_kl_loss" := kl_loss]>
      (<["test_recon_loss" := recon_loss]>
         (<["test_elbo_loss" := avg_loss]> ∅)) in
  mret (<["log" := VDict tensorboard_logs]>
          (<["avg_test_loss" := VTensor avg_loss]> ∅)).

End BasicVAE.

End Template.

(** ** The values of an ELBO step *)

Module Values.
Import Torch.
Local Open Scope R_scope.

(** Sum of [f 0 .. f (n-1)]. *)
Definition big_sum (n : nat) (f : nat -> R) : R := Rsum (map f (seq 0 n)).

(** The standard deviations [_run_step] derives. *)
Definition stds (LV : list R) : list R :=
  map Rtrigo_def.exp (map (fun v => v / 2) LV).

(** The values an ELBO computation goes through, as functions of the
    stored elements: [B] samples, [K] features, [D] latent
    dimensions. *)
Section values.
Variables (B K D : nat).

Definition latent (Ql Qs : list R) (g : Generator) : list R :=
  zip_with (fun ms x => reparam ms.1 ms.2 x) (zip Ql Qs)
           (noise (numel [B; D]) g).

Definition log_probs (l s z : list R) : list R :=
  zip_with (fun ms x => normal_log_prob ms.1 ms.2 x) (zip l s) z.

Definition recon_per_sample (PXZ X : list R) : list R :=
  sum_elems [B; K] 1 (zip_with bce PXZ X).

Definition kl_per_sample (Pl Ps Ql Qs Z : list R) : list R :=
  sum_elems [B; D] 1
    (zip_with Rminus (log_probs Ql Qs Z) (log_probs Pl Ps Z)).

Definition batch_mean (v : list R) : R := Rsum v / INR (numel [B]).

(** Per-sample values, by index: sample [i], feature [j], latent
    dimension [d]. *)
Definition recon_at (PXZ X : list R) (i : nat) : R :=
  big_sum K (fun j => bce (nth (i * K + j) PXZ 0) (nth (i * K + j) X 0)).

Definition kl_at (Pl Ps Ql Qs Z : list R) (i : nat) : R :=
  big_sum D (fun d =>
    let n := (i * D + d)%nat in
    normal_log_prob (nth n Ql 0) (nth n Qs 0) (nth n Z 0)
    - normal_log_prob (nth n Pl 0) (nth n Ps 0) (nth n Z 0)).
End values.

(** The analytic KL divergence of N(mq, sq) from N(mp, sp), the closed
    form the modules do not use. *)
Definition closed_form_kl (mq sq mp sp : R) : R :=
  ln (sp / sq) + (sq ^ 2 + (mq - mp) ^ 2) / (2 * sp ^ 2) - 1 / 2.

(** *** Epoch records *)

(** Dictionary [o] holds under [key] a 0-dimensional tensor of value
    [v]. *)
Definition metric (w : World) (o : gmap string value) (key : string) (v : R)
  : Prop :=
  exists t, o !! key = Some (VTensor t) /\ sizes t = [] /\ stored w t [v].

(** The log record of result [res] holds a scalar of value [v] under
    [key]. *)
Definition logged (w : World) (res : gmap string value) (key : string) (v : R)
  : Prop :=
  exists d t, res !! "log" = Some (VDict d) /\ d !! key = Some t /\
              sizes t = [] /\ stored w t [v].

(** The arithmetic mean of a list of values. *)
Definition average (vs : list R) : R := Rsum vs / INR (length vs).

(** The three metrics of per-batch records. *)
Definition losses (recs : list (R * R * R)) : list R := map (fun r => r.1.1) recs.
Definition recons (recs : list (R * R * R)) : list R := map (fun r => r.1.2) recs.
Definition kls (recs : list (R * R * R)) : list R := map (fun r => r.2) recs.

(** Dictionary [o] is a per-batch record of a validation (a test)
    pass, holding the scalars [rec] = (loss, recon loss, KL). *)
Definition val_record (w : World) (o : gmap string value) (rec : R * R * R)
  : Prop :=
  metric w o "val_loss" rec.1.1 /\ metric w o "val_recon_loss" rec.1.2 /\
  metric w o "val_kl_div" rec.2.

Definition test_record (w : World) (o : gmap string value) (rec : R * R * R)
  : Prop :=
  metric w o "test_loss" rec.1.1 /\ metric w o "test_recon_loss" rec.1.2 /\
  metric w o "test_kl_div" rec.2.

End Values.

(** ** The tensor library on binary32 elements

    The same operations with the elements the modules run on:
    binary32 numbers, every operation rounded to nearest, ties to
    even.  Tensors are values here, sizes and row-major elements: the
    modules update no tensor in place, so that aliasing has no part
    in the values they compute. *)

Module F32.

(** *** binary32 numbers *)

Definition float32 : Set := spec_float.
Definition prec : Z := 24.
Definition emax : Z := 128.

Definition add32 : float32 -> float32 -> float32 := SFadd prec emax.
Definition sub32 : float32 -> float32 -> float32 := SFsub prec emax.
Definition mul32 : float32 -> float32 -> float32 := SFmul prec emax.
Definition div32 : float32 -> float32 -> float32 := SFdiv prec emax.
Definition neg32 : float32 -> float32 := SFopp.
Definition ltb32 : float32 -> float32 -> bool := SFltb.
Definition leb32 : float32 -> float32 -> bool := SFleb.
Definition eqb32 : float32 -> float32 -> bool := SFeqb.

(** The binary32 number nearest to an integer. *)
Definition of_Z (n : Z) : float32 := binary_normalize prec emax n 0 false.

(** The binary32 number nearest to a ratio of integers, as the
    literal [n/d] denotes when it is a ratio of small integers. *)
Definition ratio (n d : Z) : float32 := div32 (of_Z n) (of_Z d).

Definition zero : float32 := S754_zero false.
Definition one : float32 := of_Z 1.
Definition two : float32 := of_Z 2.

(** [std::max32] *)
Definition max32 (a b : float32) : float32 := if ltb32 a b then b else a.

(** A number of the format: its mantissa and exponent are in range
    and in canonical form. *)
Definition valid (x : float32) : bool := valid_binary prec emax x.

(** A mantissa with nothing shifted out of it. *)
Definition exact_record (m : Z) : shr_record :=
  {| shr_m := m; shr_r := false; shr_s := false |}.

(** A number that is neither infinite nor [nan]. *)
Definition finite (x : float32) : bool :=
  match x with
  | S754_zero _ | S754_finite _ _ _ => true
  | _ => false
  end.

(** The real number a finite binary32 number denotes. *)
Definition to_R (x : float32) : R :=
  match x with
  | S754_finite s m e =>
      ((if s then -1 else 1) * IZR (Zpos m) * powerRZ 2 e)%R
  | _ => 0%R
  end.

(** Where [f], in [0,1), lies between 0 and 1. *)
Definition location_of (f : R) : location :=
  if Req_dec_T f 0 then loc_Exact
  else if Rlt_dec f (1 / 2) then loc_Inexact Lt
  else if Req_dec_T f (1 / 2) then loc_Inexact Eq
  else loc_Inexact Gt.

(** The binary32 number nearest to a real number, ties to even: the
    real is cut at the weight 2^-149 of the smallest binary32 number,
    and the integer part, with the position of the rest, is rounded. *)
Definition rnd (r : R) : float32 :=
  let a := (Rabs r * 2 ^ 149)%R in
  binary_round_aux prec emax (bool_decide (r < 0)%R) (Int_part a) (-149)
                   (location_of (frac_part a)).

(** [exp] and [log] on one element, correctly rounded. *)
Definition exp32 (x : float32) : float32 :=
  match x with
  | S754_nan => S754_nan
  | S754_infinity true => zero
  | S754_infinity false => x
  | _ => rnd (Rtrigo_def.exp (to_R x))
  end.

Definition log32 (x : float32) : float32 :=
  match x with
  | S754_nan => S754_nan
  | S754_zero _ => S754_infinity true
  | S754_infinity false => x
  | S754_infinity true | S754_finite true _ _ => S754_nan
  | S754_finite false _ _ => rnd (ln (to_R x))
  end.

(** The sum of a list, accumulated in binary32 from the left.  The
    library may add in another order; two numbers, and three equal
    ones, have the same sum in every order. *)
Definition fsum (l : list float32) : float32 := foldl add32 zero l.

(** The logarithm of the binary cross-entropy, clamped below at -100. *)
Definition clamp_log (v : float32) : float32 := max32 (log32 v) (of_Z (-100)).

Definition bce (p y : float32) : float32 :=
  sub32 (mul32 (sub32 y one) (clamp_log (sub32 one p))) (mul32 y (clamp_log p)).

(** [math.log(math.sqrt(2 * math.pi))], a double, as the binary32
    number it becomes in an operation with a binary32 tensor. *)
Definition log_sqrt_2pi : float32 := S754_finite false 15417230 (-24).

(** [Normal.log_prob] at one element. *)
Definition normal_log_prob (m s v : float32) : float32 :=
  let d := sub32 v m in
  sub32 (sub32 (div32 (neg32 (mul32 d d)) (mul32 two (mul32 s s))) (log32 s)) log_sqrt_2pi.

(** [Normal.rsample] at one element. *)
Definition reparam (m s eps : float32) : float32 := add32 m (mul32 eps s).

(** *** Program state *)

Record tensor := Tensor { sizes : list nat; data : list float32 }.

Record Generator := MkGenerator { stream : nat -> float32; offset : nat }.

(** The state of a run: the generator, and the arguments of the
    calls of [Normal] so far (kept only to state what the
    distributions were constructed from). *)
Record World := MkWorld {
  rng : Generator;
  handed : list (tensor * tensor) }.

Definition M (A : Type) : Type := World -> outcome A * World.

Definition ret {A} (a : A) : M A := fun w => (Ok a, w).

Definition bind {A B} (m : M A) (f : A -> M B) : M B :=
  fun w =>
    match m w with
    | (Ok a, w') => f a w'
    | (Raise e, w') => (Raise e, w')
    | (Unmodelled, w') => (Unmodelled, w')
    end.

Definition raise {A} (e : exn) : M A := fun w => (Raise e, w).
Definition unmodelled {A} : M A := fun w => (Unmodelled, w).
Definition lift {A} (o : outcome A) : M A := fun w => (o, w).

#[global] Instance M_ret : MRet M := @ret.
#[global] Instance M_bind : MBind M := fun A B f m => bind m f.

Definition noise (n : nat) (g : Generator) : list float32 :=
  map (fun i => stream g (offset g + i)%nat) (seq 0 n).

Definition advance (n : nat) (g : Generator) : Generator :=
  MkGenerator (stream g) (offset g + n).

Definition standard_normal (n : nat) : M (list float32) :=
  fun w => (Ok (noise n (rng w)), MkWorld (advance n (rng w)) (handed w)).

(** [m] calls no [Normal], however it ends. *)
Definition silent {A} (m : M A) : Prop := forall w, handed (m w).2 = handed w.

(** *** Operations *)

Definition map1 (f : float32 -> float32) (t : tensor) : M tensor :=
  mret (Tensor (sizes t) (map f (data t))).

(** Elementwise binary operations, on operands of equal sizes; other
    sizes broadcast or raise in the library and are left unmodelled. *)
Definition map2 (f : float32 -> float32 -> float32) (a b : tensor)
  : M tensor :=
  if decide (sizes a = sizes b)
  then mret (Tensor (sizes a) (zip_with f (data a) (data b)))
  else unmodelled.

Definition div_scalar (t : tensor) (c : float32) : M tensor :=
  map1 (fun v => div32 v c) t.

Definition exp (t : tensor) : M tensor := map1 exp32 t.

Definition zeros_like (t : tensor) : M tensor := map1 (fun _ => zero) t.

Definition ones_like (t : tensor) : M tensor := map1 (fun _ => one) t.

Definition add (a b : tensor) : M tensor := map2 add32 a b.

Definition sub (a b : tensor) : M tensor := map2 sub32 a b.

(** [t.size(d)] *)
Definition size (t : tensor) (d : nat) : M nat :=
  match sizes t !! d with
  | Some n => mret n
  | None => raise IndexError
  end.

(** [t.view(shape)] *)
Definition view (t : tensor) (shape : list Z) : M tensor :=
  match Torch.infer_size shape (Torch.numel (sizes t)) with
  | Some s => mret (Tensor s (data t))
  | None => raise RuntimeError
  end.

(** Sum over dimension [d] of row-major elements [e] of sizes [s]. *)
Definition sum_elems (s : list nat) (d : nat) (e : list float32)
  : list float32 :=
  let outer := Torch.numel (take d s) in
  let k := nth d s 1%nat in
  let inner := Torch.numel (drop (S d) s) in
  o ← seq 0 outer;
  i ← seq 0 inner;
  [fsum (map (fun j => nth ((o * k + j) * inner + i) e zero) (seq 0 k))].

(** [t.sum(dim=dim)] *)
Definition sum (t : tensor) (dim : Z) : M tensor :=
  d ← lift (Torch.normalize_dim (length (sizes t)) dim);
  mret (Tensor (take d (sizes t) ++ drop (S d) (sizes t))
               (sum_elems (sizes t) d (data t))).

(** [t.mean()]: the sum divided by the number of elements, [nan] on
    no elements. *)
Definition mean (t : tensor) : M tensor :=
  mret (Tensor [] [div32 (fsum (data t))
                       (of_Z (Z.of_nat (Torch.numel (sizes t))))]).

(** [F.binary_cross_entropy(input, target, reduction='none')] *)
Definition binary_cross_entropy (input target : tensor) : M tensor :=
  if decide (sizes target = sizes input) then
    if forallb (fun v => leb32 zero v && leb32 v one) (data input)
    then mret (Tensor (sizes input) (zip_with bce (data input) (data target)))
    else raise RuntimeError
  else raise ValueError.

(** *** torch.distributions.normal.Normal *)

Record Distribution := MkNormal { loc : tensor; scale : tensor }.

Definition note_handed (loc scale : tensor) : M unit :=
  fun w => (Ok (), MkWorld (rng w) (handed w ++ [(loc, scale)])).

(** [Normal(loc, scale)]; parameters of different sizes broadcast
    and are left unmodelled. *)
Definition Normal (loc scale : tensor) : M Distribution :=
  _ ← note_handed loc scale;
  if decide (sizes loc = sizes scale)
  then mret (MkNormal loc scale)
  else unmodelled.

(** [d.rsample()] *)
Definition rsample (d : Distribution) : M tensor :=
  eps ← standard_normal (Torch.numel (sizes (loc d)));
  mret (Tensor (sizes (loc d))
          (zip_with (fun ms e => reparam ms.1 ms.2 e)
                    (zip (data (loc d)) (data (scale d))) eps)).

(** [d.log_prob(value)] *)
Definition log_prob (d : Distribution) (value : tensor) : M tensor :=
  if decide (sizes value = sizes (loc d)) then
    mret (Tensor (sizes value)
            (zip_with (fun ms x => normal_log_prob ms.1 ms.2 x)
                      (zip (data (loc d)) (data (scale d))) (data value)))
  else unmodelled.

(** *** Result dictionaries *)

Inductive value :=
| VTensor (t : tensor)
| VDict (d : gmap string tensor).

(** [d[key]] *)
Definition getitem (d : gmap string value) (key : string) : M value :=
  match d !! key with
  | Some v => mret v
  | None => raise KeyError
  end.

(** A 0-dimensional tensor. *)
Definition scalar (v : float32) : tensor := Tensor [] [v].

(** Dictionary [o] holds under [key] a 0-dimensional tensor of value
    [v]. *)
Definition holds (o : gmap string value) (key : string) (v : float32) : Prop :=
  o !! key = Some (VTensor (scalar v)).

(** The mean of [n] copies of [v], as [mean] computes it. *)
Definition mean_of_copies (n : nat) (v : float32) : float32 :=
  div32 (fsum (replicate n v)) (of_Z (Z.of_nat n)).

Definition as_tensor (v : value) : option tensor :=
  match v with
  | VTensor t => Some t
  | VDict _ => None
  end.

(** [torch.stack(vs)] along a new first dimension: the items must be
    tensors, at least one, of the same sizes. *)
Definition stack (vs : list value) : M tensor :=
  match mapM as_tensor vs with
  | None => raise TypeError
  | Some [] => raise RuntimeError
  | Some (t0 :: ts) =>
      if decide (Forall (fun t => sizes t = sizes t0) ts)
      then mret (Tensor (S (length ts) :: sizes t0)
                        (concat (map data (t0 :: ts))))
      else raise RuntimeError
  end.

End F32.

(** ** The step and the epoch aggregation on binary32 tensors

    The two files agree on these methods, which are embedded once. *)

Module BasicVaeF32.
Import F32.

Section BasicVAE.
Variable encoder : tensor -> outcome (tensor * tensor).
Variable decoder : tensor -> outcome tensor.

Definition get_prior (z_mu z_std : tensor) : M Distribution :=
  zeros ← zeros_like z_mu;
  ones ← ones_like z_std;
  P ← Normal zeros ones;
  mret P.

Definition get_approx_posterior (z_mu z_std : tensor) : M Distribution :=
  Q ← Normal z_mu z_std;
  mret Q.

Definition forward (z : tensor) : M tensor := lift (decoder z).

Definition elbo_loss (x : tensor) (P Q : Distribution)
  : M (tensor * tensor * tensor * tensor) :=
  z ← rsample Q;
  pxz ← forward z;
  recon_loss ← binary_cross_entropy pxz x;
  recon_loss ← sum recon_loss (-1);
  log_qz ← log_prob Q z;
  log_pz ← log_prob P z;
  diff ← sub log_qz log_pz;
  kl_div ← sum diff 1;
  loss ← add recon_loss kl_div;
  loss ← mean loss;
  recon_loss ← mean recon_loss;
  kl_div ← mean kl_div;
  mret (loss, recon_loss, kl_div, pxz).

Definition _run_step (batch : tensor * tensor)
  : M (tensor * tensor * tensor * tensor) :=
  let '(x, _) := batch in
  '(z_mu, z_log_var) ← lift (encoder x);
  half ← div_scalar z_log_var two;
  z_std ← exp half;
  P ← get_prior z_mu z_std;
  Q ← get_approx_posterior z_mu z_std;
  n ← size x 0;
  x ← view x [Z.of_nat n; (-1)%Z];
  '(loss, recon_loss, kl_div, pxz) ← elbo_loss x P Q;
  mret (loss, recon_loss, kl_div, pxz).

Definition validation_epoch_end (outputs : list (gmap string value))
  : M (gmap string value) :=
  vs ← mapM (fun x => getitem x "val_loss") outputs;
  st ← stack vs;
  avg_loss ← mean st;
  vs ← mapM (fun x => getitem x "val_recon_loss") outputs;
  st ← stack vs;
  recon_loss ← mean st;
  vs ← mapM (fun x => getitem x "val_kl_div") outputs;
  st ← stack vs;
  kl_loss ← mean st;
  let tensorboard_logs : gmap string tensor :=
    <["val_kl_loss" := kl_loss]>
      (<["val_recon_loss" := recon_loss]>
         (<["val_elbo_loss" := avg_loss]> ∅)) in
  mret (<["log" := VDict tensorboard_logs]>
          (<["avg_val_loss" := VTensor avg_loss]> ∅)).

Definition test_epoch_end (outputs : list (gmap string value))
  : M (gmap string value) :=
  vs ← mapM (fun x => getitem x "test_loss") outputs;
  st ← stack vs;
  avg_loss ← mean st;
  vs ← mapM (fun x => getitem x "test_recon_loss") outputs;
  st ← stack vs;
  recon_loss ← mean st;
  vs ← mapM (fun x => getitem x "test_kl_div") outputs;
  st ← stack vs;
  kl_loss ← mean st;
  let tensorboard_logs : gmap string tensor :=
    <["test_kl_loss" := kl_loss]>
      (<["test_recon_loss" := recon_loss]>
         (<["test_elbo_loss" := avg_loss]> ∅)) in
  mret (<["log" := VDict tensorboard_logs]>
          (<["avg_test_loss" := VTensor avg_loss]> ∅)).

End BasicVAE.

End BasicVaeF32.

(** ** Example stores *)

Module Examples.
Import Torch.
Local Open Scope R_scope.

(** A small store for examples: one sample, one pixel of value 1/2,
    one latent dimension; storages 1 and 2 hold a zero mean and a unit
    standard deviation. *)
Definition w_ex : World :=
  MkWorld (MkGenerator (fun _ => 0) 0) [[1 / 2]; [0]; [1]] [].
Definition x_ex : tensor := Tensor 0 [1; 1]%nat.
Definition N01_ex : Distribution :=
  MkNormal (Tensor 1 [1; 1]%nat) (Tensor 2 [1; 1]%nat).
Definition decoder_ex : tdata -> outcome tdata :=
  fun _ => Ok ([1; 1]%nat, [1 / 2]).

(** A store with a batch of two samples of two pixels (storage 0),
    the means 1, 0, -1, 2 and the scales 1, 2, 1, 1 of a posterior on
    two latent dimensions (storages 1 and 2), and the zeros and ones of
    the prior (storages 3 and 4).  The generator draws 1, 2, 3, 4, ...;
    the decoder returns the reconstruction 1/2, 1/4, 3/4, 1/2. *)
Definition w_q : World :=
  MkWorld (MkGenerator (fun n => INR (S n)) 0)
          [[0; 1; 1 / 2; 1 / 4]; [1; 0; -1; 2]; [1; 2; 1; 1];
           [0; 0; 0; 0]; [1; 1; 1; 1]] [].
Definition x_q : tensor := Tensor 0 [2; 2]%nat.
Definition Q_q : Distribution :=
  MkNormal (Tensor 1 [2; 2]%nat) (Tensor 2 [2; 2]%nat).
Definition P_q : Distribution :=
  MkNormal (Tensor 3 [2; 2]%nat) (Tensor 4 [2; 2]%nat).
Definition decoder_q : tdata -> outcome tdata :=
  fun _ => Ok ([2; 2]%nat, [1 / 2; 1 / 4; 3 / 4; 1 / 2]).

(** The same batch as two 1x2 images (storage 0) with their labels
    3 and 7 (storage 1), and an encoder returning the means
    1, 0, -1, 2 and the log-variances 0, 2, 0, -2. *)
Definition w_img : World :=
  MkWorld (MkGenerator (fun n => INR (S n)) 0)
          [[0; 1; 1 / 2; 1 / 4]; [3; 7]] [].
Definition image_q : tensor := Tensor 0 [2; 1; 2]%nat.
Definition label_q : tensor := Tensor 1 [2]%nat.
Definition encoder_q : tdata -> outcome (tdata * tdata) :=
  fun _ => Ok (([2; 2]%nat, [1; 0; -1; 2]), ([2; 2]%nat, [0; 2; 0; -2])).

(** Per-batch records of a validation and of a test pass, on a store
    of three scalars. *)
Definition w_rec : World :=
  MkWorld (MkGenerator (fun _ => 0) 0) [[3]; [2]; [1]] [].
Definition val_rec : gmap string value :=
  <["val_kl_div" := VTensor (Tensor 2 [])]>
    (<["val_recon_loss" := VTensor (Tensor 1 [])]>
       (<["val_loss" := VTensor (Tensor 0 [])]> ∅)).
Definition test_rec : gmap string value :=
  <["test_kl_div" := VTensor (Tensor 2 [])]>
    (<["test_recon_loss" := VTensor (Tensor 1 [])]>
       (<["test_loss" := VTensor (Tensor 0 [])]> ∅)).


(** Stub networks: the encoder returns mean 0 and log-variance 0 for
    4 samples and 2 latent dimensions, the decoder 1/2 for each of the
    16 pixels of each sample. *)
Definition encoder_stub : tdata -> outcome (tdata * tdata) :=
  fun _ => Ok (([4; 2]%nat, replicate 8 0), ([4; 2]%nat, replicate 8 0)).
Definition decoder_stub : tdata -> outcome tdata :=
  fun _ => Ok ([4; 16]%nat, replicate 64 (1 / 2)).

(** A batch of four 4x4 images with all pixels 1/4, and its labels. *)
Definition w_step : World :=
  MkWorld (MkGenerator (fun _ => 0) 0) [replicate 64 (1 / 4); replicate 4 0] [].
Definition x_step : tensor := Tensor 0 [4; 1; 4; 4]%nat.
Definition y_step : tensor := Tensor 1 [4]%nat.

(** Hyperparameters as the argument parser of the modules produces
    them, with a batch size of 64. *)
Definition hparams_ex : object :=
  Some (<["batch_size" := 64%Z]>
          (<["input_height" := 28%Z]>
             (<["input_width" := 28%Z]>
                (<["latent_dim" := 32%Z]>
                   (<["hidden_dim" := 128%Z]> ∅))))).

(** An empty batch: no image, no label. *)
Definition w_empty : World :=
  MkWorld (MkGenerator (fun _ => 0) 0) [[]; []] [].
Definition x_empty : tensor := Tensor 0 [0; 1; 4; 4]%nat.
Definition y_empty : tensor := Tensor 1 [0]%nat.
Definition encoder_empty : tdata -> outcome (tdata * tdata) :=
  fun _ => Ok (([0; 2]%nat, []), ([0; 2]%nat, [])).

End Examples.

(** ** Example runs on binary32 tensors *)

Module Examples32.
Import F32.
Local Open Scope Z_scope.

(** A batch of two images of 2 pixels, with the pixel values 255,
    204, 102 and 153 of 255; a prior N(0,1) and a posterior of unit
    scale on two latent dimensions; noise of a few tenths; a decoder
    whose output is 0 at every pixel. *)
Definition x32 : tensor :=
  Tensor [2; 2]%nat [ratio 255 255; ratio 204 255; ratio 102 255; ratio 153 255].
Definition prior32 : Distribution :=
  MkNormal (Tensor [2; 2]%nat [zero; zero; zero; zero])
           (Tensor [2; 2]%nat [one; one; one; one]).
Definition posterior32 : Distribution :=
  MkNormal (Tensor [2; 2]%nat [ratio 10 10; ratio (-3) 10; ratio 2 10; ratio 5 10])
           (Tensor [2; 2]%nat [one; one; one; one]).
Definition noise32 : list float32 :=
  [ratio 7 10; ratio (-1) 10; ratio 3 10; ratio 5 10].
Definition w32 : World :=
  MkWorld (MkGenerator (fun n => nth n noise32 zero) 0) [].
Definition decoder_dark : tensor -> outcome tensor :=
  fun _ => Ok (Tensor [2; 2]%nat [zero; zero; zero; zero]).

(** One image of 2x2 pixels with its label, and encoders of one
    sample and two latent dimensions: one returns the log-variances
    -2 and 4, the other -400 and 0. *)
Definition image32 : tensor :=
  Tensor [1; 1; 2; 2]%nat [ratio 255 255; ratio 204 255; ratio 102 255; ratio 153 255].
Definition label32 : tensor := Tensor [1]%nat [of_Z 7].
Definition encoder_mild : tensor -> outcome (tensor * tensor) :=
  fun _ => Ok (Tensor [1; 2]%nat [ratio 1 2; ratio (-3) 10],
               Tensor [1; 2]%nat [of_Z (-2); of_Z 4]).
Definition encoder_cold : tensor -> outcome (tensor * tensor) :=
  fun _ => Ok (Tensor [1; 2]%nat [ratio 1 2; ratio (-3) 10],
               Tensor [1; 2]%nat [of_Z (-400); zero]).
Definition decoder_1x4 : tensor -> outcome tensor :=
  fun _ => Ok (Tensor [1; 4]%nat [zero; one; zero; one]).

(** Per-batch records of a validation and of a test pass: the loss
    15902298 * 2^-18 (about 60.66), the reconstruction loss 60 and
    the KL term 0.625. *)
Definition loss32 : float32 := S754_finite false 15902298 (-18).
Definition val_rec32 : gmap string value :=
  <["val_kl_div" := VTensor (scalar (ratio 5 8))]>
    (<["val_recon_loss" := VTensor (scalar (of_Z 60))]>
       (<["val_loss" := VTensor (scalar loss32)]> ∅)).
Definition test_rec32 : gmap string value :=
  <["test_kl_div" := VTensor (scalar (ratio 5 8))]>
    (<["test_recon_loss" := VTensor (scalar (of_Z 60))]>
       (<["test_loss" := VTensor (scalar loss32)]> ∅)).

End Examples32.

(** ** Bounds on logarithms *)

Module RealFacts.
Local Open Scope R_scope.

Lemma exp_double_lb (x c c' : R) :
  0 <= c -> c <= exp x -> c' <= c * c -> c' <= exp (2 * x).
Proof.
  intros Hc Hx Hc'. replace (2 * x) with (x + x) by lra.
  rewrite exp_plus. nra.
Qed.

(** Bounds on [ln 2], from [1 + x <= exp x] at a small [x] and eleven
    squarings, rounded down to fourteen decimals. *)
Lemma ln_2_lower : 11085 / 16000 < ln 2.
Proof.
  set (x := - (11085 / 16000) / 2048).
  assert (6551383 / 6553600 <= exp (1 * x)) as H0
    by (pose proof (exp_ineq1_le x); unfold x in *; rewrite Rmult_1_l; lra).
  assert (9993235397313 / 10000000000000 <= exp (2 * x)) as H1
    by (replace (2 * x) with (2 * (1 * x)) by lra;
        apply (exp_double_lb _ (6551383 / 6553600)); [lra | exact H0 | lra]).
  assert (99864753706109 / 100000000000000 <= exp (4 * x)) as H2
    by (replace (4 * x) with (2 * (2 * x)) by lra;
        apply (exp_double_lb _ (9993235397313 / 10000000000000)); [lra | exact H1 | lra]).
  assert (49864845163909 / 50000000000000 <= exp (8 * x)) as H3
    by (replace (8 * x) with (2 * (4 * x)) by lra;
        apply (exp_double_lb _ (99864753706109 / 100000000000000)); [lra | exact H2 | lra]).
  assert (12432513916103 / 12500000000000 <= exp (16 * x)) as H4
    by (replace (16 * x) with (2 * (8 * x)) by lra;
        apply (exp_double_lb _ (49864845163909 / 50000000000000)); [lra | exact H3 | lra]).
  assert (4946156872771 / 5000000000000 <= exp (32 * x)) as H5
    by (replace (32 * x) with (2 * (16 * x)) by lra;
        apply (exp_double_lb _ (12432513916103 / 12500000000000)); [lra | exact H4 | lra]).
  assert (97857871240239 / 100000000000000 <= exp (64 * x)) as H6
    by (replace (64 * x) with (2 * (32 * x)) by lra;
        apply (exp_double_lb _ (4946156872771 / 5000000000000)); [lra | exact H5 | lra]).
  assert (95761629636711 / 100000000000000 <= exp (128 * x)) as H7
    by (replace (128 * x) with (2 * (64 * x)) by lra;
        apply (exp_double_lb _ (97857871240239 / 100000000000000)); [lra | exact H6 | lra]).
  assert (45851448553393 / 50000000000000 <= exp (256 * x)) as H8
    by (replace (256 * x) with (2 * (128 * x)) by lra;
        apply (exp_double_lb _ (95761629636711 / 100000000000000)); [lra | exact H7 | lra]).
  assert (84094213377777 / 100000000000000 <= exp (512 * x)) as H9
    by (replace (512 * x) with (2 * (256 * x)) by lra;
        apply (exp_double_lb _ (45851448553393 / 50000000000000)); [lra | exact H8 | lra]).
  assert (7071836723627 / 10000000000000 <= exp (1024 * x)) as H10
    by (replace (1024 * x) with (2 * (512 * x)) by lra;
        apply (exp_double_lb _ (84094213377777 / 100000000000000)); [lra | exact H9 | lra]).
  assert (50010874645639 / 100000000000000 <= exp (2048 * x)) as H11
    by (replace (2048 * x) with (2 * (1024 * x)) by lra;
        apply (exp_double_lb _ (7071836723627 / 10000000000000)); [lra | exact H10 | lra]).
  replace (2048 * x) with (- (11085 / 16000)) in H11 by (unfold x; lra).
  clear H0 H1 H2 H3 H4 H5 H6 H7 H8 H9 H10.
  assert (exp (11085 / 16000) * exp (- (11085 / 16000)) = 1) as Hinv.
  { rewrite <- exp_plus. replace (11085 / 16000 + - (11085 / 16000)) with 0 by lra.
    apply exp_0. }
  pose proof (exp_pos (11085 / 16000)) as Hpos.
  assert (exp (11085 / 16000) < 2) as Hlt by nra.
  rewrite <- (ln_exp (11085 / 16000)). by apply ln_increasing.
Qed.

Lemma ln_2_upper : ln 2 < 11095 / 16000.
Proof.
  set (x := 11095 / 16000 / 2048).
  assert (6555819 / 6553600 <= exp (1 * x)) as H0
    by (pose proof (exp_ineq1_le x); unfold x in *; rewrite Rmult_1_l; lra).
  assert (100067729970349 / 100000000000000 <= exp (2 * x)) as H1
    by (replace (2 * x) with (2 * (1 * x)) by lra;
        apply (exp_double_lb _ (6555819 / 6553600)); [lra | exact H0 | lra]).
  assert (50067752907093 / 50000000000000 <= exp (4 * x)) as H2
    by (replace (4 * x) with (2 * (2 * x)) by lra;
        apply (exp_double_lb _ (100067729970349 / 100000000000000)); [lra | exact H1 | lra]).
  assert (25067798811657 / 25000000000000 <= exp (8 * x)) as H3
    by (replace (8 * x) with (2 * (4 * x)) by lra;
        apply (exp_double_lb _ (50067752907093 / 50000000000000)); [lra | exact H2 | lra]).
  assert (100543125961873 / 100000000000000 <= exp (16 * x)) as H4
    by (replace (16 * x) with (2 * (8 * x)) by lra;
        apply (exp_double_lb _ (25067798811657 / 25000000000000)); [lra | exact H3 | lra]).
  assert (2021784035637 / 2000000000000 <= exp (32 * x)) as H5
    by (replace (32 * x) with (2 * (16 * x)) by lra;
        apply (exp_double_lb _ (100543125961873 / 100000000000000)); [lra | exact H4 | lra]).
  assert (20438053433783 / 20000000000000 <= exp (64 * x)) as H6
    by (replace (64 * x) with (2 * (32 * x)) by lra;
        apply (exp_double_lb _ (2021784035637 / 2000000000000)); [lra | exact H5 | lra]).
  assert (52214253520271 / 50000000000000 <= exp (128 * x)) as H7
    by (replace (128 * x) with (2 * (64 * x)) by lra;
        apply (exp_double_lb _ (20438053433783 / 20000000000000)); [lra | exact H6 | lra]).
  assert (21810626165433 / 20000000000000 <= exp (256 * x)) as H8
    by (replace (256 * x) with (2 * (128 * x)) by lra;
        apply (exp_double_lb _ (52214253520271 / 50000000000000)); [lra | exact H7 | lra]).
  assert (118925853432067 / 100000000000000 <= exp (512 * x)) as H9
    by (replace (512 * x) with (2 * (256 * x)) by lra;
        apply (exp_double_lb _ (21810626165433 / 20000000000000)); [lra | exact H8 | lra]).
  assert (70716793072727 / 50000000000000 <= exp (1024 * x)) as H10
    by (replace (1024 * x) with (2 * (512 * x)) by lra;
        apply (exp_double_lb _ (118925853432067 / 100000000000000)); [lra | exact H9 | lra]).
  assert (40006918579927 / 20000000000000 <= exp (2048 * x)) as H11
    by (replace (2048 * x) with (2 * (1024 * x)) by lra;
        apply (exp_double_lb _ (70716793072727 / 50000000000000)); [lra | exact H10 | lra]).
  replace (2048 * x) with (11095 / 16000) in H11 by (unfold x; lra).
  rewrite <- (ln_exp (11095 / 16000)). apply ln_increasing; lra.
Qed.

Lemma ln_half : ln (1 / 2) = - ln 2.
Proof. replace (1 / 2) with (/ 2) by lra. apply ln_Rinv. lra. Qed.

End RealFacts.

(** ** Rounding to binary32 *)

Module RoundFacts.
Import F32.
Local Open Scope Z_scope.


Lemma digits2_size p : digits2_pos p = Pos.size p.
Proof. induction p; simpl; by rewrite ?IHp. Qed.

(** The number of digits brackets the number. *)
Lemma digits_bounds p :
  2 ^ (Zpos (digits2_pos p) - 1) <= Zpos p < 2 ^ Zpos (digits2_pos p).
Proof.
  rewrite digits2_size. split.
  - pose proof (Pos.size_le p) as H.
    assert (Zpos (2 ^ Pos.size p) <= Zpos p~0)%Z as H' by exact H.
    rewrite Pos2Z.inj_pow in H'.
    replace (Zpos (Pos.size p)) with (Z.succ (Zpos (Pos.size p) - 1)) in H' by lia.
    rewrite Z.pow_succ_r in H' by lia. lia.
  - pose proof (Pos.size_gt p) as H.
    assert (Zpos p < Zpos (2 ^ Pos.size p))%Z as H' by exact H.
    by rewrite Pos2Z.inj_pow in H'.
Qed.

Lemma iter_pos_nat {A} (f : A -> A) n x :
  SpecFloat.iter_pos f n x = Nat.iter (Pos.to_nat n) f x.
Proof.
  revert x. induction n as [n IH | n IH |]; intros x; cbn [SpecFloat.iter_pos].
  - rewrite !IH. rewrite Pos2Nat.inj_xI.
    replace (S (2 * Pos.to_nat n)) with (Pos.to_nat n + Pos.to_nat n + 1)%nat by lia.
    rewrite !Nat.iter_add. done.
  - rewrite !IH. rewrite Pos2Nat.inj_xO.
    replace (2 * Pos.to_nat n)%nat with (Pos.to_nat n + Pos.to_nat n)%nat by lia.
    by rewrite Nat.iter_add.
  - done.
Qed.

Lemma shr_1_m mrs : 0 <= shr_m mrs -> shr_m (shr_1 mrs) = shr_m mrs / 2.
Proof.
  destruct mrs as [m r s]. simpl. intros Hm.
  destruct m as [|[p|p|]|p]; simpl; try lia; try done.
  - apply Z.div_unique with (r := 1); lia.
  - apply Z.div_unique with (r := 0); lia.
Qed.

Lemma iter_shr_1_m n mrs :
  0 <= shr_m mrs ->
  shr_m (Nat.iter n shr_1 mrs) = shr_m mrs / 2 ^ Z.of_nat n.
Proof.
  intros Hm. induction n as [|n IH].
  - simpl. by rewrite Z.div_1_r.
  - simpl Nat.iter. rewrite shr_1_m.
    + rewrite IH. rewrite Nat2Z.inj_succ, Z.pow_succ_r by lia.
      rewrite Z.div_div by lia. f_equal. lia.
    + rewrite IH. apply Z.div_pos; lia.
Qed.

(** What a right shift does to the mantissa and the exponent. *)
Lemma shr_m_e mrs e n :
  0 <= shr_m mrs ->
  shr_m (shr mrs e n).1 = shr_m mrs / 2 ^ Z.max n 0 /\
  (shr mrs e n).2 = e + Z.max n 0.
Proof.
  intros Hm. destruct n as [|p|p]; simpl.
  - rewrite Z.div_1_r. split; [done | lia].
  - rewrite iter_pos_nat, iter_shr_1_m by done.
    rewrite positive_nat_Z. split; [done | lia].
  - rewrite Z.div_1_r. split; [done | lia].
Qed.

Lemma shr_record_of_loc_m m l : shr_m (shr_record_of_loc m l) = m.
Proof. by destruct l as [|[]]. Qed.

Lemma round_nearest_even_ge m l : m <= round_nearest_even m l <= m + 1.
Proof.
  destruct l as [|[]]; simpl; try lia. destruct (Z.even m); lia.
Qed.

(** A positive mantissa is shifted to a positive mantissa when its
    exponent is rounded up to the format. *)
Lemma shr_fexp_pos m e l :
  0 < m -> -149 <= e ->
  0 < shr_m (shr_fexp prec emax m e l).1 /\
  -149 <= (shr_fexp prec emax m e l).2.
Proof.
  intros Hm He. unfold shr_fexp.
  destruct (shr_m_e (shr_record_of_loc m l) e
              (SpecFloat.fexp prec emax (Zdigits2 m + e) - e)) as [H1 H2].
  { rewrite shr_record_of_loc_m. lia. }
  rewrite H1, H2, shr_record_of_loc_m. clear H1 H2.
  destruct m as [|p|p]; try lia. simpl Zdigits2.
  pose proof (digits_bounds p) as [Hlo _].
  set (d := Zpos (digits2_pos p)) in *.
  assert (0 < d) by (unfold d; lia).
  unfold SpecFloat.fexp, emin, prec, emax.
  set (n := Z.max (Z.max (d + e - 24) (3 - 128 - 24) - e) 0).
  assert (0 <= n <= d - 1) as Hn by (unfold n; lia).
  split; [|unfold n; lia].
  apply Z.div_str_pos. split; [apply Z.pow_pos_nonneg; lia|].
  etrans; [|exact Hlo]. apply Z.pow_le_mono_r; lia.
Qed.

(** Rounding a positive mantissa never gives a zero. *)
Lemma binary_round_aux_pos sx p e l :
  -149 <= e ->
  (exists m' e', binary_round_aux prec emax sx (Zpos p) e l
                 = S754_finite sx m' e') \/
  binary_round_aux prec emax sx (Zpos p) e l = S754_infinity sx.
Proof.
  intros He. unfold binary_round_aux.
  pose proof (shr_fexp_pos (Zpos p) e l) as H1.
  destruct (shr_fexp prec emax (Zpos p) e l) as [mrs' e'].
  simpl in H1. destruct H1 as [Hm1 He1]; [lia | done |].
  pose proof (round_nearest_even_ge (shr_m mrs') (loc_of_shr_record mrs')) as Hr.
  pose proof (shr_fexp_pos (round_nearest_even (shr_m mrs') (loc_of_shr_record mrs'))
                e' loc_Exact) as H2.
  destruct (shr_fexp prec emax _ e' loc_Exact) as [mrs'' e''].
  simpl in H2. destruct H2 as [Hm2 He2]; [lia | done |].
  destruct (shr_m mrs'') as [|m|m]; try lia.
  destruct (e'' <=? emax - prec); [left; eauto | by right].
Qed.


(** *** Exact results *)

Lemma digits_unique x d :
  2 ^ (d - 1) <= Zpos x < 2 ^ d -> Zpos (digits2_pos x) = d.
Proof.
  intros [Hlo Hhi]. pose proof (digits_bounds x) as [Hlo' Hhi'].
  set (d' := Zpos (digits2_pos x)) in *.
  assert (0 < d') by (unfold d'; lia).
  assert (0 < d).
  { destruct (Z.lt_trichotomy d 0) as [Hd | [-> | Hd]]; [| |done].
    - rewrite (Z.pow_neg_r 2 d) in Hhi by done. lia.
    - simpl in Hhi. lia. }
  destruct (Z.lt_trichotomy d' d) as [Hlt | [-> | Hgt]]; [|done|].
  - assert (2 ^ d' <= 2 ^ (d - 1)) by (apply Z.pow_le_mono_r; lia). lia.
  - assert (2 ^ d <= 2 ^ (d' - 1)) by (apply Z.pow_le_mono_r; lia). lia.
Qed.

Lemma Zdigits2_shift m k :
  0 <= k -> Zdigits2 (Zpos m * 2 ^ k) = Zpos (digits2_pos m) + k.
Proof.
  intros Hk. assert (0 < 2 ^ k) by (apply Z.pow_pos_nonneg; lia).
  destruct (Zpos m * 2 ^ k) as [|x|x] eqn:E; try lia.
  simpl. apply digits_unique. rewrite <- E.
  pose proof (digits_bounds m) as [Hlo Hhi].
  replace (Zpos (digits2_pos m) + k - 1) with (Zpos (digits2_pos m) - 1 + k) by lia.
  rewrite !Z.pow_add_r by lia. nia.
Qed.

Lemma iter_shr_1_exact k m :
  0 < m -> Nat.iter k shr_1 (exact_record (m * 2 ^ Z.of_nat k)) = exact_record m.
Proof.
  intros Hm. revert m Hm. induction k as [|k IH]; intros m Hm.
  - simpl. by rewrite Z.mul_1_r.
  - rewrite Nat.iter_succ_r.
    replace (m * 2 ^ Z.of_nat (S k)) with (2 * (m * 2 ^ Z.of_nat k))
      by (rewrite Nat2Z.inj_succ, Z.pow_succ_r by lia; lia).
    assert (0 < m * 2 ^ Z.of_nat k) as Hpos
      by (apply Z.mul_pos_pos; [done | apply Z.pow_pos_nonneg; lia]).
    destruct (m * 2 ^ Z.of_nat k) as [|x|x] eqn:E; try lia.
    change (shr_1 (exact_record (2 * Zpos x))) with (exact_record (Zpos x)).
    rewrite <- E. by apply IH.
Qed.

Lemma shr_exact m e k :
  0 < m -> 0 <= k -> shr (exact_record (m * 2 ^ k)) (e - k) k = (exact_record m, e).
Proof.
  intros Hm Hk. destruct k as [|p|p]; try lia.
  - simpl. rewrite Z.mul_1_r. f_equal. lia.
  - simpl shr. rewrite iter_pos_nat. rewrite <- (positive_nat_Z p) at 1.
    rewrite iter_shr_1_exact by done. f_equal. lia.
Qed.

(** A canonical mantissa with trailing zeros is rounded to itself. *)
Lemma binary_round_aux_exact s m e k :
  canonical_mantissa prec emax m e = true -> 0 <= k ->
  binary_round_aux prec emax s (Zpos m * 2 ^ k) (e - k) loc_Exact
  = if e <=? emax - prec then S754_finite s m e else S754_infinity s.
Proof.
  intros Hc Hk. unfold canonical_mantissa in Hc. apply Z.eqb_eq in Hc.
  unfold binary_round_aux, shr_fexp.
  rewrite Zdigits2_shift by done.
  replace (Zpos (digits2_pos m) + k + (e - k)) with (Zpos (digits2_pos m) + e) by lia.
  rewrite Hc. replace (e - (e - k)) with k by lia.
  change (shr_record_of_loc (Zpos m * 2 ^ k) loc_Exact) with (exact_record (Zpos m * 2 ^ k)).
  rewrite shr_exact by lia. simpl.
  rewrite Hc, Z.sub_diag. simpl. done.
Qed.

Lemma bounded_canonical m e :
  bounded prec emax m e = true ->
  canonical_mantissa prec emax m e = true /\ e <= emax - prec.
Proof.
  unfold bounded. intros [H1 H2]%andb_prop. split; [done | by apply Z.leb_le].
Qed.

Lemma div_eucl_exact a b :
  0 < b -> Z.div_eucl (a * b) b = (a, 0).
Proof.
  intros Hb. pose proof (Z_div_mod (a * b) b ltac:(lia)) as H.
  destruct (Z.div_eucl (a * b) b) as [q r]. destruct H as [H1 H2].
  assert (q = a) by nia. subst. f_equal. lia.
Qed.

(** Division by a power of two [2^j] that the format can follow. *)
Lemma div_pow2 s m e j m' k :
  Zpos m = Zpos m' * 2 ^ k -> 0 <= k <= 22 ->
  bounded prec emax m' (e - j + k) = true ->
  SFdiv prec emax (S754_finite s m e) (S754_finite false 8388608 (j - 23))
  = S754_finite s m' (e - j + k).
Proof.
  intros Hm Hk [Hc He]%bounded_canonical.
  set (e' := e - j + k) in *.
  unfold SFdiv, SFdiv_core_binary.
  change (Zdigits2 (Zpos 8388608)) with 24.
  rewrite Hm, Zdigits2_shift by lia. rewrite <- Hm.
  set (d := Zpos (digits2_pos m')) in *.
  replace (d + k + e - (24 + (j - 23))) with (d + e' - 1) by (unfold e'; lia).
  assert (SpecFloat.fexp prec emax (d + e') = e') as Hf
    by (apply Z.eqb_eq; exact Hc).
  set (F := SpecFloat.fexp prec emax (d + e' - 1)).
  assert (e' - 1 <= F <= e') as HF.
  { unfold F. unfold SpecFloat.fexp in *. lia. }
  replace (e - (j - 23)) with (e' - k + 23) by (unfold e'; lia).
  rewrite Z.min_l by lia.
  destruct (e' - k + 23 - F) as [|sh|sh] eqn:Esh; try lia.
  rewrite Z.shiftl_mul_pow2 by lia. rewrite Hm.
  replace (Zpos m' * 2 ^ k * 2 ^ Zpos sh)
    with (Zpos m' * 2 ^ (e' - F) * 8388608).
  2:{ rewrite <- !Z.mul_assoc. f_equal.
      change 8388608 with (2 ^ 23). rewrite <- !Z.pow_add_r by lia.
      f_equal. lia. }
  rewrite div_eucl_exact by lia.
  change (new_location 8388608 0) with loc_Exact.
  replace F with (e' - (e' - F)) at 2 by lia.
  rewrite binary_round_aux_exact by (done || lia).
  rewrite (proj2 (Z.leb_le _ _)) by done. by destruct s.
Qed.

(** The sum of two copies of a number. *)
Lemma add_self s m e m' k :
  bounded prec emax m e = true ->
  Zpos m~0 = Zpos m' * 2 ^ k -> 0 <= k ->
  canonical_mantissa prec emax m' (e + k) = true ->
  SFadd prec emax (S754_finite s m e) (S754_finite s m e)
  = if e + k <=? emax - prec then S754_finite s m' (e + k)
    else S754_infinity s.
Proof.
  intros [Hc He]%bounded_canonical Hm Hk Hc'.
  unfold SFadd. rewrite Z.min_id.
  unfold shl_align at 1 2. rewrite Z.sub_diag. simpl fst.
  assert (SpecFloat.fexp prec emax (Zpos (digits2_pos m) + e) = e) as Hf
    by (apply Z.eqb_eq; exact Hc).
  assert (binary_round prec emax s m~0 e
          = if e + k <=? emax - prec then S754_finite s m' (e + k)
            else S754_infinity s) as H.
  { unfold binary_round, shl_align.
    change (digits2_pos m~0) with (Pos.succ (digits2_pos m)).
    destruct (SpecFloat.fexp prec emax (Zpos (Pos.succ (digits2_pos m)) + e) - e)
      as [|p|p] eqn:E.
    - rewrite Hm. replace e with (e + k - k) at 1 by lia.
      by apply binary_round_aux_exact.
    - rewrite Hm. replace e with (e + k - k) at 1 by lia.
      by apply binary_round_aux_exact.
    - unfold SpecFloat.fexp in *. lia. }
  destruct s; simpl; rewrite ?Pos.add_diag; exact H.
Qed.

End RoundFacts.

(** ** The exponential and the logarithm on binary32 *)

Module ExpFacts.
Import F32 RoundFacts.
Local Open Scope R_scope.

Lemma to_R_one : to_R one = 1.
Proof. unfold to_R, one. simpl. lra. Qed.

Lemma rnd_0 : rnd 0 = zero.
Proof.
  unfold rnd. rewrite Rabs_R0, Rmult_0_l.
  assert (Int_part 0 = 0%Z) as ->
    by (symmetry; apply Int_part_spec; simpl; lra).
  rewrite fp_R0. unfold location_of.
  destruct (Req_dec_T 0 0) as [_|H]; [|by destruct H].
  rewrite bool_decide_eq_false_2 by lra. reflexivity.
Qed.

Lemma log32_one : log32 one = zero.
Proof.
  change (log32 one) with (rnd (ln (to_R one))).
  by rewrite to_R_one, ln_1, rnd_0.
Qed.

Lemma rnd_1 : rnd 1 = one.
Proof.
  unfold rnd. rewrite Rabs_R1, Rmult_1_l.
  rewrite bool_decide_eq_false_2 by lra.
  destruct (Int_part_frac_part_spec (2 ^ 149) (2 ^ 149) 0) as [<- <-].
  - lra.
  - rewrite Rplus_0_r. change (2 ^ 149)%Z with (2 ^ Z.of_nat 149)%Z.
    by rewrite <- pow_IZR.
  - unfold location_of. destruct (Req_dec_T 0 0) as [_|H]; [|by destruct H].
    vm_compute. reflexivity.
Qed.

Lemma exp32_zero : exp32 zero = one.
Proof.
  change (exp32 zero) with (rnd (Rtrigo_def.exp 0)). by rewrite exp_0, rnd_1.
Qed.

Lemma exp_INR (n : nat) (y : R) :
  Rtrigo_def.exp (INR n * y) = Rtrigo_def.exp y ^ n.
Proof.
  induction n as [|n IH].
  - simpl. rewrite Rmult_0_l. apply exp_0.
  - rewrite S_INR, Rmult_plus_distr_r, Rmult_1_l, exp_plus, IH. simpl. ring.
Qed.

Lemma pow2_pos (n : nat) : 0 < 2 ^ n.
Proof. apply pow_lt. lra. Qed.

(** [exp] at -103 and above is at least the smallest binary32
    number, and at -105 and below less than half of it. *)
Lemma exp_above (y : R) : -103 <= y -> 1 <= Rtrigo_def.exp y * 2 ^ 149.
Proof.
  intros Hy.
  assert (Rtrigo_def.exp 103 <= 2 ^ 149) as H.
  { rewrite <- (exp_ln 2) at 1 by lra. rewrite <- exp_INR.
    destruct (Rle_lt_or_eq_dec 103 (INR 149 * ln 2)) as [Hlt | Heq].
    - pose proof RealFacts.ln_2_lower. 
      replace (INR 149) with 149 by (simpl; lra). lra.
    - left. by apply exp_increasing.
    - right. by rewrite Heq. }
  assert (Rtrigo_def.exp (-103) <= Rtrigo_def.exp y) as H'.
  { destruct Hy as [Hy | <-]; [left; by apply exp_increasing | lra]. }
  assert (Rtrigo_def.exp 103 * Rtrigo_def.exp (-103) = 1) as Hinv.
  { rewrite <- exp_plus. replace (103 + -103) with 0 by lra. apply exp_0. }
  pose proof (exp_pos 103). pose proof (exp_pos (-103)). pose proof (exp_pos y).
  pose proof (pow2_pos 149). nra.
Qed.

Lemma exp_below (y : R) :
  y <= -105 -> 0 < Rtrigo_def.exp y * 2 ^ 149 < 1 / 2.
Proof.
  intros Hy.
  assert (2 ^ 150 < Rtrigo_def.exp 105) as H.
  { rewrite <- (exp_ln 2) at 1 by lra. rewrite <- exp_INR.
    apply exp_increasing. pose proof RealFacts.ln_2_upper.
    replace (INR 150) with 150 by (simpl; lra). lra. }
  assert (Rtrigo_def.exp y <= Rtrigo_def.exp (-105)) as H'.
  { destruct Hy as [Hy | ->]; [left; by apply exp_increasing | lra]. }
  assert (Rtrigo_def.exp 105 * Rtrigo_def.exp (-105) = 1) as Hinv.
  { rewrite <- exp_plus. replace (105 + -105) with 0 by lra. apply exp_0. }
  pose proof (exp_pos 105). pose proof (exp_pos (-105)). pose proof (exp_pos y).
  pose proof (pow2_pos 149).
  change (2 ^ 150) with (2 * 2 ^ 149) in H.
  split; [nra|].
  assert (Rtrigo_def.exp (-105) * 2 ^ 149 < 1 / 2); [|nra].
  assert (Rtrigo_def.exp (-105) * (2 * 2 ^ 149) < 1); [|lra].
  rewrite <- Hinv. rewrite (Rmult_comm (Rtrigo_def.exp 105)).
  apply Rmult_lt_compat_l; lra.
Qed.

(** A number that is neither infinite nor [nan] has [exp] by rounding. *)
Lemma exp32_finite x :
  finite x = true -> exp32 x = rnd (Rtrigo_def.exp (to_R x)).
Proof. by destruct x as [| [] | |]. Qed.

(** [exp] is positive, in binary32, from -103 up. *)
Lemma exp32_positive x :
  finite x = true -> -103 <= to_R x -> ltb32 zero (exp32 x) = true.
Proof.
  intros Hx Hr. rewrite exp32_finite by done. unfold rnd.
  pose proof (exp_pos (to_R x)) as Hpos.
  rewrite Rabs_pos_eq by lra.
  rewrite bool_decide_eq_false_2 by lra.
  pose proof (exp_above _ Hr) as Ha.
  set (a := Rtrigo_def.exp (to_R x) * 2 ^ 149) in *.
  destruct (base_Int_part a) as [H1 H2].
  assert (1 <= Int_part a)%Z as Hi.
  { apply le_IZR. apply Rnot_lt_le. intros Hlt.
    assert (IZR (Int_part a) <= 0) by (apply IZR_le; apply lt_IZR in Hlt; lia).
    lra. }
  destruct (Int_part a) as [|p|p]; try lia.
  destruct (binary_round_aux_pos false p (-149) (location_of (frac_part a)))
    as [(m' & e' & ->) | ->]; [lia | done | done].
Qed.

(** [exp] is zero, in binary32, from -105 down. *)
Lemma exp32_underflow x :
  finite x = true -> to_R x <= -105 -> exp32 x = zero.
Proof.
  intros Hx Hr. rewrite exp32_finite by done. unfold rnd.
  pose proof (exp_pos (to_R x)) as Hpos.
  rewrite Rabs_pos_eq by lra.
  rewrite bool_decide_eq_false_2 by lra.
  pose proof (exp_below _ Hr) as Ha.
  set (a := Rtrigo_def.exp (to_R x) * 2 ^ 149) in *.
  destruct (Int_part_frac_part_spec a 0 a) as [<- <-]; [lra | simpl; lra |].
  unfold location_of.
  destruct (Req_dec_T a 0); [lra|].
  destruct (Rlt_dec a (1 / 2)); [|lra].
  reflexivity.
Qed.

End ExpFacts.

(** ** Sums and per-sample values *)

Module ValueFacts.
Import Torch Values.
Local Open Scope R_scope.

Lemma bind_unit_rows {A} (F : nat -> nat -> A) (l : list nat) :
  (o ← l; i ← seq 0 1; [F o i]) = map (fun o => F o 0%nat) l.
Proof. induction l as [|o l IH]; simpl in *; [done | f_equal; exact IH]. Qed.

Lemma big_sum_ext n f g :
  (forall i, (i < n)%nat -> f i = g i) -> big_sum n f = big_sum n g.
Proof.
  intros H. unfold big_sum. f_equal. apply map_ext_in.
  intros i Hi. apply in_seq in Hi. apply H. lia.
Qed.

Lemma Rsum_const_seq (c : R) s n :
  Rsum (map (fun _ => c) (seq s n)) = INR n * c.
Proof.
  revert s. induction n as [|n IH]; intros s.
  - simpl. lra.
  - rewrite S_INR. simpl. rewrite IH. lra.
Qed.

Lemma big_sum_const n c : big_sum n (fun _ => c) = INR n * c.
Proof. apply Rsum_const_seq. Qed.


Lemma Rsum_plus_pointwise {A} (f g : A -> R) (l : list A) :
  zip_with Rplus (map f l) (map g l) = map (fun a => f a + g a) l.
Proof. induction l as [|a l IH]; simpl; [done | by rewrite IH]. Qed.

Lemma Rsum_nonneg (l : list R) : Forall (fun v => 0 <= v) l -> 0 <= Rsum l.
Proof. induction 1; simpl; lra. Qed.

Lemma big_sum_nonneg n f :
  (forall i, (i < n)%nat -> 0 <= f i) -> 0 <= big_sum n f.
Proof.
  intros H. apply Rsum_nonneg. rewrite Forall_map, Forall_forall.
  intros i Hi. apply list_elem_of_In, in_seq in Hi. apply H. lia.
Qed.

Lemma clamp_log_nonpos (v : R) : v <= 1 -> clamp_log v <= 0.
Proof.
  intros Hv. unfold clamp_log. case_decide; [|lra].
  apply Rmax_lub; [|lra]. destruct Hv as [Hlt | ->].
  - rewrite <- ln_1. left. by apply ln_increasing.
  - rewrite ln_1. lra.
Qed.

Lemma bce_nonneg (p y : R) : 0 <= p <= 1 -> 0 <= y <= 1 -> 0 <= bce p y.
Proof.
  intros Hp Hy. unfold bce.
  pose proof (clamp_log_nonpos p). pose proof (clamp_log_nonpos (1 - p)).
  nra.
Qed.

Lemma nth_in_unit (l : list R) (n : nat) :
  Forall (fun v => 0 <= v <= 1) l -> 0 <= nth n l 0 <= 1.
Proof.
  intros H. destruct (decide (n < length l)%nat) as [Hn|Hn].
  - rewrite Forall_forall in H. apply H, list_elem_of_In, nth_In, Hn.
  - rewrite nth_overflow by lia. lra.
Qed.

Lemma nth_replicate_lt {A} (n m : nat) (v d : A) :
  (n < m)%nat -> nth n (replicate m v) d = v.
Proof.
  revert n. induction m as [|m IH]; intros [|n] Hn; simpl; try lia; [done|].
  apply IH. lia.
Qed.

Lemma bce_half (y : R) : bce (1 / 2) y = - ln (1 / 2).
Proof.
  unfold bce, clamp_log. replace (1 - 1 / 2) with (1 / 2) by lra.
  rewrite decide_True by lra. rewrite Rmax_left.
  - ring.
  - rewrite RealFacts.ln_half. pose proof RealFacts.ln_2_upper. lra.
Qed.

Lemma nth_zip_with {A B C} (f : A -> B -> C) (a : list A) (b : list B)
    (n : nat) (da : A) (db : B) (d : C) :
  (n < length a)%nat -> (n < length b)%nat ->
  nth n (zip_with f a b) d = f (nth n a da) (nth n b db).
Proof.
  revert b n. induction a as [|x a IH]; intros [|y b] [|n]; simpl;
    try lia; [done|]. intros. apply IH; lia.
Qed.

Lemma nth_zip {A B} (a : list A) (b : list B) (n : nat) (da : A) (db : B) :
  (n < length a)%nat -> (n < length b)%nat ->
  nth n (zip a b) (da, db) = (nth n a da, nth n b db).
Proof. apply nth_zip_with. Qed.

Lemma length_noise n g : length (noise n g) = n.
Proof. unfold noise. by rewrite length_map, length_seq. Qed.

Lemma nth_map_seq {A} (f : nat -> A) (d : A) s n i :
  (i < n)%nat -> nth i (map f (seq s n)) d = f (s + i)%nat.
Proof.
  revert s i. induction n as [|n IH]; intros s [|i] Hi; simpl; try lia.
  - by rewrite Nat.add_0_r.
  - rewrite IH by lia. f_equal. lia.
Qed.

Lemma nth_noise n g i :
  (i < n)%nat -> nth i (noise n g) 0 = stream g (offset g + i).
Proof. intros Hi. unfold noise. by rewrite nth_map_seq. Qed.

Lemma sum_elems_rows (B K : nat) (E : list R) :
  sum_elems [B; K] 1 E
  = map (fun i => big_sum K (fun j => nth (i * K + j) E 0)) (seq 0 B).
Proof.
  unfold sum_elems. simpl take. simpl drop. simpl numel. simpl nth.
  rewrite Nat.mul_1_r, bind_unit_rows. apply map_ext. intros i.
  apply big_sum_ext. intros j _. f_equal. lia.
Qed.

Section per_sample.
Variables (B K D : nat).

Lemma index_in_range (n i j : nat) :
  (i < B)%nat -> (j < n)%nat -> (i * n + j < B * n)%nat.
Proof. nia. Qed.

Lemma recon_per_sample_rows PXZ X :
  length PXZ = (B * K)%nat -> length X = (B * K)%nat ->
  recon_per_sample B K PXZ X = map (recon_at K PXZ X) (seq 0 B).
Proof.
  intros HP HX. unfold recon_per_sample. rewrite sum_elems_rows.
  apply map_ext_in. intros i Hi. apply in_seq in Hi.
  apply big_sum_ext. intros j Hj.
  apply nth_zip_with; rewrite ?HP, ?HX; apply index_in_range; lia.
Qed.

Lemma nth_log_probs l s z n :
  (n < length l)%nat -> (n < length s)%nat -> (n < length z)%nat ->
  nth n (log_probs l s z) 0
  = normal_log_prob (nth n l 0) (nth n s 0) (nth n z 0).
Proof.
  intros Hl Hs Hz. unfold log_probs.
  rewrite (nth_zip_with _ _ _ _ (0, 0) 0)
    by (rewrite ?length_zip; lia).
  by rewrite nth_zip.
Qed.

Lemma length_log_probs l s z :
  length l = length s -> length z = length s ->
  length (log_probs l s z) = length s.
Proof.
  intros Hl Hz. unfold log_probs. rewrite length_zip_with, length_zip. lia.
Qed.

Lemma kl_per_sample_rows Pl Ps Ql Qs Z :
  length Pl = (B * D)%nat -> length Ps = (B * D)%nat ->
  length Ql = (B * D)%nat -> length Qs = (B * D)%nat ->
  length Z = (B * D)%nat ->
  kl_per_sample B D Pl Ps Ql Qs Z = map (kl_at D Pl Ps Ql Qs Z) (seq 0 B).
Proof.
  intros HPl HPs HQl HQs HZ. unfold kl_per_sample. rewrite sum_elems_rows.
  apply map_ext_in. intros i Hi. apply in_seq in Hi.
  apply big_sum_ext. intros d Hd. cbv zeta.
  assert (i * D + d < B * D)%nat by (apply index_in_range; lia).
  rewrite (nth_zip_with _ _ _ _ 0 0)
    by (rewrite length_log_probs; lia).
  by rewrite !nth_log_probs by lia.
Qed.

Lemma length_latent Ql Qs g :
  length Ql = (B * D)%nat -> length Qs = (B * D)%nat ->
  length (latent B D Ql Qs g) = (B * D)%nat.
Proof.
  intros Hl Hs. unfold latent.
  rewrite length_zip_with, length_zip, length_noise. simpl. lia.
Qed.

Lemma nth_latent Ql Qs g n :
  length Ql = (B * D)%nat -> length Qs = (B * D)%nat -> (n < B * D)%nat ->
  nth n (latent B D Ql Qs g) 0
  = nth n Ql 0 + stream g (offset g + n) * nth n Qs 0.
Proof.
  intros Hl Hs Hn. unfold latent.
  rewrite (nth_zip_with _ _ _ _ (0, 0) 0)
    by (rewrite ?length_zip, ?length_noise; simpl; lia).
  rewrite nth_zip by lia. rewrite nth_noise by (simpl; lia). done.
Qed.


Lemma batch_mean_rows (f : nat -> R) :
  batch_mean B (map f (seq 0 B)) = big_sum B f / INR B.
Proof. unfold batch_mean, big_sum. simpl. by rewrite Nat.mul_1_r. Qed.
End per_sample.

End ValueFacts.

(** ** Rules for runs of tensor operations *)

Module TorchFacts.
Import Torch.
Local Open Scope R_scope.

#[global] Instance grows_preorder : PreOrder grows.
Proof.
  split; unfold grows.
  - by intros w.
  - intros a b c Hab Hbc. by etrans.
Qed.

Lemma stored_grows w w' t e : stored w t e -> grows w w' -> stored w' t e.
Proof. unfold stored, grows. apply prefix_lookup_Some. Qed.

Section rules.
Context {A : Type}.
Implicit Types (w : World) (Φ : A -> World -> Prop) (E : World -> Prop).

Lemma wp_run (m : M A) w Φ :
  wp m w Φ <-> exists a w', m w = (Ok a, w') /\ Φ a w'.
Proof.
  unfold wpx. destruct (m w) as [[a| |] w']; split.
  - eauto.
  - by intros (? & ? & [= -> ->] & H).
  - done.
  - by intros (? & ? & [=] & _).
  - done.
  - by intros (? & ? & [=] & _).
Qed.

Lemma wpx_mono (m : M A) w Φ (Ψ : A -> World -> Prop) E E' :
  wpx m w Φ E -> (forall a w', Φ a w' -> Ψ a w') ->
  (forall w', E w' -> E' w') -> wpx m w Ψ E'.
Proof. unfold wpx. destruct (m w) as [[]]; eauto. Qed.

Lemma wp_mono (m : M A) w Φ (Ψ : A -> World -> Prop) :
  wp m w Φ -> (forall a w', Φ a w' -> Ψ a w') -> wp m w Ψ.
Proof. intros H HΨ. eapply wpx_mono; eauto. Qed.

Lemma wp_ret (a : A) w Φ E : Φ a w -> wpx (mret a) w Φ E.
Proof. done. Qed.

Lemma wp_lift (o : outcome A) (a : A) w Φ E :
  o = Ok a -> Φ a w -> wpx (lift o) w Φ E.
Proof. by intros ->. Qed.

Lemma wp_bind {B} (m : M B) (f : B -> M A) w Φ E :
  wpx m w (fun b w' => wpx (f b) w' Φ E) E -> wpx (m ≫= f) w Φ E.
Proof.
  unfold wpx, mbind, M_bind, bind. by destruct (m w) as [[]].
Qed.
End rules.

Section operations.
Context {E : World -> Prop}.
Implicit Types (w : World) (t : tensor) (e : list R).

Lemma wp_load t e w Φ : stored w t e -> Φ e w -> wpx (load t) w Φ E.
Proof. unfold wpx, load, stored. by intros ->. Qed.

Lemma wp_alloc s e w Φ : fresh w s e (rng w) Φ -> wpx (alloc s e) w Φ E.
Proof.
  intros H. unfold wpx, alloc. apply H; simpl; try done.
  - unfold grows. simpl. by apply prefix_app_r.
  - unfold stored. simpl. by apply list_lookup_middle.
Qed.

Lemma wp_map1 f t e w Φ :
  stored w t e -> fresh w (sizes t) (map f e) (rng w) Φ ->
  wpx (map1 f t) w Φ E.
Proof.
  intros Ht H. unfold map1. apply wp_bind, (wp_load _ e); [done|].
  by apply wp_alloc.
Qed.

Lemma wp_map2 f a b ea eb w Φ :
  stored w a ea -> stored w b eb -> sizes a = sizes b ->
  fresh w (sizes a) (zip_with f ea eb) (rng w) Φ ->
  wpx (map2 f a b) w Φ E.
Proof.
  intros Ha Hb Hs H. unfold map2.
  apply wp_bind, (wp_load _ ea); [done|].
  apply wp_bind, (wp_load _ eb); [done|].
  rewrite decide_True by done. by apply wp_alloc.
Qed.

Lemma wp_size t d n w (Φ : nat -> World -> Prop) :
  sizes t !! d = Some n -> Φ n w -> wpx (size t d) w Φ E.
Proof. unfold size. by intros ->. Qed.

Lemma wp_view t shape s w Φ :
  infer_size shape (numel (sizes t)) = Some s ->
  Φ (Tensor (storage t) s) w -> wpx (view t shape) w Φ E.
Proof. unfold view. by intros ->. Qed.

Lemma wp_sum t dim d s e w Φ :
  stored w t e -> sizes t = s -> normalize_dim (length s) dim = Ok d ->
  fresh w (take d s ++ drop (S d) s) (sum_elems s d e) (rng w) Φ ->
  wpx (sum t dim) w Φ E.
Proof.
  intros Ht <- Hd H. unfold sum.
  apply wp_bind, (wp_load _ e); [done|].
  apply wp_bind, (wp_lift _ d); [done|]. by apply wp_alloc.
Qed.

Lemma wp_mean t e w Φ :
  stored w t e -> numel (sizes t) <> 0%nat ->
  fresh w [] [Rsum e / INR (numel (sizes t))] (rng w) Φ ->
  wpx (mean t) w Φ E.
Proof.
  intros Ht Hn H. unfold mean.
  apply wp_bind, (wp_load _ e); [done|].
  rewrite decide_False by done. by apply wp_alloc.
Qed.

Lemma wp_binary_cross_entropy input target p y w Φ :
  stored w input p -> stored w target y ->
  sizes target = sizes input ->
  Forall (fun v => 0 <= v <= 1) p ->
  fresh w (sizes input) (zip_with bce p y) (rng w) Φ ->
  wpx (binary_cross_entropy input target) w Φ E.
Proof.
  intros Hp Hy Hs Hr H. unfold binary_cross_entropy.
  apply wp_bind, (wp_load _ p); [done|].
  apply wp_bind, (wp_load _ y); [done|].
  rewrite !decide_True by done. by apply wp_alloc.
Qed.

Lemma wp_Normal l s el es w Φ :
  stored w l el -> stored w s es -> sizes l = sizes s ->
  (forall w', grows w w' -> rng w' = rng w ->
     built w' = built w ++ [(el, es)] -> Φ (MkNormal l s) w') ->
  wpx (Normal l s) w Φ E.
Proof.
  intros Hl Hs Hsz H. unfold Normal, construct. rewrite decide_True by done.
  apply wp_bind, (wp_load _ el); [done|].
  apply wp_bind, (wp_load _ es); [done|].
  apply wp_bind. unfold wpx at 1, note_built. apply (wp_ret (A:=Distribution)).
  apply H; [by unfold grows | done | done].
Qed.

Lemma wp_rsample d m s w Φ :
  stored w (loc d) m -> stored w (scale d) s ->
  fresh w (sizes (loc d))
        (zip_with (fun ms x => reparam ms.1 ms.2 x) (zip m s)
                  (noise (numel (sizes (loc d))) (rng w)))
        (advance (numel (sizes (loc d))) (rng w)) Φ ->
  wpx (rsample d) w Φ E.
Proof.
  intros Hm Hs H. unfold rsample.
  apply wp_bind, (wp_load _ m); [done|].
  apply wp_bind, (wp_load _ s); [done|].
  apply wp_bind. unfold wpx at 1, standard_normal.
  apply wp_alloc. intros t w' Hg Hr Hb Hsz Ht. apply H; try done.
Qed.

Lemma wp_log_prob d value m s v w Φ :
  stored w (loc d) m -> stored w (scale d) s -> stored w value v ->
  sizes value = sizes (loc d) ->
  Forall (fun x => 0 < x) s ->
  fresh w (sizes value)
        (zip_with (fun ms x => normal_log_prob ms.1 ms.2 x) (zip m s) v)
        (rng w) Φ ->
  wpx (log_prob d value) w Φ E.
Proof.
  intros Hm Hs Hv Hsz Hpos H. unfold log_prob.
  apply wp_bind, (wp_load _ m); [done|].
  apply wp_bind, (wp_load _ s); [done|].
  apply wp_bind, (wp_load _ v); [done|].
  rewrite !decide_True by done. by apply wp_alloc.
Qed.

Lemma wp_call1 f t e r w Φ :
  stored w t e -> f (sizes t, e) = Ok r ->
  fresh w r.1 r.2 (rng w) Φ -> wpx (call1 f t) w Φ E.
Proof.
  intros Ht Hf H. unfold call1.
  apply wp_bind, (wp_load _ e); [done|].
  apply wp_bind, (wp_lift _ r); [done|]. by apply wp_alloc.
Qed.

Lemma wp_call2 f t e r w (Φ : tensor * tensor -> World -> Prop) :
  stored w t e -> f (sizes t, e) = Ok r ->
  (forall a b w', grows w w' -> rng w' = rng w -> built w' = built w ->
     sizes a = r.1.1 -> sizes b = r.2.1 ->
     stored w' a r.1.2 -> stored w' b r.2.2 -> Φ (a, b) w') ->
  wpx (call2 f t) w Φ E.
Proof.
  intros Ht Hf H. unfold call2.
  apply wp_bind, (wp_load _ e); [done|].
  apply wp_bind, (wp_lift _ r); [done|].
  apply wp_bind, wp_alloc. intros a w1 Hg1 Hr1 Hb1 Hsa Ha.
  apply wp_bind, wp_alloc. intros b w2 Hg2 Hr2 Hb2 Hsb Hb.
  apply wp_ret, H; try done.
  - by etrans.
  - congruence.
  - congruence.
  - by eapply stored_grows.
Qed.
End operations.

End TorchFacts.

(** ** Runs of the ELBO step *)

Module StepFacts.
Import Torch TorchFacts Values.
Local Open Scope R_scope.

(** Carry what is known of a world over to the world that follows
    it, and forget the earlier one. *)
Ltac carry Hg Hr Hb :=
  lazymatch type of Hg with
  | grows ?w ?w' =>
      repeat match goal with
        | H : stored w _ _ |- _ =>
            apply (fun H' => stored_grows _ _ _ _ H' Hg) in H
        end;
      try match goal with
        | H : rng w = _ |- _ => rewrite H in Hr; clear H
        end;
      try match goal with
        | H : built w = _ |- _ => rewrite H in Hb; clear H
        end;
      try match goal with
        | H : grows ?w0 w |- _ =>
            apply (fun H' => transitivity (R:=grows) H' Hg) in H; clear Hg
        end
  end.

(** One operation of a run: apply its rule, name the fresh tensor. *)
Tactic Notation "step" uconstr(rule) :=
  apply wp_bind; eapply rule;
  [ try eassumption; try done ..
  | let t := fresh "t" in
    let w' := fresh "w" in
    let Hg := fresh "Hg" in
    let Hr := fresh "Hr" in
    let Hb := fresh "Hb" in
    let Hs := fresh "Hs" in
    let Ht := fresh "Ht" in
    intros t w' Hg Hr Hb Hs Ht; carry Hg Hr Hb ].

Lemma normalize_dim_last (n : nat) : normalize_dim (S n) (-1) = Ok n.
Proof.
  unfold normalize_dim. rewrite !decide_True by lia. f_equal. lia.
Qed.

Lemma normalize_dim_nat (n d : nat) :
  (d < n)%nat -> normalize_dim n (Z.of_nat d) = Ok d.
Proof.
  intros Hd. unfold normalize_dim.
  rewrite decide_True by lia. rewrite decide_False by lia.
  f_equal. lia.
Qed.

Section elbo.
Variable encoder : tdata -> outcome (tdata * tdata).
Variable decoder : tdata -> outcome tdata.

Lemma elbo_loss_run (B K D : nat) x P Q X Pl Ps Ql Qs PXZ w :
  sizes x = [B; K] -> stored w x X ->
  sizes (loc Q) = [B; D] -> sizes (loc P) = [B; D] ->
  stored w (loc Q) Ql -> stored w (scale Q) Qs ->
  stored w (loc P) Pl -> stored w (scale P) Ps ->
  Forall (fun v => 0 < v) Qs -> Forall (fun v => 0 < v) Ps ->
  decoder ([B; D], latent B D Ql Qs (rng w)) = Ok ([B; K], PXZ) ->
  Forall (fun v => 0 <= v <= 1) PXZ ->
  B <> 0%nat ->
  wp (BasicVaeModule.elbo_loss decoder x P Q) w
     (fun '(loss, recon_loss, kl_div, pxz) w' =>
        let Z := latent B D Ql Qs (rng w) in
        let rec := recon_per_sample B K PXZ X in
        let kl := kl_per_sample B D Pl Ps Ql Qs Z in
        grows w w' /\ rng w' = advance (numel [B; D]) (rng w) /\
        sizes loss = [] /\ sizes recon_loss = [] /\ sizes kl_div = [] /\
        sizes pxz = [B; K] /\
        stored w' loss [batch_mean B (zip_with Rplus rec kl)] /\
        stored w' recon_loss [batch_mean B rec] /\
        stored w' kl_div [batch_mean B kl] /\
        stored w' pxz PXZ).
Proof.
  intros Hx HX HQ HP HQl HQs HPl HPs Hq Hp Hdec Hunit HB.
  unfold BasicVaeModule.elbo_loss.
  step wp_rsample. rewrite HQ in *.
  apply wp_bind. unfold BasicVaeModule.forward.
  eapply wp_call1; [done| rewrite Hs; exact Hdec |].
  intros pxz w1 Hg1 Hr1 Hb1 Hs1 Ht1; simpl in Hs1, Ht1; carry Hg1 Hr1 Hb1.
  step wp_binary_cross_entropy; [congruence|]. rewrite Hs1 in *.
  step (wp_sum t0 (-1) 1 [B; K]). simpl in Hs2.
  step wp_log_prob; [congruence|].
  step wp_log_prob; [congruence|].
  step wp_map2; [congruence|]. rewrite Hs3, Hs in *.
  step (wp_sum t4 1 1 [B; D]). simpl in Hs6.
  step wp_map2; [congruence|]. rewrite Hs2 in *.
  step wp_mean; [rewrite Hs7; simpl; lia|].
  step wp_mean; [rewrite Hs2; simpl; lia|].
  step wp_mean; [rewrite Hs6; simpl; lia|].
  apply wp_ret. rewrite Hs7, Hs2, Hs6 in *.
  by repeat split.
Qed.

Lemma infer_size_rows (B K : nat) :
  B <> 0%nat ->
  infer_size [Z.of_nat B; (-1)%Z] (B * K) = Some [B; K].
Proof.
  intros HB. unfold infer_size.
  rewrite decide_True by (repeat constructor; lia).
  rewrite !filter_cons, !filter_nil.
  rewrite (decide_True (P := Z.of_nat B ≠ (-1)%Z)) by lia.
  rewrite (decide_False (P := (-1)%Z ≠ (-1)%Z)) by (intros H; by apply H).
  rewrite (decide_False (P := Z.of_nat B = (-1)%Z)) by lia.
  rewrite (decide_True (P := (-1)%Z = (-1)%Z)) by done.
  simpl. rewrite Nat2Z.id, Nat.mul_1_r.
  rewrite decide_False by done.
  rewrite decide_True by (rewrite Nat.mul_comm; apply Nat.Div0.mod_mul).
  rewrite decide_False by lia.
  by rewrite Nat.mul_comm, Nat.div_mul.
Qed.

Lemma stds_pos LV : Forall (fun v => 0 < v) (stds LV).
Proof.
  unfold stds. rewrite Forall_map. apply Forall_true. intros v.
  apply exp_pos.
Qed.

Lemma run_step_run (B K D : nat) x y rest X MU LV PXZ w :
  sizes x = B :: rest -> numel rest = K -> stored w x X ->
  encoder (B :: rest, X) = Ok (([B; D], MU), ([B; D], LV)) ->
  decoder ([B; D], latent B D MU (stds LV) (rng w)) = Ok ([B; K], PXZ) ->
  Forall (fun v => 0 <= v <= 1) PXZ ->
  B <> 0%nat ->
  wp (BasicVaeModule._run_step encoder decoder (x, y)) w
     (fun '(loss, recon_loss, kl_div, pxz) w' =>
        let Z := latent B D MU (stds LV) (rng w) in
        let rec := recon_per_sample B K PXZ X in
        let kl := kl_per_sample B D (map (fun _ => 0) MU)
                    (map (fun _ => 1) (stds LV)) MU (stds LV) Z in
        grows w w' /\ rng w' = advance (numel [B; D]) (rng w) /\
        sizes loss = [] /\ sizes recon_loss = [] /\ sizes kl_div = [] /\
        sizes pxz = [B; K] /\
        stored w' loss [batch_mean B (zip_with Rplus rec kl)] /\
        stored w' recon_loss [batch_mean B rec] /\
        stored w' kl_div [batch_mean B kl] /\
        stored w' pxz PXZ).
Proof.
  intros Hx HK HX Henc Hdec Hunit HB.
  unfold BasicVaeModule._run_step.
  apply wp_bind. eapply wp_call2; [done | rewrite Hx; exact Henc |].
  intros z_mu z_log_var w0 Hg0 Hr0 Hb0 Hsm Hsv Hmu Hlv.
  simpl in Hsm, Hsv, Hmu, Hlv. carry Hg0 Hr0 Hb0.
  unfold div_scalar, exp.
  step wp_map1. step wp_map1.
  unfold BasicVaeModule.get_prior, zeros_like, ones_like.
  apply wp_bind. step wp_map1. step wp_map1.
  apply wp_bind. eapply wp_Normal; [done | done | congruence |].
  intros w5 Hg5 Hr5 Hb5. carry Hg5 Hr5 Hb5. apply wp_ret.
  unfold BasicVaeModule.get_approx_posterior.
  apply wp_bind, wp_bind. eapply wp_Normal; [done | done | congruence |].
  intros w6 Hg6 Hr6 Hb6. carry Hg6 Hr6 Hb6. apply wp_ret.
  apply wp_bind. eapply wp_size; [by rewrite Hx|].
  apply wp_bind. eapply wp_view.
  { rewrite Hx. simpl. rewrite HK. by apply infer_size_rows. }
  apply wp_bind.
  eapply wp_mono.
  - eapply (elbo_loss_run B K D) with (X := X) (Ql := MU) (Qs := stds LV);
      simpl; try done; try congruence.
    + apply stds_pos.
    + rewrite Forall_map. apply Forall_true. intros; simpl; lra.
  - intros [[[loss recon_loss] kl_div] pxz] w' H. apply wp_ret.
    rewrite Hr6 in H. destruct H as (Hg & H). split; [by etrans|done].
Qed.

End elbo.
End StepFacts.

(** ** The two modules share the step logic *)

Module Shared.
Import Torch.

Lemma template_get_prior : Template.get_prior = BasicVaeModule.get_prior.
Proof. reflexivity. Qed.

Lemma template_get_approx_posterior :
  Template.get_approx_posterior = BasicVaeModule.get_approx_posterior.
Proof. reflexivity. Qed.

Lemma template_elbo_loss : Template.elbo_loss = BasicVaeModule.elbo_loss.
Proof. reflexivity. Qed.

Lemma template_run_step : Template._run_step = BasicVaeModule._run_step.
Proof. reflexivity. Qed.

Lemma template_validation_epoch_end :
  Template.validation_epoch_end = BasicVaeModule.validation_epoch_end.
Proof. reflexivity. Qed.

Lemma template_test_epoch_end :
  Template.test_epoch_end = BasicVaeModule.test_epoch_end.
Proof. reflexivity. Qed.

End Shared.

(** ** Properties of the ELBO loss *)

Module ElboFacts.
Import Torch TorchFacts Values ValueFacts StepFacts Examples.
Local Open Scope R_scope.

Lemma zip_with_maps {A} (f : R -> R -> R) (g h : A -> R) (l : list A) :
  zip_with f (map g l) (map h l) = map (fun i => f (g i) (h i)) l.
Proof. induction l as [|a l IH]; simpl; [done | by rewrite IH]. Qed.

(** C1, but for its last sentence: on a batch of [B] samples with
    [K] features and [D] latent dimensions, [elbo_loss] (of either
    module) returns the batch means of the per-sample ELBO, of the
    per-sample reconstruction loss and of the per-sample KL term,
    where the per-sample reconstruction loss is the binary
    cross-entropy summed over the features, and the per-sample ELBO is
    its sum with the per-sample KL term. *)
Theorem elbo_loss_batch_means
    (decoder : tdata -> outcome tdata) (B K D : nat)
    (x : tensor) (P Q : Distribution) (X Pl Ps Ql Qs PXZ : list R) (w : World)
    (elbo_loss : (tdata -> outcome tdata) -> tensor -> Distribution ->
                 Distribution -> M (tensor * tensor * tensor * tensor)) :
  elbo_loss = BasicVaeModule.elbo_loss \/ elbo_loss = Template.elbo_loss ->
  sizes x = [B; K] -> stored w x X -> length X = (B * K)%nat ->
  sizes (loc Q) = [B; D] -> sizes (loc P) = [B; D] ->
  stored w (loc Q) Ql -> stored w (scale Q) Qs ->
  stored w (loc P) Pl -> stored w (scale P) Ps ->
  length Ql = (B * D)%nat -> length Qs = (B * D)%nat ->
  length Pl = (B * D)%nat -> length Ps = (B * D)%nat ->
  Forall (fun v => 0 < v) Qs -> Forall (fun v => 0 < v) Ps ->
  decoder ([B; D], latent B D Ql Qs (rng w)) = Ok ([B; K], PXZ) ->
  length PXZ = (B * K)%nat -> Forall (fun v => 0 <= v <= 1) PXZ ->
  B <> 0%nat ->
  wp (elbo_loss decoder x P Q) w
     (fun '(loss, recon_loss, kl_div, pxz) w' =>
        let recon i :=
          big_sum K (fun j => bce (nth (i * K + j) PXZ 0)
                                  (nth (i * K + j) X 0)) in
        let kl := kl_at D Pl Ps Ql Qs (latent B D Ql Qs (rng w)) in
        stored w' loss [big_sum B (fun i => recon i + kl i) / INR B] /\
        stored w' recon_loss [big_sum B recon / INR B] /\
        stored w' kl_div [big_sum B kl / INR B]).
Proof.
  intros Himpl Hx HX HlX HQ HP HQl HQs HPl HPs Hl1 Hl2 Hl3 Hl4 Hq Hp
         Hdec HlP Hunit HB.
  assert (elbo_loss = BasicVaeModule.elbo_loss) as ->
    by (destruct Himpl as [-> | ->]; [done | apply Shared.template_elbo_loss]).
  eapply wp_mono; [by eapply (elbo_loss_run decoder B K D)|].
  intros [[[loss recon_loss] kl_div] pxz] w'
         (_ & _ & _ & _ & _ & _ & Hloss & Hrec & Hkl & _).
  cbv zeta in *. fold (recon_at K PXZ X).
  rewrite recon_per_sample_rows in Hloss, Hrec by done.
  rewrite kl_per_sample_rows in Hloss, Hkl
    by (rewrite ?(length_latent B D); done).
  rewrite zip_with_maps in Hloss.
  rewrite batch_mean_rows in Hloss, Hrec. rewrite batch_mean_rows in Hkl.
  done.
Qed.

Lemma elbo_loss_batch_means_witness :
  wp (BasicVaeModule.elbo_loss decoder_q x_q P_q Q_q) w_q
     (fun '(loss, recon_loss, kl_div, pxz) w' =>
        let recon i :=
          big_sum 2 (fun j => bce (nth (i * 2 + j) [1 / 2; 1 / 4; 3 / 4; 1 / 2] 0)
                                  (nth (i * 2 + j) [0; 1; 1 / 2; 1 / 4] 0)) in
        let kl := kl_at 2 [0; 0; 0; 0] [1; 1; 1; 1] [1; 0; -1; 2] [1; 2; 1; 1]
                        (latent 2 2 [1; 0; -1; 2] [1; 2; 1; 1] (rng w_q)) in
        stored w' loss [big_sum 2 (fun i => recon i + kl i) / INR 2] /\
        stored w' recon_loss [big_sum 2 recon / INR 2] /\
        stored w' kl_div [big_sum 2 kl / INR 2]).
Proof.
  apply (elbo_loss_batch_means decoder_q 2 2 2 x_q P_q Q_q
           [0; 1; 1 / 2; 1 / 4] [0; 0; 0; 0] [1; 1; 1; 1] [1; 0; -1; 2]
           [1; 2; 1; 1] [1 / 2; 1 / 4; 3 / 4; 1 / 2] w_q
           BasicVaeModule.elbo_loss);
    try reflexivity; try (by left); try lia;
    repeat constructor; lra.
Defined.

(** The KL term of the example run, and the analytic KL divergence
    of its posterior from its prior. *)
Lemma kl_example_values :
  big_sum 2
    (kl_at 2 [0; 0; 0; 0] [1; 1; 1; 1] [1; 0; -1; 2] [1; 2; 1; 1]
           (latent 2 2 [1; 0; -1; 2] [1; 2; 1; 1] (rng w_q))) / INR 2
  = (15 - ln 2) / 2 /\
  big_sum 2 (fun i => big_sum 2 (fun d =>
    closed_form_kl (nth (i * 2 + d) [1; 0; -1; 2] 0)
                   (nth (i * 2 + d) [1; 2; 1; 1] 0) 0 1)) / INR 2
  = (9 / 2 - ln 2) / 2.
Proof.
  unfold kl_at, latent, noise. unfold big_sum, Rsum. simpl.
  unfold reparam, normal_log_prob, closed_form_kl. simpl.
  replace (1 / 1) with 1 by lra. replace (1 / 2) with (/ 2) by lra.
  rewrite ln_1, ln_Rinv by lra. split; field.
Qed.

(** C2: the KL term [elbo_loss] returns is the batch mean of the
    per-sample sums, over the latent dimensions, of
    [log q(z) - log p(z)], where [z = loc + eps * scale] is the one
    reparameterized sample drawn from the posterior [Q], [q] is the
    density of [Q] and [p] that of the prior [P].  This is the
    single-sample estimate and not the analytic KL divergence: the run
    on the example batch, with a posterior of means 1, 0, -1, 2 and
    scales 1, 2, 1, 1 and the noise 1, 2, 3, 4, returns
    (15 - ln 2) / 2, where the closed form gives (9/2 - ln 2) / 2. *)
Theorem elbo_loss_kl_single_sample
    (decoder : tdata -> outcome tdata) (B K D : nat)
    (x : tensor) (P Q : Distribution) (X Pl Ps Ql Qs PXZ : list R) (w : World)
    (elbo_loss : (tdata -> outcome tdata) -> tensor -> Distribution ->
                 Distribution -> M (tensor * tensor * tensor * tensor)) :
  elbo_loss = BasicVaeModule.elbo_loss \/ elbo_loss = Template.elbo_loss ->
  sizes x = [B; K] -> stored w x X ->
  sizes (loc Q) = [B; D] -> sizes (loc P) = [B; D] ->
  stored w (loc Q) Ql -> stored w (scale Q) Qs ->
  stored w (loc P) Pl -> stored w (scale P) Ps ->
  length Ql = (B * D)%nat -> length Qs = (B * D)%nat ->
  length Pl = (B * D)%nat -> length Ps = (B * D)%nat ->
  Forall (fun v => 0 < v) Qs -> Forall (fun v => 0 < v) Ps ->
  decoder ([B; D], latent B D Ql Qs (rng w)) = Ok ([B; K], PXZ) ->
  Forall (fun v => 0 <= v <= 1) PXZ ->
  B <> 0%nat ->
  wp (elbo_loss decoder x P Q) w
     (fun '(loss, recon_loss, kl_div, pxz) w' =>
        let eps n := stream (rng w) (offset (rng w) + n) in
        let z n := nth n Ql 0 + eps n * nth n Qs 0 in
        let log_q n := normal_log_prob (nth n Ql 0) (nth n Qs 0) (z n) in
        let log_p n := normal_log_prob (nth n Pl 0) (nth n Ps 0) (z n) in
        stored w' kl_div
          [big_sum B (fun i =>
             big_sum D (fun d => log_q (i * D + d)%nat
                                 - log_p (i * D + d)%nat)) / INR B])
  /\ wp (BasicVaeModule.elbo_loss decoder_q x_q P_q Q_q) w_q
        (fun '(loss, recon_loss, kl_div, pxz) w' =>
           stored w' kl_div [(15 - ln 2) / 2])
  /\ big_sum 2 (fun i => big_sum 2 (fun d =>
       closed_form_kl (nth (i * 2 + d) [1; 0; -1; 2] 0)
                      (nth (i * 2 + d) [1; 2; 1; 1] 0) 0 1)) / INR 2
     = (9 / 2 - ln 2) / 2
  /\ (15 - ln 2) / 2 <> (9 / 2 - ln 2) / 2.
Proof.
  intros Himpl Hx HX HQ HP HQl HQs HPl HPs Hl1 Hl2 Hl3 Hl4 Hq Hp
         Hdec Hunit HB.
  split; [|split; [|split]].
  - assert (elbo_loss = BasicVaeModule.elbo_loss) as ->
      by (destruct Himpl as [-> | ->]; [done | apply Shared.template_elbo_loss]).
    eapply wp_mono; [by eapply (elbo_loss_run decoder B K D)|].
    intros [[[loss recon_loss] kl_div] pxz] w'
           (_ & _ & _ & _ & _ & _ & _ & _ & Hkl & _).
    cbv zeta in *.
    rewrite kl_per_sample_rows in Hkl by (rewrite ?(length_latent B D); done).
    rewrite batch_mean_rows in Hkl.
    replace (big_sum B _) with
      (big_sum B (kl_at D Pl Ps Ql Qs (latent B D Ql Qs (rng w)))); [done|].
    apply big_sum_ext. intros i Hi. apply big_sum_ext. intros d Hd. cbv zeta.
    assert (i * D + d < B * D)%nat by (apply (index_in_range B); lia).
    by rewrite nth_latent.
  - eapply wp_mono.
    + eapply (elbo_loss_run decoder_q 2 2 2 x_q P_q Q_q
                [0; 1; 1 / 2; 1 / 4] [0; 0; 0; 0] [1; 1; 1; 1] [1; 0; -1; 2]
                [1; 2; 1; 1] [1 / 2; 1 / 4; 3 / 4; 1 / 2] w_q);
        try reflexivity; try lia; repeat constructor; lra.
    + intros [[[loss recon_loss] kl_div] pxz] w'
             (_ & _ & _ & _ & _ & _ & _ & _ & Hkl & _).
      cbv zeta in Hkl.
      rewrite kl_per_sample_rows in Hkl by reflexivity.
      rewrite batch_mean_rows in Hkl.
      by rewrite (proj1 kl_example_values) in Hkl.
  - apply kl_example_values.
  - lra.
Qed.

Lemma elbo_loss_kl_single_sample_witness :
  wp (BasicVaeModule.elbo_loss decoder_q x_q P_q Q_q) w_q
     (fun '(loss, recon_loss, kl_div, pxz) w' =>
        let eps n := stream (rng w_q) (offset (rng w_q) + n) in
        let z n := nth n [1; 0; -1; 2] 0 + eps n * nth n [1; 2; 1; 1] 0 in
        let log_q n :=
          normal_log_prob (nth n [1; 0; -1; 2] 0) (nth n [1; 2; 1; 1] 0) (z n) in
        let log_p n :=
          normal_log_prob (nth n [0; 0; 0; 0] 0) (nth n [1; 1; 1; 1] 0) (z n) in
        stored w' kl_div
          [big_sum 2 (fun i =>
             big_sum 2 (fun d => log_q (i * 2 + d)%nat
                                 - log_p (i * 2 + d)%nat)) / INR 2]).
Proof.
  apply (elbo_loss_kl_single_sample decoder_q 2 2 2 x_q P_q Q_q
           [0; 1; 1 / 2; 1 / 4] [0; 0; 0; 0] [1; 1; 1; 1] [1; 0; -1; 2]
           [1; 2; 1; 1] [1 / 2; 1 / 4; 3 / 4; 1 / 2] w_q
           BasicVaeModule.elbo_loss);
    try reflexivity; try (by left); try lia;
    repeat constructor; lra.
Defined.

(** C6: when the reconstruction and the flattened input have all
    their values in [0,1], every per-sample reconstruction loss of
    [elbo_loss] (the binary cross-entropy summed over the features,
    whose batch mean is returned as recon_loss) is at least 0. *)
Theorem elbo_loss_recon_nonneg
    (decoder : tdata -> outcome tdata) (B K D : nat)
    (x : tensor) (P Q : Distribution) (X Pl Ps Ql Qs PXZ : list R) (w : World)
    (elbo_loss : (tdata -> outcome tdata) -> tensor -> Distribution ->
                 Distribution -> M (tensor * tensor * tensor * tensor)) :
  elbo_loss = BasicVaeModule.elbo_loss \/ elbo_loss = Template.elbo_loss ->
  sizes x = [B; K] -> stored w x X -> length X = (B * K)%nat ->
  sizes (loc Q) = [B; D] -> sizes (loc P) = [B; D] ->
  stored w (loc Q) Ql -> stored w (scale Q) Qs ->
  stored w (loc P) Pl -> stored w (scale P) Ps ->
  Forall (fun v => 0 < v) Qs -> Forall (fun v => 0 < v) Ps ->
  decoder ([B; D], latent B D Ql Qs (rng w)) = Ok ([B; K], PXZ) ->
  length PXZ = (B * K)%nat ->
  Forall (fun v => 0 <= v <= 1) PXZ ->
  Forall (fun v => 0 <= v <= 1) X ->
  B <> 0%nat ->
  wp (elbo_loss decoder x P Q) w
     (fun '(loss, recon_loss, kl_div, pxz) w' =>
        exists per_sample : list R,
          length per_sample = B /\
          (forall i, (i < B)%nat ->
             nth i per_sample 0
             = big_sum K (fun j => bce (nth (i * K + j) PXZ 0)
                                       (nth (i * K + j) X 0))) /\
          stored w' recon_loss [Rsum per_sample / INR B] /\
          Forall (fun v => 0 <= v) per_sample).
Proof.
  intros Himpl Hx HX HlX HQ HP HQl HQs HPl HPs Hq Hp Hdec HlP Hunit HXunit HB.
  assert (elbo_loss = BasicVaeModule.elbo_loss) as ->
    by (destruct Himpl as [-> | ->]; [done | apply Shared.template_elbo_loss]).
  eapply wp_mono; [by eapply (elbo_loss_run decoder B K D)|].
  intros [[[loss recon_loss] kl_div] pxz] w'
         (_ & _ & _ & _ & _ & _ & _ & Hrec & _).
  cbv zeta in *. rewrite recon_per_sample_rows in Hrec by done.
  exists (map (recon_at K PXZ X) (seq 0 B)). repeat split.
  - by rewrite length_map, length_seq.
  - intros i Hi. by rewrite nth_map_seq.
  - unfold batch_mean in Hrec. simpl in Hrec. by rewrite Nat.mul_1_r in Hrec.
  - rewrite Forall_map. apply Forall_true. intros i.
    apply big_sum_nonneg. intros j _. apply bce_nonneg; by apply nth_in_unit.
Qed.

Lemma elbo_loss_recon_nonneg_witness :
  wp (BasicVaeModule.elbo_loss decoder_ex x_ex N01_ex N01_ex) w_ex
     (fun '(loss, recon_loss, kl_div, pxz) w' =>
        exists per_sample : list R,
          length per_sample = 1%nat /\
          (forall i, (i < 1)%nat ->
             nth i per_sample 0
             = big_sum 1 (fun j => bce (nth (i * 1 + j) [1 / 2] 0)
                                       (nth (i * 1 + j) [1 / 2] 0))) /\
          stored w' recon_loss [Rsum per_sample / INR 1] /\
          Forall (fun v => 0 <= v) per_sample).
Proof.
  apply (elbo_loss_recon_nonneg decoder_ex 1 1 1 x_ex N01_ex N01_ex
           [1 / 2] [0] [1] [0] [1] [1 / 2] w_ex BasicVaeModule.elbo_loss);
    try reflexivity; try (by left); try lia;
    repeat constructor; lra.
Defined.

(** C3: with batch size 4, latent dimension 2, 16 pixels per sample
    with values in [0,1], an encoder returning mean 0 and log-variance
    0 and a decoder returning 1/2 at every pixel, each per-sample
    reconstruction loss is 16 * (- ln (1/2)), which is 11.09 to two
    decimals, each per-sample KL term is 0, and the step returns
    16 * (- ln (1/2)) as recon_loss and as loss and 0 as kl_div. *)
Theorem run_step_stub_scenario
    (w : World) (x y : tensor) (rest : list nat) (X : list R) :
  sizes x = 4%nat :: rest -> numel rest = 16%nat -> stored w x X ->
  length X = 64%nat -> Forall (fun v => 0 <= v <= 1) X ->
  wp (BasicVaeModule._run_step encoder_stub decoder_stub (x, y)) w
     (fun '(loss, recon_loss, kl_div, pxz) w' =>
        let MU := replicate 8 0 in
        let STD := stds (replicate 8 0) in
        let Z := latent 4 2 MU STD (rng w) in
        recon_per_sample 4 16 (replicate 64 (1 / 2)) X
        = replicate 4 (16 * - ln (1 / 2)) /\
        kl_per_sample 4 2 (map (fun _ => 0) MU) (map (fun _ => 1) STD) MU STD Z
        = replicate 4 0 /\
        stored w' recon_loss [16 * - ln (1 / 2)] /\
        stored w' kl_div [0] /\
        stored w' loss [16 * - ln (1 / 2)])
  /\ 11085 / 1000 < 16 * - ln (1 / 2) < 11095 / 1000.
Proof.
  intros Hx Hrest HX Hlen Hunit.
  assert (stds (replicate 8 0) = replicate 8 1) as Hstd.
  { unfold stds. change map with (@fmap list _). rewrite !fmap_replicate.
    replace (0 / 2) with 0 by lra. by rewrite exp_0. }
  assert (recon_per_sample 4 16 (replicate 64 (1 / 2)) X
          = replicate 4 (16 * - ln (1 / 2))) as Hrec.
  { rewrite recon_per_sample_rows by done.
    change (replicate 4 (16 * - ln (1 / 2)))
      with (map (fun _ : nat => 16 * - ln (1 / 2)) (seq 0 4)).
    apply map_ext_in. intros i Hi. apply in_seq in Hi. unfold recon_at.
    rewrite (big_sum_ext _ _ (fun _ => - ln (1 / 2))).
    - rewrite big_sum_const. simpl. lra.
    - intros j Hj. rewrite nth_replicate_lt by lia. apply bce_half. }
  assert (kl_per_sample 4 2 (map (fun _ => 0) (replicate 8 0))
            (map (fun _ => 1) (stds (replicate 8 0)))
            (replicate 8 0) (stds (replicate 8 0))
            (latent 4 2 (replicate 8 0) (stds (replicate 8 0)) (rng w))
          = replicate 4 0) as Hkl.
  { rewrite Hstd. change map with (@fmap list _). rewrite !fmap_replicate.
    change (@fmap list _) with map.
    rewrite kl_per_sample_rows
      by (rewrite ?(length_latent 4 2), ?length_replicate; done).
    change (replicate 4 0) with (map (fun _ : nat => 0) (seq 0 4)).
    apply map_ext. intros i. unfold kl_at.
    rewrite (big_sum_ext _ _ (fun _ => 0)) by (intros; cbv zeta; lra).
    rewrite big_sum_const. lra. }
  split.
  - eapply wp_mono.
    + eapply (run_step_run encoder_stub decoder_stub 4 16 2); try done.
      apply Forall_replicate. lra.
    + intros [[[loss recon_loss] kl_div] pxz] w'
             (_ & _ & _ & _ & _ & _ & Hl & Hr & Hk & _).
      cbv zeta in *. split; [done|]. split; [done|].
      rewrite Hrec, Hkl in Hl. rewrite Hrec in Hr. rewrite Hkl in Hk.
      unfold batch_mean in *. simpl in Hl, Hr, Hk.
      repeat split.
      * replace (16 * - ln (1 / 2)) with
          ((16 * - ln (1 / 2) + (16 * - ln (1 / 2) + (16 * - ln (1 / 2)
             + (16 * - ln (1 / 2) + 0)))) / (1 + 1 + 1 + 1)) by lra.
        exact Hr.
      * replace 0 with ((0 + (0 + (0 + (0 + 0)))) / (1 + 1 + 1 + 1)) at 1
          by lra.
        exact Hk.
      * replace (16 * - ln (1 / 2)) with
          ((16 * - ln (1 / 2) + 0 + (16 * - ln (1 / 2) + 0
             + (16 * - ln (1 / 2) + 0 + (16 * - ln (1 / 2) + 0 + 0))))
           / (1 + 1 + 1 + 1)) by lra.
        exact Hl.
  - rewrite RealFacts.ln_half.
    pose proof RealFacts.ln_2_lower. pose proof RealFacts.ln_2_upper. lra.
Qed.

Lemma run_step_stub_scenario_witness :
  wp (BasicVaeModule._run_step encoder_stub decoder_stub (x_step, y_step))
     w_step
     (fun '(loss, recon_loss, kl_div, pxz) w' =>
        stored w' recon_loss [16 * - ln (1 / 2)] /\
        stored w' kl_div [0] /\
        stored w' loss [16 * - ln (1 / 2)]).
Proof.
  eapply wp_mono.
  - apply (run_step_stub_scenario w_step x_step y_step [1; 4; 4]%nat
             (replicate 64 (1 / 4))); try reflexivity.
    apply Forall_replicate. lra.
  - intros [[[loss recon_loss] kl_div] pxz] w' (_ & _ & H). exact H.
Defined.

(** C9: two runs of [_run_step] on the same batch, from generator
    states that are equal (the same seed, hence the same noise) and with
    the same encoder and decoder, return tuples of equal values (loss,
    recon_loss, kl_div and reconstruction), and each run leaves every
    tensor of its initial store, the batch's among them, as it was. *)
Theorem run_step_deterministic
    (encoder : tdata -> outcome (tdata * tdata))
    (decoder : tdata -> outcome tdata) (B K D : nat)
    (x y : tensor) (rest : list nat) (X MU LV PXZ : list R) (w1 w2 : World) :
  sizes x = B :: rest -> numel rest = K ->
  stored w1 x X -> stored w2 x X -> rng w2 = rng w1 ->
  encoder (B :: rest, X) = Ok (([B; D], MU), ([B; D], LV)) ->
  decoder ([B; D], latent B D MU (stds LV) (rng w1)) = Ok ([B; K], PXZ) ->
  Forall (fun v => 0 <= v <= 1) PXZ ->
  B <> 0%nat ->
  wp (BasicVaeModule._run_step encoder decoder (x, y)) w1
     (fun '(loss1, recon_loss1, kl_div1, pxz1) w1' =>
        wp (BasicVaeModule._run_step encoder decoder (x, y)) w2
           (fun '(loss2, recon_loss2, kl_div2, pxz2) w2' =>
              (exists l r k p,
                 stored w1' loss1 [l] /\ stored w2' loss2 [l] /\
                 stored w1' recon_loss1 [r] /\ stored w2' recon_loss2 [r] /\
                 stored w1' kl_div1 [k] /\ stored w2' kl_div2 [k] /\
                 stored w1' pxz1 p /\ stored w2' pxz2 p) /\
              sizes loss1 = sizes loss2 /\
              sizes recon_loss1 = sizes recon_loss2 /\
              sizes kl_div1 = sizes kl_div2 /\
              sizes pxz1 = sizes pxz2 /\
              (forall t e, stored w1 t e -> stored w1' t e) /\
              (forall t e, stored w2 t e -> stored w2' t e))).
Proof.
  intros Hx HK HX1 HX2 Hrng Henc Hdec Hunit HB.
  eapply wp_mono; [by eapply (run_step_run encoder decoder B K D)|].
  intros [[[loss1 recon_loss1] kl_div1] pxz1] w1'
         (Hg1 & _ & Hsl1 & Hsr1 & Hsk1 & Hsp1 & Hl1 & Hr1 & Hk1 & Hp1).
  eapply wp_mono.
  { eapply (run_step_run encoder decoder B K D); try done.
    by rewrite Hrng. }
  intros [[[loss2 recon_loss2] kl_div2] pxz2] w2'
         (Hg2 & _ & Hsl2 & Hsr2 & Hsk2 & Hsp2 & Hl2 & Hr2 & Hk2 & Hp2).
  cbv zeta in *. rewrite Hrng in *.
  split; [eexists _, _, _, _; by repeat split|].
  repeat split; try congruence.
  - intros t e Ht. by eapply stored_grows.
  - intros t e Ht. by eapply stored_grows.
Qed.

Lemma run_step_deterministic_witness :
  wp (BasicVaeModule._run_step encoder_stub decoder_stub (x_step, y_step))
     w_step
     (fun '(loss1, recon_loss1, kl_div1, pxz1) w1' =>
        wp (BasicVaeModule._run_step encoder_stub decoder_stub
              (x_step, y_step)) w_step
           (fun '(loss2, recon_loss2, kl_div2, pxz2) w2' =>
              (exists l r k p,
                 stored w1' loss1 [l] /\ stored w2' loss2 [l] /\
                 stored w1' recon_loss1 [r] /\ stored w2' recon_loss2 [r] /\
                 stored w1' kl_div1 [k] /\ stored w2' kl_div2 [k] /\
                 stored w1' pxz1 p /\ stored w2' pxz2 p) /\
              sizes loss1 = sizes loss2 /\
              sizes recon_loss1 = sizes recon_loss2 /\
              sizes kl_div1 = sizes kl_div2 /\
              sizes pxz1 = sizes pxz2 /\
              (forall t e, stored w_step t e -> stored w1' t e) /\
              (forall t e, stored w_step t e -> stored w2' t e))).
Proof.
  apply (run_step_deterministic encoder_stub decoder_stub 4 16 2
           x_step y_step [1; 4; 4]%nat (replicate 64 (1 / 4))
           (replicate 8 0) (replicate 8 0) (replicate 64 (1 / 2))
           w_step w_step);
    try reflexivity; try lia.
  apply Forall_replicate. lra.
Defined.

End ElboFacts.

(** ** Hyperparameters *)

Module HparamsFacts.
Import Examples.

(** Which attribute each field is read from. *)
Lemma check_hparams_fields (ns : gmap string Z) (a : BasicVaeModule.Attrs) :
  BasicVaeModule.__check_hparams (Some ns) = Ok a ->
  BasicVaeModule.hidden_dim a = default 128%Z (ns !! "hidden_dim") /\
  BasicVaeModule.latent_dim a = default 32%Z (ns !! "latent_dim") /\
  BasicVaeModule.input_width a = default 28%Z (ns !! "input_width") /\
  BasicVaeModule.input_height a = default 28%Z (ns !! "input_height") /\
  BasicVaeModule.batch_size a
  = match ns !! "batch_size" with
    | Some _ => default 28%Z (ns !! "input_height")
    | None => 32%Z
    end.
Proof.
  unfold BasicVaeModule.__check_hparams, hasattr, getattr. simpl.
  destruct (ns !! "hidden_dim"), (ns !! "latent_dim"), (ns !! "input_width"),
    (ns !! "input_height"), (ns !! "batch_size"); simpl;
    intros [= <-]; done.
Qed.

(** A batch size without an input height cannot be read. *)
Lemma check_hparams_raises :
  BasicVaeModule.__check_hparams (Some (<["batch_size" := 64%Z]> ∅))
  = Raise AttributeError.
Proof. vm_compute. reflexivity. Qed.

(** C4, at hyperparameters of batch size 64 and input height 28: the
    module's [batch_size] is set to 28, the value of
    [hparams.input_height], and not to [hparams.batch_size]; the other
    four fields take the values of their own attributes.  So do both
    modules. *)
Theorem check_hparams_batch_size_from_input_height :
  getattr hparams_ex "batch_size" = Ok 64%Z /\
  BasicVaeModule.__check_hparams hparams_ex
  = Ok (BasicVaeModule.MkAttrs 128 32 28 28 28) /\
  Template.__init__ hparams_ex = Ok (Template.MkAttrs 128 32 28 28 28).
Proof. vm_compute. repeat split; reflexivity. Qed.

End HparamsFacts.

(** ** The step logic of the two modules *)

Module EquivalenceFacts.
Import Torch.

(** C10: given the same encoder and decoder, the same batch and the
    same world (hence the same noise), [get_prior],
    [get_approx_posterior], [elbo_loss] and [_run_step] of the two
    modules return the same outcome and end in the same world. *)
Theorem step_logic_equivalent
    (encoder : tdata -> outcome (tdata * tdata))
    (decoder : tdata -> outcome tdata) :
  (forall z_mu z_std w,
     Template.get_prior z_mu z_std w = BasicVaeModule.get_prior z_mu z_std w) /\
  (forall z_mu z_std w,
     Template.get_approx_posterior z_mu z_std w
     = BasicVaeModule.get_approx_posterior z_mu z_std w) /\
  (forall x P Q w,
     Template.elbo_loss decoder x P Q w
     = BasicVaeModule.elbo_loss decoder x P Q w) /\
  (forall batch w,
     Template._run_step encoder decoder batch w
     = BasicVaeModule._run_step encoder decoder batch w).
Proof.
  rewrite Shared.template_get_prior, Shared.template_get_approx_posterior,
    Shared.template_elbo_loss, Shared.template_run_step.
  by repeat split.
Qed.

End EquivalenceFacts.

(** ** Epoch aggregation *)

Module EpochFacts.
Import Torch TorchFacts Values ValueFacts StepFacts Examples.
Local Open Scope R_scope.

Lemma mapM_run {A B} (f : A -> M B) (l : list A) (bs : list B) w :
  Forall2 (fun a b => f a w = (Ok b, w)) l bs -> mapM f l w = (Ok bs, w).
Proof.
  induction 1 as [|a b l bs Ha _ IH]; [done|].
  simpl. unfold mbind, M_bind, bind. rewrite Ha.
  change (mapM f l w) with (mapM f l w). rewrite IH. done.
Qed.

Lemma metric_tensors w key (os : list (gmap string value)) (vs : list R) :
  Forall2 (fun o v => metric w o key v) os vs ->
  exists ts, Forall2 (fun o t => o !! key = Some (VTensor t)) os ts /\
             Forall2 (fun t v => sizes t = [] /\ stored w t [v]) ts vs.
Proof.
  induction 1 as [|o v os vs (t & Hk & Hs & Ht) _ (ts & IH1 & IH2)].
  - exists []. by split.
  - exists (t :: ts). split; by constructor.
Qed.

Lemma metric_grows w w' o key v :
  metric w o key v -> grows w w' -> metric w' o key v.
Proof.
  intros (t & Hk & Hs & Ht) Hg. exists t. eauto using stored_grows.
Qed.

Lemma wp_mapM_getitem key (os : list (gmap string value)) ts w Φ :
  Forall2 (fun o t => o !! key = Some (VTensor t)) os ts ->
  Φ (map VTensor ts) w -> wp (mapM (fun x => getitem x key) os) w Φ.
Proof.
  intros H HΦ. unfold wpx. rewrite (mapM_run _ _ (map VTensor ts)); [done|].
  apply Forall2_fmap_r. eapply Forall2_impl; [exact H|].
  intros o t Hk. unfold getitem. by rewrite Hk.
Qed.

Lemma mapM_as_tensor (ts : list tensor) :
  mapM as_tensor (map VTensor ts) = Some ts.
Proof. induction ts as [|t ts IH]; [done|]. cbn. by rewrite IH. Qed.

Lemma concat_singletons (vs : list R) : concat (map (fun v => [v]) vs) = vs.
Proof. induction vs as [|v vs IH]; simpl; [done | by rewrite IH]. Qed.

Lemma wp_stack_scalars ts vs w Φ :
  ts <> [] ->
  Forall2 (fun t v => sizes t = [] /\ stored w t [v]) ts vs ->
  fresh w [length ts] vs (rng w) Φ ->
  wp (stack (map VTensor ts)) w Φ.
Proof.
  intros Hne H HΦ. unfold stack. rewrite mapM_as_tensor.
  destruct ts as [|t0 ts']; [done|].
  assert (sizes t0 = []) as Ht0 by (inversion H; tauto).
  rewrite decide_True.
  2: { rewrite Ht0. eapply Forall2_Forall_l; [exact H|].
       apply Forall_true. tauto. }
  apply wp_bind. unfold wpx at 1.
  rewrite (mapM_run _ _ (map (fun v => [v]) vs)).
  - rewrite concat_singletons, Ht0. by apply wp_alloc.
  - apply Forall2_fmap_r. eapply Forall2_impl; [exact H|].
    intros t v [_ Ht]. unfold load. unfold stored in Ht. by rewrite Ht.
Qed.

Lemma numel_rows (ts : list tensor) : ts <> [] -> numel [length ts] <> 0%nat.
Proof. destruct ts; [done | simpl; lia]. Qed.

Lemma average_stacked (ts : list tensor) (vs : list R) (P : tensor -> R -> Prop) :
  Forall2 P ts vs -> Rsum vs / INR (numel [length ts]) = average vs.
Proof.
  intros H. unfold average. simpl.
  by rewrite Nat.mul_1_r, (Forall2_length _ _ _ H).
Qed.

(** One metric of an epoch: collect its tensors from the records,
    stack them and take the mean. *)
Ltac aggregate Hm Ha :=
  let ts := fresh "ts" in
  let Hk := fresh "Hk" in
  let Hv := fresh "Hv" in
  let Hne := fresh "Hne" in
  destruct (metric_tensors _ _ _ _ Hm) as (ts & Hk & Hv);
  assert (ts <> []) as Hne
    by (intros ->; apply Forall2_nil_inv_r in Hk; congruence);
  apply wp_bind; eapply wp_mapM_getitem; [exact Hk|];
  apply wp_bind; eapply wp_stack_scalars; [exact Hne | exact Hv |];
  let st := fresh "st" in
  let w' := fresh "w" in
  let Hg := fresh "Hg" in
  let Hr := fresh "Hr" in
  let Hb := fresh "Hb" in
  let Hs := fresh "Hs" in
  let Ht := fresh "Ht" in
  intros st w' Hg Hr Hb Hs Ht;
  apply wp_bind; eapply wp_mean;
  [exact Ht | rewrite Hs; by apply numel_rows |];
  rewrite Hs, (average_stacked _ _ _ Hv);
  clear ts Hk Hv Hne Hs Ht;
  let w'' := fresh "w" in
  let Hg' := fresh "Hg" in
  let Hr' := fresh "Hr" in
  let Hb' := fresh "Hb" in
  let Hs' := fresh "Hs" in
  intros Ha w'' Hg' Hr' Hb' Hs' ?;
  carry Hg Hr Hb; carry Hg' Hr' Hb'.

Section epoch_end.
Variables (w : World) (outputs : list (gmap string value))
          (recs : list (R * R * R)).
Hypothesis nonempty : outputs <> [].

Lemma validation_epoch_end_run :
  Forall2 (fun o v => metric w o "val_loss" v) outputs (losses recs) ->
  Forall2 (fun o v => metric w o "val_recon_loss" v) outputs (recons recs) ->
  Forall2 (fun o v => metric w o "val_kl_div" v) outputs (kls recs) ->
  wp (BasicVaeModule.validation_epoch_end outputs) w
     (fun res w' =>
        grows w w' /\ rng w' = rng w /\
        metric w' res "avg_val_loss" (average (losses recs)) /\
        logged w' res "val_elbo_loss" (average (losses recs)) /\
        logged w' res "val_recon_loss" (average (recons recs)) /\
        logged w' res "val_kl_loss" (average (kls recs))).
Proof.
  intros Hloss Hrec Hkl. unfold BasicVaeModule.validation_epoch_end.
  aggregate Hloss avg_loss.
  eapply Forall2_impl in Hrec;
    [|intros ? ? Hm; exact (metric_grows _ _ _ _ _ Hm Hg)].
  aggregate Hrec recon_loss.
  eapply Forall2_impl in Hkl;
    [|intros ? ? Hm; exact (metric_grows _ _ _ _ _ Hm Hg)].
  aggregate Hkl kl_loss.
  apply wp_ret. split; [done|]. split; [done|].
  split; [|repeat split]; eexists; eauto 10.
Qed.

Lemma test_epoch_end_run :
  Forall2 (fun o v => metric w o "test_loss" v) outputs (losses recs) ->
  Forall2 (fun o v => metric w o "test_recon_loss" v) outputs (recons recs) ->
  Forall2 (fun o v => metric w o "test_kl_div" v) outputs (kls recs) ->
  wp (BasicVaeModule.test_epoch_end outputs) w
     (fun res w' =>
        grows w w' /\ rng w' = rng w /\
        metric w' res "avg_test_loss" (average (losses recs)) /\
        logged w' res "test_elbo_loss" (average (losses recs)) /\
        logged w' res "test_recon_loss" (average (recons recs)) /\
        logged w' res "test_kl_loss" (average (kls recs))).
Proof.
  intros Hloss Hrec Hkl. unfold BasicVaeModule.test_epoch_end.
  aggregate Hloss avg_loss.
  eapply Forall2_impl in Hrec;
    [|intros ? ? Hm; exact (metric_grows _ _ _ _ _ Hm Hg)].
  aggregate Hrec recon_loss.
  eapply Forall2_impl in Hkl;
    [|intros ? ? Hm; exact (metric_grows _ _ _ _ _ Hm Hg)].
  aggregate Hkl kl_loss.
  apply wp_ret. split; [done|]. split; [done|].
  split; [|repeat split]; eexists; eauto 10.
Qed.
End epoch_end.

Lemma metric_example (key : string) (o : gmap string value) (t : tensor) (v : R) :
  o !! key = Some (VTensor t) -> sizes t = [] -> stored w_rec t [v] ->
  metric w_rec o key v.
Proof. intros. by exists t. Qed.

(** C8: epoch aggregation fails on the empty list of per-batch
    records ([torch.stack] raises), and on every non-empty list it
    returns the arithmetic mean of each metric over all batches. *)
Theorem epoch_end_needs_batches
    (w : World) (outputs : list (gmap string value)) (recs : list (R * R * R)) :
  (outputs = [] ->
   BasicVaeModule.validation_epoch_end outputs w = (Raise RuntimeError, w) /\
   Template.test_epoch_end outputs w = (Raise RuntimeError, w))
  /\
  (outputs <> [] ->
   (Forall2 (fun o v => metric w o "val_loss" v) outputs (losses recs) ->
    Forall2 (fun o v => metric w o "val_recon_loss" v) outputs (recons recs) ->
    Forall2 (fun o v => metric w o "val_kl_div" v) outputs (kls recs) ->
    wp (BasicVaeModule.validation_epoch_end outputs) w
       (fun res w' =>
          metric w' res "avg_val_loss" (Rsum (losses recs) / INR (length outputs)) /\
          logged w' res "val_elbo_loss" (Rsum (losses recs) / INR (length outputs)) /\
          logged w' res "val_recon_loss" (Rsum (recons recs) / INR (length outputs)) /\
          logged w' res "val_kl_loss" (Rsum (kls recs) / INR (length outputs))))
   /\
   (Forall2 (fun o v => metric w o "test_loss" v) outputs (losses recs) ->
    Forall2 (fun o v => metric w o "test_recon_loss" v) outputs (recons recs) ->
    Forall2 (fun o v => metric w o "test_kl_div" v) outputs (kls recs) ->
    wp (Template.test_epoch_end outputs) w
       (fun res w' =>
          metric w' res "avg_test_loss" (Rsum (losses recs) / INR (length outputs)) /\
          logged w' res "test_elbo_loss" (Rsum (losses recs) / INR (length outputs)) /\
          logged w' res "test_recon_loss" (Rsum (recons recs) / INR (length outputs)) /\
          logged w' res "test_kl_loss" (Rsum (kls recs) / INR (length outputs))))).
Proof.
  split.
  - intros ->. by split.
  - intros Hne.
    split; intros Hl Hr Hk.
    + pose proof (Forall2_length _ _ _ Hl) as E1.
      pose proof (Forall2_length _ _ _ Hr) as E2.
      pose proof (Forall2_length _ _ _ Hk) as E3.
      eapply wp_mono; [by apply (validation_epoch_end_run w outputs recs)|].
      intros res w' (_ & _ & H). unfold average in H.
      by rewrite <- E1, <- E2, <- E3 in H.
    + pose proof (Forall2_length _ _ _ Hl) as E1.
      pose proof (Forall2_length _ _ _ Hr) as E2.
      pose proof (Forall2_length _ _ _ Hk) as E3.
      rewrite Shared.template_test_epoch_end.
      eapply wp_mono; [by apply (test_epoch_end_run w outputs recs)|].
      intros res w' (_ & _ & H). unfold average in H.
      by rewrite <- E1, <- E2, <- E3 in H.
Qed.

Lemma epoch_end_needs_batches_witness :
  BasicVaeModule.validation_epoch_end [] w_rec = (Raise RuntimeError, w_rec) /\
  wp (Template.test_epoch_end [test_rec]) w_rec
     (fun res w' =>
        metric w' res "avg_test_loss" (Rsum (losses [(3, 2, 1)]) / INR 1) /\
        logged w' res "test_elbo_loss" (Rsum (losses [(3, 2, 1)]) / INR 1) /\
        logged w' res "test_recon_loss" (Rsum (recons [(3, 2, 1)]) / INR 1) /\
        logged w' res "test_kl_loss" (Rsum (kls [(3, 2, 1)]) / INR 1)).
Proof.
  split.
  - apply (epoch_end_needs_batches w_rec [] []). reflexivity.
  - apply (epoch_end_needs_batches w_rec [test_rec] [(3, 2, 1)]);
      [discriminate | ..];
      repeat constructor; eapply metric_example; reflexivity.
Defined.

End EpochFacts.

(** ** Runs on binary32 tensors *)

Module RunFacts.
Import F32 BasicVaeF32 RoundFacts ExpFacts.

Lemma run32_bind {A B} (m : M A) (f : A -> M B) w :
  (m ≫= f) w
  = match m w with
    | (Ok a, w') => f a w'
    | (Raise e, w') => (Raise e, w')
    | (Unmodelled, w') => (Unmodelled, w')
    end.
Proof. reflexivity. Qed.

Lemma silent_ret {A} (a : A) : silent (mret a : M A).
Proof. by intros w. Qed.

Lemma silent_lift {A} (o : outcome A) : silent (lift o).
Proof. by intros w. Qed.

Lemma silent_raise {A} e : silent (raise e : M A).
Proof. by intros w. Qed.

Lemma silent_unmodelled {A} : silent (unmodelled : M A).
Proof. by intros w. Qed.

Lemma silent_bind {A B} (m : M A) (f : A -> M B) :
  silent m -> (forall a, silent (f a)) -> silent (m ≫= f).
Proof.
  intros Hm Hf w. rewrite run32_bind. specialize (Hm w).
  destruct (m w) as [[a | e |] w']; simpl in *; [|done..].
  by rewrite Hf.
Qed.

Lemma silent_map2 f a b : silent (map2 f a b).
Proof. unfold map2. case_decide; [apply silent_ret | apply silent_unmodelled]. Qed.

Lemma silent_size t d : silent (size t d).
Proof. unfold size. destruct (sizes t !! d); [apply silent_ret | apply silent_raise]. Qed.

Lemma silent_view t shape : silent (view t shape).
Proof.
  unfold view. destruct (Torch.infer_size _ _);
    [apply silent_ret | apply silent_raise].
Qed.

Lemma silent_sum t dim : silent (sum t dim).
Proof.
  unfold sum. apply silent_bind; [apply silent_lift | intros; apply silent_ret].
Qed.

Lemma silent_binary_cross_entropy a b : silent (binary_cross_entropy a b).
Proof.
  unfold binary_cross_entropy. case_decide; [|apply silent_raise].
  destruct (forallb _ _); [apply silent_ret | apply silent_raise].
Qed.

Lemma silent_rsample d : silent (rsample d).
Proof. by intros w. Qed.

Lemma silent_log_prob d v : silent (log_prob d v).
Proof.
  unfold log_prob. case_decide; [apply silent_ret | apply silent_unmodelled].
Qed.

Lemma silent_elbo_loss decoder x P Q : silent (elbo_loss decoder x P Q).
Proof.
  unfold elbo_loss, forward, add, sub, mean.
  repeat first
    [ apply silent_ret | apply silent_lift | apply silent_rsample
    | apply silent_binary_cross_entropy | apply silent_sum
    | apply silent_log_prob | apply silent_map2
    | apply silent_bind; [|intros ?] ].
Qed.

Lemma div_scalar_run t c w :
  div_scalar t c w = (Ok (Tensor (sizes t) (map (fun v => div32 v c) (data t))), w).
Proof. reflexivity. Qed.

Lemma exp_run t w : exp t w = (Ok (Tensor (sizes t) (map exp32 (data t))), w).
Proof. reflexivity. Qed.

Lemma Normal_run l s w :
  sizes l = sizes s ->
  Normal l s w
  = (Ok (MkNormal l s), MkWorld (rng w) (handed w ++ [(l, s)])).
Proof.
  intros Hs. unfold Normal, note_handed, mbind, M_bind, bind. simpl.
  by rewrite decide_True.
Qed.

Lemma get_prior_run z_mu z_std w :
  sizes z_mu = sizes z_std ->
  let zeros := Tensor (sizes z_mu) (map (fun _ => zero) (data z_mu)) in
  let ones := Tensor (sizes z_std) (map (fun _ => one) (data z_std)) in
  get_prior z_mu z_std w
  = (Ok (MkNormal zeros ones),
     MkWorld (rng w) (handed w ++ [(zeros, ones)])).
Proof.
  intros Hs zeros ones. unfold get_prior, mbind, M_bind, bind. simpl.
  fold zeros ones. by rewrite Normal_run.
Qed.

Lemma get_approx_posterior_run z_mu z_std w :
  sizes z_mu = sizes z_std ->
  get_approx_posterior z_mu z_std w
  = (Ok (MkNormal z_mu z_std),
     MkWorld (rng w) (handed w ++ [(z_mu, z_std)])).
Proof.
  intros Hs. unfold get_approx_posterior, mbind, M_bind, bind.
  by rewrite Normal_run.
Qed.

(** The calls of [Normal] in a step: for the prior, then for the
    posterior with the standard deviation [exp (log_var / 2)]. *)
Lemma run_step_handed encoder decoder (x y mu lv : tensor) (w : World) :
  encoder x = Ok (mu, lv) -> sizes lv = sizes mu ->
  let std := map exp32 (map (fun v => div32 v two) (data lv)) in
  handed (_run_step encoder decoder (x, y) w).2
  = handed w
    ++ [(Tensor (sizes mu) (map (fun _ => zero) (data mu)),
         Tensor (sizes lv) (map (fun _ => one) std));
        (mu, Tensor (sizes lv) std)].
Proof.
  intros Henc Hs std. unfold _run_step.
  rewrite run32_bind. unfold lift at 1. rewrite Henc. cbv beta iota.
  rewrite run32_bind, div_scalar_run. cbv beta iota.
  rewrite run32_bind, exp_run. cbv beta iota.
  rewrite run32_bind, get_prior_run by done. cbv beta iota zeta.
  rewrite run32_bind, get_approx_posterior_run by done. cbv beta iota.
  match goal with
  | |- handed (?m ?w').2 = _ =>
      assert (silent m) as Hq
  end.
  { repeat first
      [ apply silent_ret | apply silent_size | apply silent_view
      | apply silent_elbo_loss
      | apply silent_bind; [|intros ?]
      | match goal with |- silent (let '(_, _) := ?p in _) => destruct p end ]. }
  rewrite Hq. simpl. by rewrite <- app_assoc.
Qed.

End RunFacts.

(** ** Properties that depend on rounding *)

Module RoundingFacts.
Import F32 BasicVaeF32 RoundFacts ExpFacts RunFacts Examples32.

Lemma clamp_log_one : clamp_log one = zero.
Proof. unfold clamp_log. rewrite log32_one. reflexivity. Qed.

(** The binary cross-entropy against a reconstruction of 0. *)
Lemma bce_zero y :
  bce zero y = sub32 (mul32 (sub32 y one) zero) (mul32 y (of_Z (-100))).
Proof.
  unfold bce. change (sub32 one zero) with one. rewrite clamp_log_one.
  reflexivity.
Qed.

(** The log-density of a normal distribution of unit scale. *)
Lemma normal_log_prob_unit m v :
  normal_log_prob m one v
  = sub32 (sub32 (div32 (neg32 (mul32 (sub32 v m) (sub32 v m))) two) zero) log_sqrt_2pi.
Proof. unfold normal_log_prob. rewrite log32_one. reflexivity. Qed.

(** The values [elbo_loss] returns on the example batch. *)
Lemma elbo_loss_example :
  elbo_loss decoder_dark x32 prior32 posterior32 w32
  = (Ok (scalar (S754_finite false 9231728 (-16)),
         scalar (S754_finite false 9175040 (-16)),
         scalar (S754_finite false 14512292 (-24)),
         Tensor [2; 2]%nat [zero; zero; zero; zero]),
     MkWorld (MkGenerator (fun n => nth n noise32 zero) 4) []).
Proof.
  lazy -[bce normal_log_prob reparam add32 sub32 mul32 div32].
  rewrite !bce_zero.
  change (S754_finite false 8388608 (-23)) with one.
  rewrite !normal_log_prob_unit.
  vm_compute. reflexivity.
Qed.

(** Not C1 as stated: on the example batch the loss [elbo_loss]
    returns is 9231728 * 2^-16, while the recon_loss and the kl_div it
    returns are 140 and 14512292 * 2^-24; their binary32 sum is
    9231729 * 2^-16, and their exact sum is not the loss either. *)
Lemma elbo_loss_not_sum :
  let l := S754_finite false 9231728 (-16) in
  let r := S754_finite false 9175040 (-16) in
  let k := S754_finite false 14512292 (-24) in
  (exists pxz w',
     elbo_loss decoder_dark x32 prior32 posterior32 w32
     = (Ok (scalar l, scalar r, scalar k, pxz), w')) /\
  add32 r k = S754_finite false 9231729 (-16) /\
  eqb32 l (add32 r k) = false /\
  (to_R l <> to_R r + to_R k)%R.
Proof.
  cbv zeta. split; [eexists _, _; apply elbo_loss_example|].
  split; [vm_compute; reflexivity|].
  split; [vm_compute; reflexivity|].
  unfold to_R. simpl. lra.
Qed.

(** *** The standard deviation of the posterior *)

Lemma Forall2_map_same {A B} (P : A -> B -> Prop) (f : A -> B) (l : list A) :
  (forall a, P a (f a)) -> Forall2 P l (map f l).
Proof. intros H. induction l; simpl; by constructor. Qed.

(** C5, as binary32 has it: when the encoder returns a mean and a
    log-variance of the same sizes, [_run_step], however it ends,
    calls [Normal] for the prior and then for the posterior, and the
    standard deviation it hands over for the posterior is
    [exp (log_var / 2)] at every element; this is strictly positive
    where [log_var / 2] is a number of at least -103, and it is zero
    where [log_var / 2] is -105 or less. *)
Theorem run_step_posterior_std
    (encoder : tensor -> outcome (tensor * tensor))
    (decoder : tensor -> outcome tensor) (x y mu lv : tensor) (w : World) :
  encoder x = Ok (mu, lv) -> sizes lv = sizes mu ->
  let run := _run_step encoder decoder (x, y) w in
  let half := map (fun v => div32 v two) (data lv) in
  let std := map exp32 half in
  handed run.2
  = handed w
    ++ [(Tensor (sizes mu) (map (fun _ => zero) (data mu)),
         Tensor (sizes lv) (map (fun _ => one) std));
        (mu, Tensor (sizes lv) std)] /\
  Forall2 (fun h s =>
             finite h = true ->
             ((-103 <= to_R h)%R -> ltb32 zero s = true) /\
             ((to_R h <= -105)%R -> s = zero))
          half std.
Proof.
  intros Henc Hs run half std. split.
  - by apply run_step_handed.
  - apply Forall2_map_same. intros h Hh. split; intros Hr.
    + by apply exp32_positive.
    + by apply exp32_underflow.
Qed.

Lemma run_step_posterior_std_witness :
  let run := _run_step encoder_mild decoder_1x4 (image32, label32) w32 in
  let mu := Tensor [1; 2]%nat [ratio 1 2; ratio (-3) 10] in
  let half := map (fun v => div32 v two) [of_Z (-2); of_Z 4] in
  let std := map exp32 half in
  handed run.2
  = handed w32
    ++ [(Tensor [1; 2]%nat (map (fun _ => zero) (data mu)),
         Tensor [1; 2]%nat (map (fun _ => one) std));
        (mu, Tensor [1; 2]%nat std)] /\
  Forall2 (fun h s =>
             finite h = true ->
             ((-103 <= to_R h)%R -> ltb32 zero s = true) /\
             ((to_R h <= -105)%R -> s = zero))
          half std.
Proof.
  apply (run_step_posterior_std encoder_mild decoder_1x4 image32 label32
           (Tensor [1; 2]%nat [ratio 1 2; ratio (-3) 10])
           (Tensor [1; 2]%nat [of_Z (-2); of_Z 4]) w32);
    reflexivity.
Defined.

(** Not C5 as stated: for the encoder output with a log-variance of
    -400, the standard deviation [_run_step] hands to the posterior
    construction is 0 at that element, which is not strictly
    positive. *)
Lemma run_step_std_zero :
  let run := _run_step encoder_cold decoder_1x4 (image32, label32) w32 in
  exists prior mu,
    handed run.2 = [prior; (mu, Tensor [1; 2]%nat [zero; one])] /\
    ltb32 zero zero = false.
Proof.
  cbv zeta. eexists _, _. split; [|reflexivity].
  rewrite (run_step_handed encoder_cold decoder_1x4 image32 label32
             (Tensor [1; 2]%nat [ratio 1 2; ratio (-3) 10])
             (Tensor [1; 2]%nat [of_Z (-400); zero]) w32)
    by reflexivity.
  cbn [data sizes map].
  change (div32 (of_Z (-400)) two) with (of_Z (-200)).
  change (div32 zero two) with zero.
  rewrite (exp32_underflow (of_Z (-200))).
  - by rewrite exp32_zero.
  - done.
  - unfold to_R. simpl. lra.
Qed.

(** *** Means of identical records *)

Lemma eqb32_refl s m e : eqb32 (S754_finite s m e) (S754_finite s m e) = true.
Proof.
  unfold eqb32, SFeqb, SFcompare. rewrite Z.compare_refl.
  rewrite Pos.compare_cont_refl. by destruct s.
Qed.

Lemma canonical_digits m e :
  canonical_mantissa prec emax m e = true ->
  (Zpos (digits2_pos m) = 24 /\ -149 <= e)%Z \/
  (Zpos (digits2_pos m) < 24 /\ e = -149)%Z.
Proof.
  unfold canonical_mantissa, SpecFloat.fexp, emin, prec, emax.
  intros H%Z.eqb_eq. lia.
Qed.

(** The mean of one copy of a number is the number. *)
Lemma mean_one v :
  valid v = true -> finite v = true ->
  eqb32 (div32 (fsum [v]) (of_Z 1)) v = true.
Proof.
  intros Hv Hf. destruct v as [s | | | s m e]; try done.
  - by destruct s.
  - change (fsum [S754_finite s m e]) with (S754_finite s m e).
    change (of_Z 1) with (S754_finite false 8388608 (0 - 23)).
    unfold div32. rewrite (div_pow2 s m e 0 m 0).
    + replace (e - 0 + 0)%Z with e by lia. apply eqb32_refl.
    + lia.
    + lia.
    + replace (e - 0 + 0)%Z with e by lia. exact Hv.
Qed.

(** The mean of two copies of a number is the number, when their
    sum does not overflow. *)
Lemma mean_two v :
  valid v = true -> finite (fsum [v; v]) = true ->
  eqb32 (div32 (fsum [v; v]) (of_Z 2)) v = true.
Proof.
  intros Hv Hf. destruct v as [s | | | s m e]; try done.
  - by destruct s.
  - by destruct s.
  - change (fsum [S754_finite s m e; S754_finite s m e])
      with (SFadd prec emax (S754_finite s m e) (S754_finite s m e)) in *.
    change (of_Z 2) with (S754_finite false 8388608 (1 - 23)).
    unfold valid, valid_binary in Hv.
    destruct (bounded_canonical _ _ Hv) as [Hc He].
    destruct (canonical_digits _ _ Hc) as [[Hd Hlo] | [Hd ->]].
    + assert (canonical_mantissa prec emax m (e + 1) = true) as Hc1.
      { unfold canonical_mantissa, SpecFloat.fexp, emin, prec, emax in *.
        apply Z.eqb_eq. lia. }
      assert (Zpos m~0 = Zpos m * 2 ^ 1)%Z as Hm by (rewrite Z.pow_1_r; lia).
      pose proof (add_self s m e m 1 Hv Hm ltac:(lia) Hc1) as Ha.
      rewrite Ha in *.
      destruct (e + 1 <=? emax - prec)%Z eqn:E; [|done].
      unfold div32. rewrite (div_pow2 s m (e + 1) 1 m 0); try lia.
      * replace (e + 1 - 1 + 0)%Z with e by lia. apply eqb32_refl.
      * replace (e + 1 - 1 + 0)%Z with e by lia. exact Hv.
    + assert (canonical_mantissa prec emax m~0 (-149 + 0) = true) as Hc1.
      { unfold canonical_mantissa, SpecFloat.fexp, emin, prec, emax.
        apply Z.eqb_eq. simpl digits2_pos. lia. }
      assert (Zpos m~0 = Zpos m~0 * 2 ^ 0)%Z as Hm by lia.
      pose proof (add_self s m (-149) m~0 0 Hv Hm ltac:(lia) Hc1) as Ha.
      rewrite Ha in *. change (-149 + 0)%Z with (-149)%Z.
      change (-149 <=? emax - prec)%Z with true. cbv iota.
      assert (Zpos m~0 = Zpos m * 2 ^ 1)%Z as Hm' by (rewrite Z.pow_1_r; lia).
      unfold div32. rewrite (div_pow2 s m~0 (-149) 1 m 1 Hm'); try lia.
      * change (-149 - 1 + 1)%Z with (-149)%Z. apply eqb32_refl.
      * exact Hv.
Qed.


Lemma mapM_getitem_replicate (r : gmap string value) key v (n : nat) w :
  r !! key = Some v ->
  mapM (fun x => getitem x key) (replicate n r) w = (Ok (replicate n v), w).
Proof.
  intros Hr. induction n as [|n IH]; [done|].
  cbn [replicate mapM]. rewrite run32_bind. unfold getitem at 1. rewrite Hr.
  cbn. rewrite run32_bind, IH. done.
Qed.

Lemma mapM_as_tensor_replicate (t : tensor) (n : nat) :
  mapM as_tensor (replicate n (VTensor t)) = Some (replicate n t).
Proof. induction n as [|n IH]; [done|]. cbn. by rewrite IH. Qed.

Lemma concat_replicate_singleton {A} (a : A) (n : nat) :
  concat (replicate n [a]) = replicate n a.
Proof. induction n as [|n IH]; [done|]. simpl. by rewrite IH. Qed.

(** The mean of a metric over [n >= 1] copies of a record. *)
Lemma mean_of_replicate {B} (r : gmap string value) key v (n : nat) w
    (f : tensor -> M B) :
  (1 <= n)%nat -> holds r key v ->
  (vs ← mapM (fun x => getitem x key) (replicate n r);
   st ← stack vs; a ← mean st; f a) w
  = f (scalar (mean_of_copies n v)) w.
Proof.
  intros Hn Hr. rewrite run32_bind, (mapM_getitem_replicate r key _ n w Hr).
  cbv beta iota. rewrite run32_bind. unfold stack.
  rewrite mapM_as_tensor_replicate.
  destruct n as [|n]; [lia|]. cbn [replicate].
  rewrite decide_True by (apply Forall_replicate; done).
  cbn. unfold mean_of_copies, scalar. rewrite length_replicate.
  change map with (@fmap list _). rewrite fmap_replicate.
  cbn [data]. rewrite concat_replicate_singleton.
  rewrite run32_bind. unfold mean. cbn [sizes data].
  change (Torch.numel [S n]) with (S n * 1)%nat. by rewrite Nat.mul_1_r.
Qed.

(** What the epoch ends return on [n >= 1] copies of a record. *)
Lemma validation_epoch_end_replicate (r : gmap string value) l rc k n w :
  (1 <= n)%nat ->
  holds r "val_loss" l -> holds r "val_recon_loss" rc ->
  holds r "val_kl_div" k ->
  validation_epoch_end (replicate n r) w
  = (Ok (<["log" := VDict
            (<["val_kl_loss" := scalar (mean_of_copies n k)]>
               (<["val_recon_loss" := scalar (mean_of_copies n rc)]>
                  (<["val_elbo_loss" := scalar (mean_of_copies n l)]> ∅)))]>
           (<["avg_val_loss" := VTensor (scalar (mean_of_copies n l))]> ∅)),
     w).
Proof.
  intros Hn Hl Hrc Hk. unfold validation_epoch_end.
  rewrite (mean_of_replicate r "val_loss" l n w) by done.
  rewrite (mean_of_replicate r "val_recon_loss" rc n w) by done.
  rewrite (mean_of_replicate r "val_kl_div" k n w) by done.
  reflexivity.
Qed.

Lemma test_epoch_end_replicate (r : gmap string value) l rc k n w :
  (1 <= n)%nat ->
  holds r "test_loss" l -> holds r "test_recon_loss" rc ->
  holds r "test_kl_div" k ->
  test_epoch_end (replicate n r) w
  = (Ok (<["log" := VDict
            (<["test_kl_loss" := scalar (mean_of_copies n k)]>
               (<["test_recon_loss" := scalar (mean_of_copies n rc)]>
                  (<["test_elbo_loss" := scalar (mean_of_copies n l)]> ∅)))]>
           (<["avg_test_loss" := VTensor (scalar (mean_of_copies n l))]> ∅)),
     w).
Proof.
  intros Hn Hl Hrc Hk. unfold test_epoch_end.
  rewrite (mean_of_replicate r "test_loss" l n w) by done.
  rewrite (mean_of_replicate r "test_recon_loss" rc n w) by done.
  rewrite (mean_of_replicate r "test_kl_div" k n w) by done.
  reflexivity.
Qed.

Lemma mean_of_copies_exact (n : nat) (v : float32) :
  (1 <= n <= 2)%nat -> valid v = true ->
  finite (fsum (replicate n v)) = true ->
  eqb32 (mean_of_copies n v) v = true.
Proof.
  intros Hn Hv Hf. unfold mean_of_copies.
  destruct n as [|[|[|n]]]; try lia.
  - apply mean_one; [done|]. by destruct v as [| | |[]].
  - by apply mean_two.
Qed.

(** C7, for one and for two records: on [n] identical copies of a
    per-batch record of the scalars [l], [rc] and [k], where [n] is 1
    or 2, the scalars are binary32 numbers and the sum of their [n]
    copies does not overflow, [validation_epoch_end] and
    [test_epoch_end] return and log scalars equal to [l], [rc] and
    [k]. *)
Theorem epoch_end_one_or_two_records
    (n : nat) (r : gmap string value) (l rc k : float32) (w : World) :
  (1 <= n <= 2)%nat ->
  Forall (fun v => valid v = true /\ finite (fsum (replicate n v)) = true)
         [l; rc; k] ->
  (holds r "val_loss" l -> holds r "val_recon_loss" rc ->
   holds r "val_kl_div" k ->
   exists l' rc' k',
     validation_epoch_end (replicate n r) w
     = (Ok (<["log" := VDict
               (<["val_kl_loss" := scalar k']>
                  (<["val_recon_loss" := scalar rc']>
                     (<["val_elbo_loss" := scalar l']> ∅)))]>
              (<["avg_val_loss" := VTensor (scalar l')]> ∅)),
        w) /\
     eqb32 l' l = true /\ eqb32 rc' rc = true /\ eqb32 k' k = true)
  /\
  (holds r "test_loss" l -> holds r "test_recon_loss" rc ->
   holds r "test_kl_div" k ->
   exists l' rc' k',
     test_epoch_end (replicate n r) w
     = (Ok (<["log" := VDict
               (<["test_kl_loss" := scalar k']>
                  (<["test_recon_loss" := scalar rc']>
                     (<["test_elbo_loss" := scalar l']> ∅)))]>
              (<["avg_test_loss" := VTensor (scalar l')]> ∅)),
        w) /\
     eqb32 l' l = true /\ eqb32 rc' rc = true /\ eqb32 k' k = true).
Proof.
  intros Hn Hv.
  apply Forall_cons in Hv as [[Hl1 Hl2] Hv].
  apply Forall_cons in Hv as [[Hr1 Hr2] Hv].
  apply Forall_cons in Hv as [[Hk1 Hk2] _].
  split; intros Hl Hrc Hk;
    exists (mean_of_copies n l), (mean_of_copies n rc), (mean_of_copies n k).
  - split; [apply validation_epoch_end_replicate; done || lia|].
    repeat split; by apply mean_of_copies_exact.
  - split; [apply test_epoch_end_replicate; done || lia|].
    repeat split; by apply mean_of_copies_exact.
Qed.

Lemma epoch_end_one_or_two_records_witness :
  exists l' rc' k',
    validation_epoch_end (replicate 2 val_rec32) w32
    = (Ok (<["log" := VDict
              (<["val_kl_loss" := scalar k']>
                 (<["val_recon_loss" := scalar rc']>
                    (<["val_elbo_loss" := scalar l']> ∅)))]>
             (<["avg_val_loss" := VTensor (scalar l')]> ∅)),
       w32) /\
    eqb32 l' loss32 = true /\ eqb32 rc' (of_Z 60) = true /\
    eqb32 k' (ratio 5 8) = true.
Proof.
  apply (proj1 (epoch_end_one_or_two_records 2 val_rec32 loss32 (of_Z 60)
                  (ratio 5 8) w32 ltac:(lia)
                  ltac:(repeat constructor; reflexivity)));
    reflexivity.
Defined.

(** Not C7 as stated: on three copies of a record whose loss is
    15902298 * 2^-18, [validation_epoch_end] and [test_epoch_end]
    return the average loss 15902299 * 2^-18. *)
Lemma epoch_end_three_records :
  let avg := S754_finite false 15902299 (-18) in
  (exists res,
     validation_epoch_end (replicate 3 val_rec32) w32 = (Ok res, w32) /\
     res !! "avg_val_loss" = Some (VTensor (scalar avg))) /\
  (exists res,
     test_epoch_end (replicate 3 test_rec32) w32 = (Ok res, w32) /\
     res !! "avg_test_loss" = Some (VTensor (scalar avg))) /\
  holds val_rec32 "val_loss" loss32 /\ holds test_rec32 "test_loss" loss32 /\
  eqb32 avg loss32 = false.
Proof.
  cbv zeta. split; [|split; [|repeat split]].
  - eexists. split.
    + apply (validation_epoch_end_replicate val_rec32 loss32 (of_Z 60)
               (ratio 5 8) 3 w32); [lia | reflexivity..].
    + reflexivity.
  - eexists. split.
    + apply (test_epoch_end_replicate test_rec32 loss32 (of_Z 60)
               (ratio 5 8) 3 w32); [lia | reflexivity..].
    + reflexivity.
Qed.

End RoundingFacts.

(** ** More on hyperparameters *)

Module HparamsMore.
Import Examples.

Lemma hasattr_attr (hp : object) (name : string) :
  hasattr hp name = bool_decide (is_Some (hp ≫= (.!! name))).
Proof. by destruct hp. Qed.

Lemma getattr_attr (hp : object) (name : string) :
  getattr hp name = match hp ≫= (.!! name) with
                    | Some v => Ok v
                    | None => Raise AttributeError
                    end.
Proof. done. Qed.

(** Case analysis on the five attributes the modules look at. *)
Ltac attrs hp :=
  rewrite ?hasattr_attr, ?getattr_attr;
  destruct (hp ≫= (.!! "hidden_dim")), (hp ≫= (.!! "latent_dim")),
    (hp ≫= (.!! "input_width")), (hp ≫= (.!! "input_height")),
    (hp ≫= (.!! "batch_size")); simpl.

(** X1: [__check_hparams] fails on exactly one kind of input:
    hyperparameters that have a [batch_size] but no [input_height], on
    which reading [hparams.input_height] raises [AttributeError].  On
    every other input, [None] included, it returns. *)
Theorem check_hparams_raises_iff (hp : object) :
  (BasicVaeModule.__check_hparams hp = Raise AttributeError <->
   hasattr hp "batch_size" = true /\ hasattr hp "input_height" = false) /\
  ((hasattr hp "batch_size" = true /\ hasattr hp "input_height" = false) \/
   exists a, BasicVaeModule.__check_hparams hp = Ok a).
Proof.
  unfold BasicVaeModule.__check_hparams.
  attrs hp; repeat split; try (intros [? ?]); try done;
    try (right; by eexists); by left.
Qed.

(** X2: when [__check_hparams] returns, each of [hidden_dim],
    [latent_dim], [input_width] and [input_height] is the attribute of
    that name, or its default when [hparams] lacks it; [batch_size] is
    the resolved [input_height] when [hparams] has a [batch_size], and
    32 otherwise. *)
Theorem check_hparams_resolution (hp : object) (a : BasicVaeModule.Attrs) :
  BasicVaeModule.__check_hparams hp = Ok a ->
  BasicVaeModule.hidden_dim a = default 128%Z (hp ≫= (.!! "hidden_dim")) /\
  BasicVaeModule.latent_dim a = default 32%Z (hp ≫= (.!! "latent_dim")) /\
  BasicVaeModule.input_width a = default 28%Z (hp ≫= (.!! "input_width")) /\
  BasicVaeModule.input_height a = default 28%Z (hp ≫= (.!! "input_height")) /\
  BasicVaeModule.batch_size a
  = (if hasattr hp "batch_size" then BasicVaeModule.input_height a else 32%Z).
Proof.
  unfold BasicVaeModule.__check_hparams.
  attrs hp; intros [= <-]; done.
Qed.

Lemma check_hparams_resolution_witness :
  BasicVaeModule.batch_size (BasicVaeModule.MkAttrs 128 32 28 28 28)
  = (if hasattr hparams_ex "batch_size"
     then BasicVaeModule.input_height (BasicVaeModule.MkAttrs 128 32 28 28 28)
     else 32%Z).
Proof.
  apply (check_hparams_resolution hparams_ex
           (BasicVaeModule.MkAttrs 128 32 28 28 28)).
  vm_compute. reflexivity.
Defined.

(** X3: the value of [hparams.batch_size] has no influence on what
    [__check_hparams] and [__init__] compute: only its presence is
    looked at. *)
Theorem check_hparams_ignores_batch_size (ns : gmap string Z) (v v' : Z) :
  BasicVaeModule.__check_hparams (Some (<["batch_size" := v]> ns))
  = BasicVaeModule.__check_hparams (Some (<["batch_size" := v']> ns)) /\
  Template.__init__ (Some (<["batch_size" := v]> ns))
  = Template.__init__ (Some (<["batch_size" := v']> ns)).
Proof.
  unfold BasicVaeModule.__check_hparams, Template.__init__, hasattr, getattr.
  simpl. rewrite !lookup_insert_eq.
  rewrite !(lookup_insert_ne _ "batch_size") by done. done.
Qed.

(** X4: the two modules resolve hyperparameters alike: lines 23-27
    of the template's [__init__] compute the five values
    [__check_hparams] computes, and fail with [AttributeError] where
    it does.  (What the constructor calls that follow in [__init__] do
    is not covered.) *)
Theorem template_init_as_check_hparams (hp : object) :
  Template.__init__ hp
  = (a ← BasicVaeModule.__check_hparams hp;
     Ok (Template.MkAttrs (BasicVaeModule.hidden_dim a)
           (BasicVaeModule.latent_dim a) (BasicVaeModule.input_width a)
           (BasicVaeModule.input_height a) (BasicVaeModule.batch_size a))).
Proof.
  unfold BasicVaeModule.__check_hparams, Template.__init__.
  by attrs hp.
Qed.

End HparamsMore.

(** ** More on the ELBO step *)

Module StepMore.
Import Torch TorchFacts Values ValueFacts StepFacts Examples.
Local Open Scope R_scope.

Lemma post_bind_ok {A B} (m : M B) (f : B -> M A) w Ψ :
  wp m w (fun b w' => post (f b) w' Ψ) -> post (m ≫= f) w Ψ.
Proof.
  unfold wpx, post, mbind, M_bind, bind. by destruct (m w) as [[b| |] w'].
Qed.

Lemma nth_map_lt {A} (f : A -> R) (l : list A) (n : nat) (d : A) :
  (n < length l)%nat -> nth n (map f l) 0 = f (nth n l d).
Proof.
  revert n. induction l as [|a l IH]; intros [|n] Hn; simpl in *;
    try lia; [done|]. apply IH. lia.
Qed.

Lemma length_stds LV : length (stds LV) = length LV.
Proof. unfold stds. by rewrite !length_map. Qed.

Lemma nth_stds LV n :
  (n < length LV)%nat -> nth n (stds LV) 0 = Rtrigo_def.exp (nth n LV 0 / 2).
Proof.
  intros Hn. unfold stds.
  rewrite (nth_map_lt _ _ _ 0) by (by rewrite length_map).
  by rewrite (nth_map_lt _ _ _ 0).
Qed.

(** The KL term of one latent element, for a standard normal prior
    and a posterior of log-variance [lv]: the normalisation constants
    cancel. *)
Lemma kl_term_closed (m lv eps : R) :
  let s := Rtrigo_def.exp (lv / 2) in
  let z := m + eps * s in
  normal_log_prob m s z - normal_log_prob 0 1 z
  = (z ^ 2 - eps ^ 2) / 2 - lv / 2.
Proof.
  intros s z. unfold normal_log_prob.
  assert (0 < s) as Hs by apply exp_pos.
  replace (ln s) with (lv / 2) by (unfold s; by rewrite ln_exp).
  rewrite ln_1. unfold z. field. lra.
Qed.

(** The per-sample KL term of [_run_step], by index. *)
Lemma kl_at_run_step (B D : nat) (MU LV : list R) (g : Generator) (i : nat) :
  length MU = (B * D)%nat -> length LV = (B * D)%nat -> (i < B)%nat ->
  kl_at D (map (fun _ => 0) MU) (map (fun _ => 1) (stds LV)) MU (stds LV)
        (latent B D MU (stds LV) g) i
  = big_sum D (fun d =>
      let n := (i * D + d)%nat in
      let eps := stream g (offset g + n) in
      let z := nth n MU 0 + eps * Rtrigo_def.exp (nth n LV 0 / 2) in
      (z ^ 2 - eps ^ 2) / 2 - nth n LV 0 / 2).
Proof.
  intros HMU HLV Hi. unfold kl_at. apply big_sum_ext. intros d Hd. cbv zeta.
  assert (i * D + d < B * D)%nat as Hn by (apply (index_in_range B); lia).
  rewrite (nth_latent B D) by (rewrite ?length_stds; lia).
  rewrite (nth_map_lt _ _ _ 0) by lia.
  rewrite (nth_map_lt _ _ _ 0) by (rewrite length_stds; lia).
  rewrite nth_stds by lia. apply kl_term_closed.
Qed.



Lemma batch_mean_const (B : nat) (c : R) :
  B <> 0%nat -> batch_mean B (map (fun _ : nat => c) (seq 0 B)) = c.
Proof.
  intros HB. rewrite batch_mean_rows, big_sum_const. field.
  by apply not_0_INR.
Qed.

(** X5: [get_prior] returns the standard normal of the sizes of its
    arguments, whatever their elements: a [loc] of zeros and a [scale]
    of ones, on two new storages, leaving every tensor of the store as
    it was and drawing no noise. *)
Theorem get_prior_standard_normal
    (z_mu z_std : tensor) (MU STD : list R) (w : World) :
  stored w z_mu MU -> stored w z_std STD -> sizes z_mu = sizes z_std ->
  exists P w',
    BasicVaeModule.get_prior z_mu z_std w = (Ok P, w') /\
    stored w' (loc P) (replicate (length MU) 0) /\
    stored w' (scale P) (replicate (length STD) 1) /\
    sizes (loc P) = sizes z_mu /\ sizes (scale P) = sizes z_std /\
    heap w !! storage (loc P) = None /\
    heap w !! storage (scale P) = None /\
    storage (loc P) <> storage (scale P) /\
    rng w' = rng w /\
    forall t e, stored w t e -> stored w' t e.
Proof.
  unfold stored. intros Hmu Hstd Hsz.
  assert (forall (c : R) (l : list R),
            map (fun _ => c) l = replicate (length l) c) as Hconst.
  { intros c l. induction l as [|a l IH]; simpl; [done | by rewrite IH]. }
  set (zeros := map (fun _ : R => 0) MU).
  set (ones := map (fun _ : R => 1) STD).
  set (h1 := heap w ++ [zeros]).
  assert ((h1 ++ [ones]) !! length (heap w) = Some zeros) as E1.
  { unfold h1. rewrite <- app_assoc. by apply list_lookup_middle. }
  assert ((h1 ++ [ones]) !! length h1 = Some ones) as E2
    by (by apply list_lookup_middle).
  exists (MkNormal (Tensor (length (heap w)) (sizes z_mu))
                   (Tensor (length h1) (sizes z_std))),
         (MkWorld (rng w) (h1 ++ [ones]) (built w ++ [(zeros, ones)])).
  split.
  - unfold BasicVaeModule.get_prior, zeros_like, ones_like, map1, Normal,
      construct, note_built, load, alloc, mbind, M_bind, bind, mret, M_ret,
      ret. simpl. rewrite Hmu. simpl.
    rewrite (lookup_app_l_Some _ _ _ _ Hstd). simpl.
    rewrite decide_True by done. cbn [heap]. fold zeros ones h1.
    rewrite E1. cbn [heap]. rewrite E2. reflexivity.
  - simpl. rewrite <- !Hconst. fold zeros ones. repeat split; try done.
    + by apply lookup_ge_None_2.
    + apply lookup_ge_None_2. unfold h1. rewrite length_app. simpl. lia.
    + unfold h1. rewrite length_app. simpl. lia.
    + intros t e Ht. unfold h1. rewrite <- app_assoc.
      by apply lookup_app_l_Some.
Qed.

Lemma get_prior_standard_normal_witness :
  exists P w',
    BasicVaeModule.get_prior (Tensor 1 [2; 2]%nat) (Tensor 2 [2; 2]%nat) w_q
    = (Ok P, w') /\
    stored w' (loc P) (replicate (length [1; 0; -1; 2]) 0) /\
    stored w' (scale P) (replicate (length [1; 2; 1; 1]) 1) /\
    sizes (loc P) = [2; 2]%nat /\ sizes (scale P) = [2; 2]%nat /\
    heap w_q !! storage (loc P) = None /\
    heap w_q !! storage (scale P) = None /\
    storage (loc P) <> storage (scale P) /\
    rng w' = rng w_q /\
    forall t e, stored w_q t e -> stored w' t e.
Proof.
  apply (get_prior_standard_normal (Tensor 1 [2; 2]%nat) (Tensor 2 [2; 2]%nat)
           [1; 0; -1; 2] [1; 2; 1; 1] w_q); reflexivity.
Defined.



(** X7: when the encoder returns mean 0 and log-variance 0 at every
    latent element, the posterior is the prior and the KL term
    [_run_step] returns is exactly 0, for every batch size, latent
    dimension, decoder and noise. *)
Theorem run_step_kl_zero_at_prior
    (encoder : tdata -> outcome (tdata * tdata))
    (decoder : tdata -> outcome tdata)
    (B K D : nat) (x y : tensor) (rest : list nat)
    (X PXZ : list R) (w : World) :
  let zeros := replicate (B * D) 0 in
  sizes x = B :: rest -> numel rest = K -> stored w x X ->
  encoder (B :: rest, X) = Ok (([B; D], zeros), ([B; D], zeros)) ->
  decoder ([B; D], latent B D zeros (stds zeros) (rng w)) = Ok ([B; K], PXZ) ->
  Forall (fun v => 0 <= v <= 1) PXZ ->
  B <> 0%nat ->
  wp (BasicVaeModule._run_step encoder decoder (x, y)) w
     (fun '(loss, recon_loss, kl_div, pxz) w' => stored w' kl_div [0]).
Proof.
  intros zeros Hx HK HX Henc Hdec Hunit HB.
  eapply wp_mono; [by eapply (run_step_run encoder decoder B K D)|].
  intros [[[loss recon_loss] kl_div] pxz] w'
         (_ & _ & _ & _ & _ & _ & _ & _ & Hk & _).
  cbv zeta in Hk.
  assert (length zeros = (B * D)%nat) as Hlen by apply length_replicate.
  rewrite kl_per_sample_rows in Hk
    by (try apply length_latent; rewrite ?length_map, ?length_stds; done).
  rewrite (map_ext_in _ (fun _ : nat => 0)) in Hk.
  - by rewrite batch_mean_const in Hk.
  - intros i Hi. apply in_seq in Hi.
    rewrite kl_at_run_step by (done || lia).
    rewrite (big_sum_ext _ _ (fun _ => 0)); [rewrite big_sum_const; lra|].
    intros d Hd. cbv zeta.
    assert (i * D + d < B * D)%nat by (apply (index_in_range B); lia).
    unfold zeros. rewrite nth_replicate_lt by done.
    replace (0 / 2) with 0 by lra. rewrite exp_0. lra.
Qed.

Lemma run_step_kl_zero_at_prior_witness :
  wp (BasicVaeModule._run_step encoder_stub decoder_stub (x_step, y_step))
     w_step
     (fun '(loss, recon_loss, kl_div, pxz) w' => stored w' kl_div [0]).
Proof.
  apply (run_step_kl_zero_at_prior encoder_stub decoder_stub 4 16 2
           x_step y_step [1; 4; 4]%nat (replicate 64 (1 / 4))
           (replicate 64 (1 / 2)) w_step);
    try reflexivity; try lia.
  apply Forall_replicate. lra.
Defined.

(** X8: when the decoder returns 1/2 at every pixel, the
    reconstruction loss [_run_step] returns is [K * ln 2] for [K]
    pixels per sample, whatever the input, the batch size and the
    latent sample. *)
Theorem run_step_recon_of_half_decoder
    (encoder : tdata -> outcome (tdata * tdata))
    (decoder : tdata -> outcome tdata)
    (B K D : nat) (x y : tensor) (rest : list nat)
    (X MU LV : list R) (w : World) :
  sizes x = B :: rest -> numel rest = K -> stored w x X ->
  length X = (B * K)%nat ->
  encoder (B :: rest, X) = Ok (([B; D], MU), ([B; D], LV)) ->
  decoder ([B; D], latent B D MU (stds LV) (rng w))
  = Ok ([B; K], replicate (B * K) (1 / 2)) ->
  B <> 0%nat ->
  wp (BasicVaeModule._run_step encoder decoder (x, y)) w
     (fun '(loss, recon_loss, kl_div, pxz) w' =>
        stored w' recon_loss [INR K * ln 2]).
Proof.
  intros Hx HK HX HlX Henc Hdec HB.
  eapply wp_mono.
  { eapply (run_step_run encoder decoder B K D); try done.
    apply Forall_replicate. lra. }
  intros [[[loss recon_loss] kl_div] pxz] w'
         (_ & _ & _ & _ & _ & _ & _ & Hr & _).
  rewrite recon_per_sample_rows in Hr by (by rewrite ?length_replicate).
  rewrite (map_ext_in _ (fun _ : nat => INR K * ln 2)) in Hr.
  - by rewrite batch_mean_const in Hr.
  - intros i Hi. apply in_seq in Hi. unfold recon_at.
    rewrite (big_sum_ext _ _ (fun _ => - ln (1 / 2))).
    + rewrite big_sum_const, RealFacts.ln_half. lra.
    + intros j Hj. rewrite nth_replicate_lt; [apply bce_half|].
      apply (index_in_range B); lia.
Qed.

Lemma run_step_recon_of_half_decoder_witness :
  wp (BasicVaeModule._run_step encoder_stub decoder_stub (x_step, y_step))
     w_step
     (fun '(loss, recon_loss, kl_div, pxz) w' =>
        stored w' recon_loss [INR 16 * ln 2]).
Proof.
  apply (run_step_recon_of_half_decoder encoder_stub decoder_stub 4 16 2
           x_step y_step [1; 4; 4]%nat (replicate 64 (1 / 4))
           (replicate 8 0) (replicate 8 0) w_step);
    try reflexivity; lia.
Defined.



(** X10: on a batch of no samples (first size 0), [_run_step] raises
    [RuntimeError], at [x.view(x.size(0), -1)], when the encoder
    accepts such a batch; this happens before any noise is drawn, and
    no tensor of the store is changed. *)
Theorem run_step_empty_batch
    (encoder : tdata -> outcome (tdata * tdata))
    (decoder : tdata -> outcome tdata)
    (x y : tensor) (rest s : list nat) (X MU LV : list R) (w : World) :
  sizes x = 0%nat :: rest -> stored w x X ->
  encoder (0%nat :: rest, X) = Ok ((s, MU), (s, LV)) ->
  post (BasicVaeModule._run_step encoder decoder (x, y)) w
       (fun o w' => o = Raise RuntimeError /\ rng w' = rng w /\
                    forall t e, stored w t e -> stored w' t e).
Proof.
  intros Hx HX Henc. unfold BasicVaeModule._run_step.
  apply post_bind_ok. eapply wp_call2; [done | rewrite Hx; exact Henc |].
  intros z_mu z_log_var w0 Hg0 Hr0 Hb0 Hsm Hsv Hmu Hlv.
  simpl in Hsm, Hsv, Hmu, Hlv. carry Hg0 Hr0 Hb0.
  unfold div_scalar, exp.
  apply post_bind_ok. eapply wp_map1; [done|].
  intros half w1 Hg1 Hr1 Hb1 Hs1 Ht1. carry Hg1 Hr1 Hb1.
  apply post_bind_ok. eapply wp_map1; [done|].
  intros z_std w2 Hg2 Hr2 Hb2 Hs2 Ht2. carry Hg2 Hr2 Hb2.
  unfold BasicVaeModule.get_prior, zeros_like, ones_like.
  apply post_bind_ok. step wp_map1. step wp_map1.
  apply wp_bind. eapply wp_Normal; [done | done | congruence |].
  intros w5 Hg5 Hr5 Hb5. carry Hg5 Hr5 Hb5. apply wp_ret.
  unfold BasicVaeModule.get_approx_posterior.
  apply post_bind_ok, wp_bind.
  eapply wp_Normal; [done | done | congruence |].
  intros w6 Hg6 Hr6 Hb6. carry Hg6 Hr6 Hb6. apply wp_ret.
  apply post_bind_ok. eapply wp_size; [by rewrite Hx|].
  unfold post, view, mbind, M_bind, bind. rewrite Hx. simpl.
  repeat split; try done.
  intros t1 e Ht1'. by eapply stored_grows.
Qed.

Lemma run_step_empty_batch_witness :
  post (BasicVaeModule._run_step encoder_empty decoder_stub (x_empty, y_empty))
       w_empty
       (fun o w' => o = Raise RuntimeError /\ rng w' = rng w_empty /\
                    forall t e, stored w_empty t e -> stored w' t e).
Proof.
  apply (run_step_empty_batch encoder_empty decoder_stub x_empty y_empty
           [1; 4; 4]%nat [0; 2]%nat [] [] [] w_empty); reflexivity.
Defined.

(** X11: [training_step] returns under ['loss'] the very tensor it
    logs as ['train_elbo_loss'], and logs the batch means of the
    per-sample reconstruction losses and KL terms of the step as
    ['train_recon_loss'] and ['train_kl_loss']; the reconstruction is
    not returned. *)
Theorem training_step_loss_is_logged
    (encoder : tdata -> outcome (tdata * tdata))
    (decoder : tdata -> outcome tdata)
    (B K D : nat) (x y : tensor) (rest : list nat) (batch_idx : nat)
    (X MU LV PXZ : list R) (w : World) :
  sizes x = B :: rest -> numel rest = K -> stored w x X ->
  encoder (B :: rest, X) = Ok (([B; D], MU), ([B; D], LV)) ->
  decoder ([B; D], latent B D MU (stds LV) (rng w)) = Ok ([B; K], PXZ) ->
  Forall (fun v => 0 <= v <= 1) PXZ ->
  B <> 0%nat ->
  wp (BasicVaeModule.training_step encoder decoder (x, y) batch_idx) w
     (fun res w' =>
        let Z := latent B D MU (stds LV) (rng w) in
        let rec := recon_per_sample B K PXZ X in
        let kl := kl_per_sample B D (map (fun _ => 0) MU)
                    (map (fun _ => 1) (stds LV)) MU (stds LV) Z in
        exists (loss : tensor) (log : gmap string tensor),
          res !! "loss" = Some (VTensor loss) /\
          res !! "log" = Some (VDict log) /\
          log !! "train_elbo_loss" = Some loss /\
          logged w' res "train_recon_loss" (batch_mean B rec) /\
          logged w' res "train_kl_loss" (batch_mean B kl) /\
          res !! "pxz" = None).
Proof.
  intros Hx HK HX Henc Hdec Hunit HB.
  unfold BasicVaeModule.training_step. apply wp_bind.
  eapply wp_mono; [by eapply (run_step_run encoder decoder B K D)|].
  intros [[[loss recon_loss] kl_div] pxz] w'
         (_ & _ & Hsl & Hsr & Hsk & _ & Hl & Hr & Hk & _).
  apply wp_ret. cbv zeta in *.
  eexists loss, _. split; [done|]. split; [done|]. split; [done|].
  split; [|split; [|done]].
  - eexists _, recon_loss. by repeat split.
  - eexists _, kl_div. by repeat split.
Qed.

Lemma training_step_loss_is_logged_witness :
  wp (BasicVaeModule.training_step encoder_q decoder_q (image_q, label_q) 0)
     w_img
     (fun res w' =>
        let Z := latent 2 2 [1; 0; -1; 2] (stds [0; 2; 0; -2]) (rng w_img) in
        let rec := recon_per_sample 2 2 [1 / 2; 1 / 4; 3 / 4; 1 / 2]
                     [0; 1; 1 / 2; 1 / 4] in
        let kl := kl_per_sample 2 2 (map (fun _ => 0) [1; 0; -1; 2])
                    (map (fun _ => 1) (stds [0; 2; 0; -2])) [1; 0; -1; 2]
                    (stds [0; 2; 0; -2]) Z in
        exists (loss : tensor) (log : gmap string tensor),
          res !! "loss" = Some (VTensor loss) /\
          res !! "log" = Some (VDict log) /\
          log !! "train_elbo_loss" = Some loss /\
          logged w' res "train_recon_loss" (batch_mean 2 rec) /\
          logged w' res "train_kl_loss" (batch_mean 2 kl) /\
          res !! "pxz" = None).
Proof.
  apply (training_step_loss_is_logged encoder_q decoder_q 2 2 2
           image_q label_q [1; 2]%nat 0 [0; 1; 1 / 2; 1 / 4]
           [1; 0; -1; 2] [0; 2; 0; -2] [1 / 2; 1 / 4; 3 / 4; 1 / 2] w_img);
    try reflexivity; try lia.
  repeat constructor; lra.
Defined.

End StepMore.

(** ** More on epoch aggregation *)

Module EpochMore.
Import Torch TorchFacts Values ValueFacts StepFacts EpochFacts Examples.
Local Open Scope R_scope.



Lemma val_record_metrics w outputs recs :
  Forall2 (val_record w) outputs recs ->
  Forall2 (fun o v => metric w o "val_loss" v) outputs (losses recs) /\
  Forall2 (fun o v => metric w o "val_recon_loss" v) outputs (recons recs) /\
  Forall2 (fun o v => metric w o "val_kl_div" v) outputs (kls recs).
Proof.
  intros H. unfold losses, recons, kls. repeat split;
    apply Forall2_fmap_r; (eapply Forall2_impl; [exact H|]);
    intros o r (? & ? & ?); done.
Qed.

Lemma test_record_metrics w outputs recs :
  Forall2 (test_record w) outputs recs ->
  Forall2 (fun o v => metric w o "test_loss" v) outputs (losses recs) /\
  Forall2 (fun o v => metric w o "test_recon_loss" v) outputs (recons recs) /\
  Forall2 (fun o v => metric w o "test_kl_div" v) outputs (kls recs).
Proof.
  intros H. unfold losses, recons, kls. repeat split;
    apply Forall2_fmap_r; (eapply Forall2_impl; [exact H|]);
    intros o r (? & ? & ?); done.
Qed.

(** The run of an epoch end on records, in terms of the records. *)
Lemma validation_epoch_end_records w outputs recs :
  outputs <> [] -> Forall2 (val_record w) outputs recs ->
  wp (BasicVaeModule.validation_epoch_end outputs) w
     (fun res w' =>
        grows w w' /\ rng w' = rng w /\
        metric w' res "avg_val_loss" (average (losses recs)) /\
        logged w' res "val_elbo_loss" (average (losses recs)) /\
        logged w' res "val_recon_loss" (average (recons recs)) /\
        logged w' res "val_kl_loss" (average (kls recs))).
Proof.
  intros Hne H. destruct (val_record_metrics _ _ _ H) as (H1 & H2 & H3).
  by apply validation_epoch_end_run.
Qed.

Lemma test_epoch_end_records w outputs recs :
  outputs <> [] -> Forall2 (test_record w) outputs recs ->
  wp (BasicVaeModule.test_epoch_end outputs) w
     (fun res w' =>
        grows w w' /\ rng w' = rng w /\
        metric w' res "avg_test_loss" (average (losses recs)) /\
        logged w' res "test_elbo_loss" (average (losses recs)) /\
        logged w' res "test_recon_loss" (average (recons recs)) /\
        logged w' res "test_kl_loss" (average (kls recs))).
Proof.
  intros Hne H. destruct (test_record_metrics _ _ _ H) as (H1 & H2 & H3).
  by apply test_epoch_end_run.
Qed.

Lemma val_record_example :
  Forall2 (val_record w_rec) [val_rec; val_rec] [(3, 2, 1); (3, 2, 1)].
Proof.
  repeat constructor; eapply metric_example; reflexivity.
Qed.

Lemma test_record_example :
  Forall2 (test_record w_rec) [test_rec; test_rec] [(3, 2, 1); (3, 2, 1)].
Proof.
  repeat constructor; eapply metric_example; reflexivity.
Qed.



Lemma run_bind {A B} (m : M A) (f : A -> M B) w :
  (m ≫= f) w = match m w with
               | (Ok a, w') => f a w'
               | (Raise e, w') => (Raise e, w')
               | (Unmodelled, w') => (Unmodelled, w')
               end.
Proof. done. Qed.

Lemma mapM_getitem_KeyError key (outputs : list (gmap string value)) w :
  Exists (fun o => o !! key = None) outputs ->
  mapM (fun x => getitem x key) outputs w = (Raise KeyError, w).
Proof.
  intros Hex. induction outputs as [|o os IH]; [by inversion Hex|].
  cbn [mapM]. rewrite run_bind. unfold getitem at 1.
  destruct (o !! key) as [v|] eqn:Hk.
  - cbn. rewrite run_bind, IH; [done|].
    apply Exists_cons in Hex as [Hex|Hex]; [congruence | done].
  - done.
Qed.

(** X15: when some per-batch record lacks the loss key the epoch end
    reads first, the epoch end raises [KeyError] and leaves the world
    as it was, whatever the other records hold under that key; so
    does [validation_epoch_end] on records of a test pass, and
    [test_epoch_end] on records of a validation pass. *)
Theorem epoch_end_missing_key
    (w : World) (outputs : list (gmap string value)) :
  (Exists (fun o => o !! "val_loss" = None) outputs ->
   BasicVaeModule.validation_epoch_end outputs w = (Raise KeyError, w))
  /\
  (Exists (fun o => o !! "test_loss" = None) outputs ->
   BasicVaeModule.test_epoch_end outputs w = (Raise KeyError, w)).
Proof.
  split; intros Hex.
  - unfold BasicVaeModule.validation_epoch_end.
    by rewrite run_bind, mapM_getitem_KeyError.
  - unfold BasicVaeModule.test_epoch_end.
    by rewrite run_bind, mapM_getitem_KeyError.
Qed.

Lemma epoch_end_missing_key_witness :
  BasicVaeModule.validation_epoch_end [val_rec; test_rec] w_rec
  = (Raise KeyError, w_rec).
Proof.
  apply (proj1 (epoch_end_missing_key w_rec [val_rec; test_rec])).
  apply Exists_cons_tl, Exists_cons_hd. reflexivity.
Defined.

End EpochMore.

(** ** Passes: steps followed by the epoch end *)

Module PassMore.
Import Torch TorchFacts Values ValueFacts StepFacts EpochFacts EpochMore Examples.
Local Open Scope R_scope.

Lemma wp_mapM_grows {A B} (f : A -> M B) (P : World -> B -> Prop)
    (l : list A) w :
  (forall w1 w2 b, grows w1 w2 -> P w1 b -> P w2 b) ->
  (forall a w1, a ∈ l -> grows w w1 ->
     wp (f a) w1 (fun b w2 => grows w1 w2 /\ P w2 b)) ->
  wp (mapM f l) w
     (fun bs w' => grows w w' /\ length bs = length l /\ Forall (P w') bs).
Proof.
  intros Hmono. revert w. induction l as [|a l IH]; intros w Hstep.
  - apply wp_ret. by repeat split.
  - cbn [mapM]. apply wp_bind.
    eapply wp_mono; [apply Hstep; [apply list_elem_of_here | done]|].
    intros b w1 [Hg1 Hb]. apply wp_bind.
    eapply wp_mono.
    + apply IH. intros a' w2 Ha' Hg2. apply Hstep.
      * by apply list_elem_of_further.
      * by etrans.
    + intros bs w2 (Hg2 & Hlen & Hall). apply wp_ret.
      split; [by etrans|]. split; [simpl; by rewrite Hlen|].
      constructor; [by eapply Hmono | done].
Qed.

Lemma Forall_exists_Forall2 {A B} (P : A -> B -> Prop) (l : list A) :
  Forall (fun a => exists b, P a b) l -> exists k, Forall2 P l k.
Proof.
  induction 1 as [|a l [b Hb] _ [k IH]].
  - by exists [].
  - exists (b :: k). by constructor.
Qed.

Lemma val_record_grows w w' o rec :
  grows w w' -> val_record w o rec -> val_record w' o rec.
Proof. intros Hg (? & ? & ?). repeat split; by eapply metric_grows. Qed.

Lemma test_record_grows w w' o rec :
  grows w w' -> test_record w o rec -> test_record w' o rec.
Proof. intros Hg (? & ? & ?). repeat split; by eapply metric_grows. Qed.

Section pass.
Variable encoder : tdata -> outcome (tdata * tdata).
Variable decoder : tdata -> outcome tdata.
Variables (B D : nat) (rest : list nat).
Hypothesis nonempty_batch : B <> 0%nat.
(** The networks accept every batch of these sizes. *)
Hypothesis encoder_sizes :
  forall X, exists MU LV,
    encoder (B :: rest, X) = Ok (([B; D], MU), ([B; D], LV)).
Hypothesis decoder_sizes :
  forall Z, exists PXZ,
    decoder ([B; D], Z) = Ok ([B; numel rest], PXZ) /\
    Forall (fun v => 0 <= v <= 1) PXZ.

Lemma run_step_scalars (x y : tensor) (X : list R) w :
  sizes x = B :: rest -> stored w x X ->
  wp (BasicVaeModule._run_step encoder decoder (x, y)) w
     (fun '(loss, recon_loss, kl_div, pxz) w' =>
        grows w w' /\
        sizes loss = [] /\ sizes recon_loss = [] /\ sizes kl_div = [] /\
        exists l r k : R,
          stored w' loss [l] /\ stored w' recon_loss [r] /\
          stored w' kl_div [k]).
Proof.
  intros Hx HX. destruct (encoder_sizes X) as (MU & LV & Henc).
  destruct (decoder_sizes (latent B D MU (stds LV) (rng w)))
    as (PXZ & Hdec & Hunit).
  eapply wp_mono;
    [by eapply (run_step_run encoder decoder B (numel rest) D)|].
  intros [[[loss recon_loss] kl_div] pxz] w'
         (Hg & _ & Hsl & Hsr & Hsk & _ & Hl & Hr & Hk & _).
  cbv zeta in *. repeat split; try done. eexists _, _, _. by repeat split.
Qed.

Lemma validation_step_record (x y : tensor) (idx : nat) (X : list R) w :
  sizes x = B :: rest -> stored w x X ->
  wp (BasicVaeModule.validation_step encoder decoder (x, y) idx) w
     (fun o w' =>
        grows w w' /\ exists rec, val_record w' o rec).
Proof.
  intros Hx HX. unfold BasicVaeModule.validation_step. apply wp_bind.
  eapply wp_mono; [by eapply run_step_scalars|].
  intros [[[loss recon_loss] kl_div] pxz] w'
         (Hg & Hsl & Hsr & Hsk & l & r & k & Hl & Hr & Hk).
  apply wp_ret. split; [done|]. exists (l, r, k).
  repeat split; eexists; by repeat split.
Qed.

Lemma test_step_record (x y : tensor) (idx : nat) (X : list R) w :
  sizes x = B :: rest -> stored w x X ->
  wp (BasicVaeModule.test_step encoder decoder (x, y) idx) w
     (fun o w' =>
        grows w w' /\ exists rec, test_record w' o rec).
Proof.
  intros Hx HX. unfold BasicVaeModule.test_step. apply wp_bind.
  eapply wp_mono; [by eapply run_step_scalars|].
  intros [[[loss recon_loss] kl_div] pxz] w'
         (Hg & Hsl & Hsr & Hsk & l & r & k & Hl & Hr & Hk).
  apply wp_ret. split; [done|]. exists (l, r, k).
  repeat split; eexists; by repeat split.
Qed.
End pass.

(** X16: the records that [validation_step] returns over any
    non-empty sequence of batches are accepted by
    [validation_epoch_end]: no key is missing, and the epoch end
    returns the averages of the losses those steps returned.  Likewise
    for [test_step] and [test_epoch_end].  The encoder and the decoder
    are assumed to accept every batch of the sizes at hand, the decoder
    returning values in [0,1]. *)
Theorem steps_feed_epoch_end
    (encoder : tdata -> outcome (tdata * tdata))
    (decoder : tdata -> outcome tdata)
    (B D : nat) (rest : list nat)
    (steps : list (tensor * tensor * nat)) (w : World) :
  B <> 0%nat ->
  (forall X, exists MU LV,
     encoder (B :: rest, X) = Ok (([B; D], MU), ([B; D], LV))) ->
  (forall Z, exists PXZ,
     decoder ([B; D], Z) = Ok ([B; numel rest], PXZ) /\
     Forall (fun v => 0 <= v <= 1) PXZ) ->
  steps <> [] ->
  Forall (fun s => sizes s.1.1 = B :: rest /\ exists X, stored w s.1.1 X)
         steps ->
  wp (mapM (fun s => BasicVaeModule.validation_step encoder decoder s.1 s.2)
           steps) w
     (fun outputs w1 =>
        exists recs,
          Forall2 (val_record w1) outputs recs /\
          wp (BasicVaeModule.validation_epoch_end outputs) w1
             (fun res w' =>
                metric w' res "avg_val_loss" (average (losses recs)) /\
                logged w' res "val_elbo_loss" (average (losses recs)) /\
                logged w' res "val_recon_loss" (average (recons recs)) /\
                logged w' res "val_kl_loss" (average (kls recs))))
  /\
  wp (mapM (fun s => BasicVaeModule.test_step encoder decoder s.1 s.2)
           steps) w
     (fun outputs w1 =>
        exists recs,
          Forall2 (test_record w1) outputs recs /\
          wp (BasicVaeModule.test_epoch_end outputs) w1
             (fun res w' =>
                metric w' res "avg_test_loss" (average (losses recs)) /\
                logged w' res "test_elbo_loss" (average (losses recs)) /\
                logged w' res "test_recon_loss" (average (recons recs)) /\
                logged w' res "test_kl_loss" (average (kls recs)))).
Proof.
  intros HB Henc Hdec Hne Hsteps. rewrite Forall_forall in Hsteps.
  split.
  - eapply wp_mono.
    + apply (wp_mapM_grows _ (fun w1 o => exists rec, val_record w1 o rec)).
      * intros w1 w2 o Hg (rec & Hrec). exists rec.
        by eapply val_record_grows.
      * intros [[x y] idx] w1 Hin Hg.
        destruct (Hsteps _ Hin) as (Hx & X & HX). simpl in Hx, HX.
        eapply (validation_step_record encoder decoder B D rest); try done.
        by eapply stored_grows.
    + intros outputs w1 (_ & Hlen & Hall).
      destruct (Forall_exists_Forall2 _ _ Hall) as (recs & Hrec).
      exists recs. split; [done|].
      eapply wp_mono.
      * apply (validation_epoch_end_records w1 outputs recs); [|done].
        intros ->. destruct steps; [done | discriminate].
      * intros res w' (_ & _ & Ha & Hl & Hr & Hk). by repeat split.
  - eapply wp_mono.
    + apply (wp_mapM_grows _ (fun w1 o => exists rec, test_record w1 o rec)).
      * intros w1 w2 o Hg (rec & Hrec). exists rec.
        by eapply test_record_grows.
      * intros [[x y] idx] w1 Hin Hg.
        destruct (Hsteps _ Hin) as (Hx & X & HX). simpl in Hx, HX.
        eapply (test_step_record encoder decoder B D rest); try done.
        by eapply stored_grows.
    + intros outputs w1 (_ & Hlen & Hall).
      destruct (Forall_exists_Forall2 _ _ Hall) as (recs & Hrec).
      exists recs. split; [done|].
      eapply wp_mono.
      * apply (test_epoch_end_records w1 outputs recs); [|done].
        intros ->. destruct steps; [done | discriminate].
      * intros res w' (_ & _ & Ha & Hl & Hr & Hk). by repeat split.
Qed.

Lemma steps_feed_epoch_end_witness :
  wp (mapM (fun s => BasicVaeModule.validation_step encoder_stub decoder_stub
                       s.1 s.2)
           [(x_step, y_step, 0%nat); (x_step, y_step, 1%nat)]) w_step
     (fun outputs w1 =>
        exists recs,
          Forall2 (val_record w1) outputs recs /\
          wp (BasicVaeModule.validation_epoch_end outputs) w1
             (fun res w' =>
                metric w' res "avg_val_loss" (average (losses recs)) /\
                logged w' res "val_elbo_loss" (average (losses recs)) /\
                logged w' res "val_recon_loss" (average (recons recs)) /\
                logged w' res "val_kl_loss" (average (kls recs)))).
Proof.
  apply (proj1 (steps_feed_epoch_end encoder_stub decoder_stub 4 2
                  [1; 4; 4]%nat
                  [(x_step, y_step, 0%nat); (x_step, y_step, 1%nat)] w_step
                  ltac:(lia)
                  ltac:(intros X; eexists _, _; reflexivity)
                  ltac:(intros Z; eexists; split;
                        [reflexivity | apply Forall_replicate; lra])
                  ltac:(discriminate)
                  ltac:(repeat constructor; eexists; reflexivity))).
Defined.

End PassMore.
